(** * Mailvelope: key discovery and the encryption editor

    A shallow embedding of the Web Key Directory client (WKDLocate), of the
    automatic key lookup (AutoLocate), of the editor controller
    (EditorController) and of the queries of a keyring (KeyringBase), with
    the properties of these functions proved over the embedding.

    JavaScript values are modelled as follows: numbers that the code treats
    as integers are [Z]; the operands of the bitwise operators are 32-bit
    two's complement integers with the wrap-around written out ([JS.ToInt32]);
    a [Uint8Array] is a [list byte]; a string is a [string]; an exception is
    a value of [exn] carried by [Throw]; [null]/[undefined] is [None]. *)

From Stdlib Require Import ZArith List Bool Lia Arith.
From Stdlib.Strings Require Import String Ascii Byte.
From Stdlib Require DecimalString OrdersEx.
From Stdlib Require Import Sorting.Sorted.
From Equations Require Import Equations.
Import ListNotations.

Open Scope string_scope.
Open Scope list_scope.
Open Scope Z_scope.

(** ** Results and exceptions *)

(** A JavaScript exception: [new Error(message)], an engine-raised
    TypeError, or [new mvelo.Error(message, code)]. *)
Inductive exn : Type :=
| Error (message : string)
| TypeError (message : string)
| MveloError (message : string) (code : string).

(** [`${e}`] for an exception value. *)
Definition exn_toString (e : exn) : string :=
  match e with
  | Error m => ("Error: " ++ m)%string
  | TypeError m => ("TypeError: " ++ m)%string
  | MveloError m _ => ("Error: " ++ m)%string
  end.

(** [e.code] *)
Definition exn_code (e : exn) : option string :=
  match e with
  | MveloError _ code => Some code
  | _ => None
  end.

(** The outcome of a call: a returned value or a thrown exception (for an
    async function: a fulfilled or a rejected promise). *)
Inductive result (E A : Type) : Type :=
| Ok (value : A)
| Throw (e : E).
Arguments Ok {E A} value.
Arguments Throw {E A} e.

Definition bind {E A B} (r : result E A) (k : A -> result E B) : result E B :=
  match r with
  | Ok a => k a
  | Throw e => Throw e
  end.

Notation "'let*' x ':=' r 'in' k" := (bind r (fun x => k))
  (at level 10, x pattern, r at level 100, k at level 200).

Definition isOk {E A} (r : result E A) : bool :=
  match r with Ok _ => true | Throw _ => false end.

(** JavaScript truthiness of a string-or-undefined value. *)
Definition truthy (s : option string) : bool :=
  match s with
  | None => false
  | Some s => negb (s =? "")%string
  end.

(** ** 32-bit integer operators *)

Module JS.

(** ToInt32: reduction modulo 2^32 into [-2^31, 2^31). *)
Definition ToInt32 (z : Z) : Z := (z + 2 ^ 31) mod 2 ^ 32 - 2 ^ 31.

(** [a << n] *)
Definition shl (a n : Z) : Z := ToInt32 (Z.shiftl (ToInt32 a) (n mod 32)).

(** [a >> n] (sign-propagating) *)
Definition sar (a n : Z) : Z := Z.shiftr (ToInt32 a) (n mod 32).

(** [a | b]; the bitwise or of two 32-bit integers is a 32-bit integer. *)
Definition bor (a b : Z) : Z := Z.lor (ToInt32 a) (ToInt32 b).

(** [a & b] *)
Definition band (a b : Z) : Z := Z.land (ToInt32 a) (ToInt32 b).

(** [s[i]] appended to a string: the character, or the text of [undefined]
    when [i] is not an index of [s]. *)
Definition charAt (s : string) (i : Z) : string :=
  match (if i <? 0 then None else String.get (Z.to_nat i) s) with
  | Some c => String c EmptyString
  | None => "undefined"
  end.

End JS.

(** Case analysis on a computed value that keeps the equation, for the
    termination proofs of loops. *)
Definition inspect {A : Type} (a : A) : {b : A | a = b} := exist _ a eq_refl.

(** ** Z-Base32 (encodeZBase32) *)

Module ZBase32.

Definition ALPHABET : string := "ybndrfg8ejkmcpqxot1uwisza345h769".
Definition SHIFT : Z := 5.
Definition MASK : Z := 31.

(** The element [data[i]] of a Uint8Array as a number. *)
Definition byteAt (data : list byte) (i : nat) : Z :=
  Z.of_N (Byte.to_N (nth i data x00)).

(** The local variables of the loop. *)
Record vars : Type := mkVars {
  buffer : Z;
  index : nat;
  bitsLeft : Z;
  result : string
}.

(** [bitsLeft > 0 || index < data.length] *)
Definition cond (data : list byte) (v : vars) : bool :=
  (0 <? bitsLeft v) || (index v <? List.length data)%nat.

(** The [if (bitsLeft < SHIFT)] statement of the loop body. *)
Definition refill (data : list byte) (v : vars) : vars :=
  if bitsLeft v <? SHIFT then
    if (index v <? List.length data)%nat then
      mkVars (JS.bor (JS.shl (buffer v) 8) (JS.band (byteAt data (index v)) 255))
             (S (index v)) (bitsLeft v + 8) (result v)
    else
      let pad := SHIFT - bitsLeft v in
      mkVars (JS.shl (buffer v) pad) (index v) (bitsLeft v + pad) (result v)
  else v.

(** One iteration of the [while] loop. *)
Definition body (data : list byte) (v : vars) : vars :=
  let v1 := refill data v in
  let bl := bitsLeft v1 - SHIFT in
  mkVars (buffer v1) (index v1) bl
         (result v1 ++ JS.charAt ALPHABET (JS.band MASK (JS.sar (buffer v1) bl)))%string.

(** The loop variant: every iteration consumes five pending bits, or one
    input byte, or the padding of the last group. *)
Definition variant (data : list byte) (v : vars) : nat :=
  (13 * (List.length data - index v) + Z.to_nat (bitsLeft v))%nat.

(** The [while] loop. *)
Equations? while (data : list byte) (v : vars) : vars
  by wf (variant data v) lt :=
  while data v with inspect (cond data v) := {
    | exist _ true Hcond := while data (body data v);
    | exist _ false _ := v }.
Proof.
  revert Hcond.
  unfold cond, variant, body, refill, SHIFT. destruct v as [b i bl r].
  cbn [buffer index bitsLeft result].
  intros H. apply orb_true_iff in H.
  destruct (Z.ltb_spec bl 5); [destruct (Nat.ltb_spec i (List.length data))|];
    cbv zeta; cbn [buffer index bitsLeft result];
    destruct H as [H|H]; try apply Z.ltb_lt in H; try apply Nat.ltb_lt in H; lia.
Qed.

(** [encodeZBase32(data)] *)
Definition encodeZBase32 (data : list byte) : string :=
  match data with
  | [] => ""
  | _ :: _ => result (while data (mkVars (byteAt data 0) 1 8 ""))
  end.

End ZBase32.


(** ** Z-Base32 as the specification words it

    The bytes are read as one bit string, most significant bit first; the
    bit string is cut into groups of five bits, the last group filled up
    with zero bits; each group, read as a number, selects one character of
    the alphabet.  No padding character is ever emitted, and the empty byte
    sequence has no group, hence the empty string. *)

Module ZBase32Spec.

Definition alphabet : list ascii :=
  list_ascii_of_string "ybndrfg8ejkmcpqxot1uwisza345h769".

Definition bitsOfByte (b : byte) : list bool :=
  map (Z.testbit (Z.of_N (Byte.to_N b))) [7; 6; 5; 4; 3; 2; 1; 0].

Definition bitsOf (data : list byte) : list bool :=
  flat_map bitsOfByte data.

Fixpoint groups (bits : list bool) : list (list bool) :=
  match bits with
  | [] => []
  | b0 :: b1 :: b2 :: b3 :: b4 :: rest => [b0; b1; b2; b3; b4] :: groups rest
  | last => [last ++ repeat false (5 - List.length last)]
  end.

(** The number a group denotes, first bit most significant. *)
Definition valueOf (group : list bool) : Z :=
  fold_left (fun acc (b : bool) => 2 * acc + Z.b2z b) group 0.

Definition symbol (group : list bool) : ascii :=
  nth (Z.to_nat (valueOf group)) alphabet "?"%char.

Definition encode (data : list byte) : string :=
  string_of_list_ascii (map symbol (groups (bitsOf data))).

End ZBase32Spec.

(** The relation the loop of [encodeZBase32] maintains between [buffer] and
    the bits that were read but not yet emitted: bit [i] of [buffer]
    (counted from the least significant one) is the [i]-th pending bit
    counted from the end. *)
Definition bitsMatch (buf : Z) (pending : list bool) : Prop :=
  forall i : nat, (i < List.length pending)%nat ->
    Z.testbit buf (Z.of_nat i) = nth (List.length pending - 1 - i) pending false.

(** ** The platform

    Built-in functions the code calls and whose implementation is not part
    of the repository: [String.prototype.toLowerCase] and the SHA-1 digest
    and [toUpperCase], and the SHA-1 digest of Node's [crypto] module
    ([createHash('sha1').update(s).digest()], a buffer of bytes). *)

Class Runtime : Type := {
  toLowerCase : string -> string;
  toUpperCase : string -> string;
  sha1 : string -> list byte
}.

(** ** The regular expression of [buildWKDUrl] and [lookup]

    The pattern is dot-star, an at sign, dot-star, with both dot-stars
    captured as groups ([lookup] captures the second one only).
    [exec] tries the start positions from left to right.  At a start
    position the first [.*] takes the longest run of characters other than
    line terminators and gives characters back until an [@] follows, so
    the first group ends at the last [@] of the run; the second [.*] then
    takes what is left of the run. *)

Module RegExp.

(** The characters [.] does not match. *)
Definition isLineTerminator (c : ascii) : bool :=
  (c =? "010")%char || (c =? "013")%char.

(** The longest prefix that [.*] matches. *)
Fixpoint dotStar (s : string) : string :=
  match s with
  | EmptyString => EmptyString
  | String c s' =>
      if isLineTerminator c then EmptyString else String c (dotStar s')
  end.

(** The text before and after the last [@] of [s]. *)
Fixpoint splitLastAt (s : string) : option (string * string) :=
  match s with
  | EmptyString => None
  | String c s' =>
      match splitLastAt s' with
      | Some (before, after) => Some (String c before, after)
      | None => if (c =? "@")%char then Some (EmptyString, s') else None
      end
  end.

(** A match that starts at the first character of [s]. *)
Definition matchHere (s : string) : option (string * string) :=
  splitLastAt (dotStar s).

(** [exec(s)] for this pattern: the two groups of the leftmost match,
    [None] for [null]. *)
Fixpoint exec (s : string) : option (string * string) :=
  match matchHere s with
  | Some groups => Some groups
  | None =>
      match s with
      | EmptyString => None
      | String _ s' => exec s'
      end
  end.

(** Strings all of whose characters satisfy a test. *)
Fixpoint allChars (test : ascii -> bool) (s : string) : bool :=
  match s with
  | EmptyString => true
  | String c s' => test c && allChars test s'
  end.

(** A string without line terminator. *)
Definition singleLine (s : string) : bool :=
  allChars (fun c => negb (isLineTerminator c)) s.

(** A string without at sign. *)
Definition noAt (s : string) : bool :=
  allChars (fun c => negb (c =? "@")%char) s.

End RegExp.

(** Destructuring [null] as an array. *)
Definition nullNotIterable : exn := TypeError "null is not iterable".

(** ** OpenPGP.js

    The part of the library's data the code reads.  A user of a key is a
    user id packet or a user attribute packet; for the latter [userId] is
    [null].  Signature and subkey packets are kept as raw packets: the code
    never looks into them, the library's checks do. *)

Module openpgp.

Inductive keyStatus : Type :=
| invalid | expired | revoked | valid | no_self_cert.

Definition keyStatus_eqb (a b : keyStatus) : bool :=
  match a, b with
  | invalid, invalid | expired, expired | revoked, revoked
  | valid, valid | no_self_cert, no_self_cert => true
  | _, _ => false
  end.

Record UserId : Type := { userid : string }.

Record User : Type := {
  userId : option UserId;
  selfCertifications : list (list byte)
}.

Record PublicKey : Type := {
  fingerprint : string;
  keyid : string;
  created : Z
}.

Record Key : Type := {
  primaryKey : PublicKey;
  revocationSignatures : list (list byte);
  users : list User;
  subKeys : list (list byte)
}.

(** [key.users = keptUsers] *)
Definition setUsers (key : Key) (keptUsers : list User) : Key :=
  {| primaryKey := primaryKey key;
     revocationSignatures := revocationSignatures key;
     users := keptUsers;
     subKeys := subKeys key |}.

(** The value of [openpgp.key.read]: the keys that could be read and the
    errors met, [None] when there was none. *)
Record ReadResult : Type := {
  keys : list Key;
  err : option string
}.

End openpgp.

(** The functions of OpenPGP.js the code calls: [openpgp.key.read],
    [key.armor()], [key.verifyPrimaryKey()] and [user.verify(primaryKey)]. *)
Class OpenPGP : Type := {
  key_read : list byte -> openpgp.ReadResult;
  armor : openpgp.Key -> string;
  verifyPrimaryKey : openpgp.Key -> openpgp.keyStatus;
  verifyUser : openpgp.User -> openpgp.PublicKey -> openpgp.keyStatus
}.

(** ** Other Mailvelope modules

    [mapKeyUserIds] (modules/key) parses the user id string of its argument
    and stores the email address and the name in it (an empty email when
    there is no valid address); [getUserId] (modules/key) gives the user id
    string of the primary user of a key; [isKeyPseudoRevoked]
    (modules/trustKey) tells whether a key is marked as revoked for a
    keyring. *)

Module mvelo.

Record MappedUser : Type := {
  userId : string;
  email : string;
  name : string
}.

(** The objects [mvelo.util.mapError] returns. *)
Record ErrorObject : Type := {
  message : string;
  code : string
}.

(** [mvelo.MAIN_KEYRING_ID], the id of the main keyring (a constant of
    lib/lib-mvelo; nothing below depends on its value). *)
Definition MAIN_KEYRING_ID : string := "localhost|#|mailvelope".

End mvelo.

Class KeyModule : Type := {
  mapKeyUserIds : string -> mvelo.MappedUser;
  getUserId : openpgp.Key -> string;
  isKeyPseudoRevoked : string -> openpgp.Key -> bool
}.

(** ** The Web Key Directory client (WKDLocate) *)

Module WKD.

Section Client.

Context {rt : Runtime} {pgp : OpenPGP} {km : KeyModule}.

(** *** buildWKDUrl *)

Definition buildWKDUrl (email : string) : result exn string :=
  match RegExp.exec email with
  | None => Throw nullNotIterable
  | Some (localPart, domain) =>
      if (localPart =? "")%string || (domain =? "")%string then
        Throw (Error ("WKD: failed to parse: " ++ email))
      else
        let digest := sha1 (toLowerCase localPart) in
        let localEncoded := ZBase32.encodeZBase32 digest in
        Ok ("https://" ++ domain ++ "/.well-known/openpgpkey/hu/"
              ++ localEncoded)%string
  end.

(** *** timeout

    The promise passed to [timeout] settles a number of milliseconds after
    the call, or never.  [timeout] registers two callbacks: the timer's,
    which rejects the returned promise, and the one of the wrapped promise,
    which resolves or rejects it.  The event loop runs them in the order
    they become due (when both are due at the same instant the model lets
    the timer run first; nothing below depends on this choice).  A settled
    promise ignores every later [resolve] and [reject]. *)

Inductive promise (A : Type) : Type :=
| Settles (after : Z) (r : result exn A)
| Pending.
Arguments Settles {A} after r.
Arguments Pending {A}.

Inductive event (A : Type) : Type :=
| TimerFired
| PromiseSettled (r : result exn A).
Arguments TimerFired {A}.
Arguments PromiseSettled {A} r.

(** The callbacks of [timeout(ms, promise)] in the order they run: the
    first one, and the ones after it. *)
Definition schedule {A} (ms : Z) (p : promise A) : event A * list (event A) :=
  match p with
  | Pending => (TimerFired, [])
  | Settles after r =>
      if after <? ms then (PromiseSettled r, [TimerFired])
      else (TimerFired, [PromiseSettled r])
  end.

(** The returned promise and what is still outstanding: the timer set by
    [setTimeout] (it is never cleared) and the wrapped promise (it is never
    aborted). *)
Record race (A : Type) : Type := {
  outcome : result exn A;
  timerOutstanding : bool;
  promiseOutstanding : bool
}.
Arguments outcome {A} r.
Arguments timerOutstanding {A} r.
Arguments promiseOutstanding {A} r.

(** The first callback settles the returned promise. *)
Definition settle {A} (e : event A) : race A :=
  match e with
  | TimerFired =>
      {| outcome := Throw (Error "WKD: Timeout");
         timerOutstanding := false; promiseOutstanding := true |}
  | PromiseSettled r =>
      {| outcome := r; timerOutstanding := true; promiseOutstanding := false |}
  end.

(** A later callback finds the returned promise settled. *)
Definition ignore {A} (s : race A) (e : event A) : race A :=
  match e with
  | TimerFired =>
      {| outcome := outcome s; timerOutstanding := false;
         promiseOutstanding := promiseOutstanding s |}
  | PromiseSettled _ =>
      {| outcome := outcome s; timerOutstanding := timerOutstanding s;
         promiseOutstanding := false |}
  end.

(** The state at the moment the promise returned by [timeout] settles. *)
Definition atSettlement {A} (ms : Z) (p : promise A) : race A :=
  settle (fst (schedule ms p)).

(** The state once every callback that ever becomes due has run. *)
Definition afterwards {A} (ms : Z) (p : promise A) : race A :=
  fold_left ignore (snd (schedule ms p)) (atSettlement ms p).

(** [await timeout(ms, promise)] *)
Definition timeout {A} (ms : Z) (p : promise A) : result exn A :=
  outcome (afterwards ms p).

(** A promise that has not settled [ms] milliseconds after the call. *)
Definition late {A} (ms : Z) (p : promise A) : Prop :=
  match p with
  | Pending => True
  | Settles after _ => ms < after
  end.

(** *** sizeLimitResponse *)

(** What the successive calls of [reader.read()] give: a chunk, the end of
    the body, or a rejection. *)
Inductive stream : Type :=
| Done
| Chunk (value : list byte) (rest : stream)
| ReadError (e : exn).

Record Response : Type := {
  status : Z;
  statusText : string;
  body : stream
}.

Definition numberToString (n : Z) : string :=
  DecimalString.NilZero.string_of_int (Z.to_int n).

Fixpoint pump (limit : Z) (reader : stream) (total : Z)
    (results : list (list byte)) : result exn (list byte) :=
  match reader with
  | Done => Ok (List.concat results)
  | Chunk value rest =>
      let total := total + Z.of_nat (List.length value) in
      let results := results ++ [value] in
      if limit <? total then
        Throw (Error "WKD: Response longer then the max size")
      else pump limit rest total results
  | ReadError e => Throw e
  end.

Definition sizeLimitResponse (response : Response) (limit : Z)
    : result exn (list byte) :=
  if negb (status response =? 200) then
    Throw (Error ("WKD: Invalid WKD Response "
                    ++ numberToString (status response) ++ ":"
                    ++ statusText response))
  else pump limit (body response) 0 [].

(** *** parseKeysForEMail

    The argument is a [Uint8Array] by its type, so the check of
    [openpgp.util.isUint8Array] never fails.  Calls of [console.log] are
    left out. *)

(** What [parseKeysForEMail] returns: one armored key when [onlyOne] is
    set, an array of armored keys otherwise. *)
Inductive armoredKeys : Type :=
| OneKey (armored : string)
| AllKeys (armored : list string).

(** The test of a user id against the queried address. *)
Definition sameAddress (userid email : string) : bool :=
  (toLowerCase (mvelo.email (mapKeyUserIds userid)) =? toLowerCase email)%string.

(** [key.users.forEach]: the users pushed to [keptUsers].  Reading
    [user.userId.userid] of a user attribute throws. *)
Fixpoint keepUsers (email : string) (users keptUsers : list openpgp.User)
    : result exn (list openpgp.User) :=
  match users with
  | [] => Ok keptUsers
  | user :: rest =>
      match openpgp.userId user with
      | None => Throw (TypeError "Cannot read property 'userid' of null")
      | Some uid =>
          if sameAddress (openpgp.userid uid) email
          then keepUsers email rest (keptUsers ++ [user])
          else keepUsers email rest keptUsers
      end
  end.

Definition isValid (key : openpgp.Key) : bool :=
  openpgp.keyStatus_eqb (verifyPrimaryKey key) openpgp.valid.

(** The new value of [candidate] when [candidate] is already set. *)
Definition prefer (key candidate : openpgp.Key) : openpgp.Key :=
  let newValid := isValid key in
  let oldValid := isValid candidate in
  if newValid && negb oldValid then key
  else if Bool.eqb newValid oldValid
          && (openpgp.created (openpgp.primaryKey candidate)
              <? openpgp.created (openpgp.primaryKey key))
  then key
  else candidate.

(** The variables the loop over the keys updates. *)
Record scan : Type := {
  keptArmoredKeys : list string;
  candidate : option openpgp.Key
}.

(** The body of [result.keys.forEach]. *)
Definition inspectKey (email : string) (onlyOne : bool) (s : scan)
    (key : openpgp.Key) : result exn scan :=
  let* keptUsers := keepUsers email (openpgp.users key) [] in
  if negb (List.length keptUsers =? 0)%nat then
    let key := openpgp.setUsers key keptUsers in
    if onlyOne then
      match candidate s with
      | None =>
          Ok {| keptArmoredKeys := keptArmoredKeys s; candidate := Some key |}
      | Some c =>
          Ok {| keptArmoredKeys := keptArmoredKeys s;
                candidate := Some (prefer key c) |}
      end
    else
      Ok {| keptArmoredKeys := keptArmoredKeys s ++ [armor key];
            candidate := candidate s |}
  else Ok s.

Fixpoint forEachKey (email : string) (onlyOne : bool)
    (keys : list openpgp.Key) (s : scan) : result exn scan :=
  match keys with
  | [] => Ok s
  | key :: rest =>
      let* s' := inspectKey email onlyOne s key in
      forEachKey email onlyOne rest s'
  end.

(** The [try] block. *)
Definition selectKeys (email : string) (onlyOne : bool)
    (keys : list openpgp.Key) : result exn armoredKeys :=
  let* s := forEachKey email onlyOne keys
              {| keptArmoredKeys := []; candidate := None |} in
  match onlyOne, candidate s with
  | true, Some c => Ok (OneKey (armor c))
  | _, _ =>
      if negb (List.length (keptArmoredKeys s) =? 0)%nat
      then Ok (AllKeys (keptArmoredKeys s))
      else Throw (Error "WKD: Failed to parse any matching key from the result (bad server)")
  end.

Definition parseKeysForEMail (data : list byte) (email : string)
    (onlyOne : bool) : result exn armoredKeys :=
  let result := key_read data in
  match openpgp.err result with
  | Some e =>
      Throw (Error ("WKD: Failed to parse result for '" ++ email ++ "': " ++ e))
  | None =>
      match selectKeys email onlyOne (openpgp.keys result) with
      | Ok armored => Ok armored
      | Throw e =>
          Throw (Error ("WKD: Error handling keys: '" ++ exn_toString e ++ "'"))
      end
  end.

(** *** WKDLocate *)

Record WKDLocate : Type := {
  blacklist : list string;
  TIMEOUT : Z;
  SIZE_LIMIT : Z
}.

(** The constructor; its argument is [prefs.keyserver.wkd_blacklist]. *)
Definition new (wkd_blacklist : option (list string)) : WKDLocate :=
  {| blacklist := match wkd_blacklist with Some l => l | None => [] end;
     TIMEOUT := 5;
     SIZE_LIMIT := 64 |}.

(** [this.blacklist.forEach] *)
Fixpoint checkBlacklist (items : list string) (domain : string)
    : result exn unit :=
  match items with
  | [] => Ok tt
  | item :: rest =>
      if (toLowerCase item =? toLowerCase domain)%string
      then Throw (Error "WKD: Skipping blacklisted domain.")
      else checkBlacklist rest domain
  end.

(** [lookup(email, onlyOne)]; [fetch] is what [window.fetch] does for a
    URL. *)
Definition lookup (this : WKDLocate) (fetch : string -> promise Response)
    (email : option string) (onlyOne : bool) : result exn armoredKeys :=
  match email with
  | None => Throw (Error "WKD: Skipping lookup without email.")
  | Some email =>
      if (email =? "")%string then
        Throw (Error "WKD: Skipping lookup without email.")
      else
        match RegExp.exec email with
        | None => Throw nullNotIterable
        | Some (_, domain) =>
            let* _ := checkBlacklist (blacklist this) domain in
            let* url := buildWKDUrl email in
            let* res := timeout (TIMEOUT this * 1000) (fetch url) in
            let* data := sizeLimitResponse res (SIZE_LIMIT this * 1024) in
            parseKeysForEMail data email onlyOne
        end
  end.

(** *** Notions the properties of the client are stated with *)

(** A stream that gives the chunks [chunks] and goes on as [rest]. *)
Definition prepend (chunks : list (list byte)) (rest : stream) : stream :=
  fold_right Chunk rest chunks.

(** The number of bytes of a list of chunks. *)
Definition byteLength (chunks : list (list byte)) : Z :=
  Z.of_nat (List.length (List.concat chunks)).

(** A user identity whose email address is the queried one, compared
    without regard to case. *)
Definition matches (email : string) (user : openpgp.User) : bool :=
  match openpgp.userId user with
  | Some uid => sameAddress (openpgp.userid uid) email
  | None => false
  end.

(** A key with only its matching identities. *)
Definition filtered (email : string) (key : openpgp.Key) : openpgp.Key :=
  openpgp.setUsers key (filter (matches email) (openpgp.users key)).

(** The keys that survive the filtering: those with at least one matching
    identity, each reduced to its matching identities. *)
Definition survivors (email : string) (keys : list openpgp.Key)
    : list openpgp.Key :=
  filter (fun key => negb (List.length (openpgp.users key) =? 0)%nat)
         (map (filtered email) keys).

(** A user that is a user id packet. *)
Definition hasUserId (user : openpgp.User) : bool :=
  match openpgp.userId user with
  | Some _ => true
  | None => false
  end.

(** Keys all of whose users are user id packets. *)
Definition onlyUserIds (keys : list openpgp.Key) : bool :=
  forallb (fun key => forallb hasUserId (openpgp.users key)) keys.

(** The candidate after one more surviving key. *)
Definition pick (c : option openpgp.Key) (key : openpgp.Key)
    : option openpgp.Key :=
  match c with
  | None => Some key
  | Some c => Some (prefer key c)
  end.

(** The variables of the loop over the keys once the keys that survive
    are [kept], when no exception was thrown. *)
Definition scanned (onlyOne : bool) (s : scan) (kept : list openpgp.Key)
    : scan :=
  if onlyOne then
    {| keptArmoredKeys := keptArmoredKeys s;
       candidate := fold_left pick kept (candidate s) |}
  else
    {| keptArmoredKeys := keptArmoredKeys s ++ map armor kept;
       candidate := candidate s |}.

(** The exception for a user attribute among the users of a key. *)
Definition useridOfNull : exn :=
  TypeError "Cannot read property 'userid' of null".

(** The exception when no key survives. *)
Definition noMatchingKey : exn :=
  Error "WKD: Failed to parse any matching key from the result (bad server)".

(** [c] is at least as good a candidate as [k]: a valid key is better than
    one that is not, and of two keys of the same validity the one created
    later is better. *)
Definition atLeastAsGood (c k : openpgp.Key) : Prop :=
  (isValid k = true -> isValid c = true) /\
  (isValid k = isValid c ->
   openpgp.created (openpgp.primaryKey k)
   <= openpgp.created (openpgp.primaryKey c)).

End Client.

Arguments Settles {A} after r.
Arguments Pending {A}.
Arguments TimerFired {A}.
Arguments PromiseSettled {A} r.
Arguments outcome {A} r.
Arguments timerOutstanding {A} r.
Arguments promiseOutstanding {A} r.

End WKD.

(** ** Automatic key lookup (AutoLocate) *)

Module AutoLocate.

(** The argument of [locate]. *)
Record Options : Type := {
  email : option string;
  keyId : option string;
  fingerprint : option string
}.

(** The key object the key server answers with. *)
Record ServerKey : Type := {
  publicKeyArmored : option string
}.

(** The values the variable [armored] of [locate] takes: [undefined], the
    text of a key, or the array a directory lookup for all keys gives. *)
Inductive armoredValue : Type :=
| undefined
| armoredText (text : string)
| armoredArray (texts : list string).

Definition isTruthy (a : armoredValue) : bool :=
  match a with
  | undefined => false
  | armoredText text => negb (text =? "")%string
  | armoredArray _ => true
  end.

(** [`${armored}`] *)
Definition toString (a : armoredValue) : string :=
  match a with
  | undefined => "undefined"
  | armoredText text => text
  | armoredArray texts => String.concat "," texts
  end.

Definition ofServerKey (key : option ServerKey) : armoredValue :=
  match key with
  | Some {| publicKeyArmored := Some text |} => armoredText text
  | _ => undefined
  end.

Definition ofDirectory (keys : WKD.armoredKeys) : armoredValue :=
  match keys with
  | WKD.OneKey text => armoredText text
  | WKD.AllKeys texts => armoredArray texts
  end.

(** The element of the array passed to [importKeys]. *)
Record ImportedKey : Type := {
  type : string;
  armored : armoredValue
}.

(** What [locate] does, in the order it does it. *)
Inductive action : Type :=
| KeyserverLookup (options : Options)
| DirectoryLookup (email : option string) (onlyOne : bool)
| ConsoleLog (text : string)
| ImportKeys (keyringId : string) (keys : list ImportedKey).

(** The preferences [locate] reads and the objects it calls:
    [this.keyserver.lookup], [this.wkd.lookup] and the [importKeys] of the
    keyring [getKeyringById] gives. *)
Record World : Type := {
  mvelo_tofu_lookup : bool;
  wkd_lookup : bool;
  keyserverLookup : Options -> result exn (option ServerKey);
  directoryLookup : option string -> bool -> result exn WKD.armoredKeys;
  importKeys : string -> list ImportedKey -> result exn unit
}.

(** The first [if]: the actions and the value of [armored] after it. *)
Definition askKeyserver (w : World) (options : Options)
    : list action * armoredValue :=
  if mvelo_tofu_lookup w then
    match keyserverLookup w options with
    | Ok key => ([KeyserverLookup options], ofServerKey key)
    | Throw e =>
        ([KeyserverLookup options;
          ConsoleLog
            ("Mailvelope Server: Did not find key (Errors are expected): "
               ++ exn_toString e)],
         undefined)
    end
  else ([], undefined).

(** The second [if]. *)
Definition askDirectory (w : World) (options : Options)
    (armored : armoredValue) : list action * armoredValue :=
  if negb (isTruthy armored) && truthy (email options) && wkd_lookup w then
    match directoryLookup w (email options) true with
    | Ok keys => ([DirectoryLookup (email options) true], ofDirectory keys)
    | Throw e =>
        ([DirectoryLookup (email options) true;
          ConsoleLog
            ("WKD: Did not find key (Errors are expected): " ++ exn_toString e)],
         armored)
    end
  else ([], armored).

(** The array passed to [importKeys]. *)
Definition toImport (armored : armoredValue) : list ImportedKey :=
  [{| type := "public"; armored := armored |}].

(** [locate(options)]: the actions, and how the returned promise settles. *)
Definition locate (w : World) (options : Options)
    : list action * result exn unit :=
  let '(asked1, armored1) := askKeyserver w options in
  let '(asked2, armored2) := askDirectory w options armored1 in
  if isTruthy armored2 then
    (asked1 ++ asked2
       ++ [ConsoleLog ("Importing " ++ String "010" (toString armored2));
           ImportKeys mvelo.MAIN_KEYRING_ID (toImport armored2)],
     importKeys w mvelo.MAIN_KEYRING_ID (toImport armored2))
  else (asked1 ++ asked2, Ok tt).

(** The armored key [locate] has after asking its sources. *)
Definition obtained (w : World) (options : Options) : armoredValue :=
  snd (askDirectory w options (snd (askKeyserver w options))).

(** [getWKDEnabled()], [getKeyserverEnabled()] and [getEnabled()]; the
    fields of the world are the outcomes of the comparisons with [true]. *)
Definition getWKDEnabled (w : World) : bool := wkd_lookup w.

Definition getKeyserverEnabled (w : World) : bool := mvelo_tofu_lookup w.

Definition getEnabled (w : World) : bool :=
  getWKDEnabled w || getKeyserverEnabled w.

Section Directory.

Context {rt : Runtime} {pgp : OpenPGP} {km : KeyModule}.

(** The world the constructor sets up: [this.wkd] is a [WKDLocate], whose
    [lookup] goes to the network [fetch]. *)
Definition withDirectory (w : World) (wkd : WKD.WKDLocate)
    (fetch : string -> WKD.promise WKD.Response) : World :=
  {| mvelo_tofu_lookup := mvelo_tofu_lookup w;
     wkd_lookup := wkd_lookup w;
     keyserverLookup := keyserverLookup w;
     directoryLookup := WKD.lookup wkd fetch;
     importKeys := importKeys w |}.

End Directory.

(** A lookup or an import among the actions. *)
Definition isCall (a : action) : bool :=
  match a with
  | ConsoleLog _ => false
  | _ => true
  end.

End AutoLocate.

(** ** The editor controller (EditorController)

    A handler runs on the controller's fields and produces the actions the
    outside sees (messages sent through the ports, calls of the
    collaborators), in order; it returns or throws.  An [async] handler is
    run to completion: one job is processed at a time. *)

Module Editor.

(** [this.emit], [this.ports.editor.emit], [this.ports.editorCont.emit]. *)
Inductive port : Type := Self | EditorPort | EditorCont.

(** The data sent with a message. *)
Inductive payload : Type :=
| NoData
| ErrorData (error : mvelo.ErrorObject)
| ActionData (action : string) (draft : bool)
| IdData (id : string)
| MessageData (message : option string).

(** The argument of [pwdControl.unlockKey], the callback apart. *)
Record UnlockRequest : Type := {
  key : string;
  reason : string;
  openPopup : bool;
  noCache : bool
}.

Record UnlockedKey : Type := {
  unlocked : string;
  password : string
}.

(** What a call of [pwdControl.unlockKey] does: it may ask for the
    password, calling [beforePasswordRequest] first, and it resolves with
    the unlocked key or rejects. *)
Record Unlocking : Type := {
  asksPassword : bool;
  settles : result exn UnlockedKey
}.

(** The operations of the crypto engine. *)
Inductive cryptoCall : Type :=
| Encrypt (data : string) (encryptionKeyFprs : list string)
    (signingKey : option string)
| Sign (message : string) (signingKey : option string).

Inductive action : Type :=
| Emit (to : port) (event : string) (data : payload)
| UnlockKey (request : UnlockRequest)
| TriggerSync
| SyncPublicKeys (keyringId : option string) (keyFprs : list string)
| SetTimeout (ms : Z) (to : port) (event : string)
| ClearTimeout
| ConsoleLog (e : exn)
| PopupClose
| Resolve (armored : option string) (recipients : list (string * string))
| Reject (error : mvelo.ErrorObject)
| Crypto (call : cryptoCall).

(** The recipient keys the editor sends. *)
Record KeyObject : Type := {
  name : string;
  email : string;
  fingerprint : string
}.

(** The message of the event [editor-plaintext]. *)
Record Plaintext : Type := {
  action_ : string;
  message : string;
  keys : option (list KeyObject);
  signMsg : bool;
  signKeyFpr : option string;
  noCache_ : bool
}.

(** The fields of the controller. *)
Record Controller : Type := {
  keyringId : option string;
  editorPopup : bool;
  editorContPort : bool;
  encryptDone : bool;
  encryptTimer : bool;
  signKey : option string;
  pgpMIME : bool;
  reasonOption : option string;
  keyFprBuffer : option (list string)
}.

(** The preferences and the objects outside the controller: the keyrings,
    the password dialog, the MIME builder, the error mapping and the crypto
    engine. *)
Record World : Type := {
  auto_add_primary : bool;
  password_cache : bool;
  getPrimaryKeyFpr : option string -> option string;
  getPrivateKeyByFpr : string -> option string;
  keyFprsForAddress : option string -> string -> option (list string);
  unlockKeyDialog : UnlockRequest -> Unlocking;
  pwdControlId : string;
  buildMail : Plaintext -> bool -> result exn (option string);
  mapError : exn -> mvelo.ErrorObject;
  crypto : cryptoCall -> result exn string
}.

(** *** The monad of handlers *)

Record Machine : Type := {
  this : Controller;
  emitted : list action
}.

Definition M (A : Type) : Type := Machine -> result exn A * Machine.

Definition ret {A} (a : A) : M A := fun m => (Ok a, m).

Definition throw {A} (e : exn) : M A := fun m => (Throw e, m).

Definition bindM {A B} (c : M A) (k : A -> M B) : M B :=
  fun m =>
    match c m with
    | (Ok a, m') => k a m'
    | (Throw e, m') => (Throw e, m')
    end.

(** [try { c } catch (e) { handler e }] *)
Definition tryCatch {A} (c : M A) (handler : exn -> M A) : M A :=
  fun m =>
    match c m with
    | (Ok a, m') => (Ok a, m')
    | (Throw e, m') => handler e m'
    end.

Definition get : M Controller := fun m => (Ok (this m), m).

Definition set (update : Controller -> Controller) : M unit :=
  fun m => (Ok tt, {| this := update (this m); emitted := emitted m |}).

Definition perform (a : action) : M unit :=
  fun m => (Ok tt, {| this := this m; emitted := emitted m ++ [a] |}).

Definition liftResult {A} (r : result exn A) : M A := fun m => (r, m).

Definition when (b : bool) (c : M unit) : M unit := if b then c else ret tt.

End Editor.

Notation "x <- c ;; k" := (Editor.bindM c (fun x => k))
  (at level 61, c at next level, right associativity).
Notation "c ;; k" := (Editor.bindM c (fun _ => k))
  (at level 61, right associativity).

(** Fingerprints are strings, ordered by their character codes. *)
Module Fpr := OrdersEx.String_as_OT.

Module EditorController.

Import Editor.

(** Modelled from the spec: [mvelo.util.sortAndDeDup] (lib/lib-mvelo, whose
    source is not included).  The specification has the final set
    deduplicated and sorted; strings are ordered as JavaScript orders them,
    by their character codes. *)
Fixpoint insertFpr (x : string) (sorted : list string) : list string :=
  match sorted with
  | [] => [x]
  | y :: rest =>
      match Fpr.compare x y with
      | Lt => x :: y :: rest
      | Eq => y :: rest
      | Gt => y :: insertFpr x rest
      end
  end.

Definition sortAndDeDup (unordered : list string) : list string :=
  fold_right insertFpr [] unordered.

Section Handlers.

Variable w : World.

Definition setKeyringId (id : option string) (c : Controller) : Controller :=
  {| keyringId := id; editorPopup := editorPopup c;
     editorContPort := editorContPort c; encryptDone := encryptDone c;
     encryptTimer := encryptTimer c; signKey := signKey c;
     pgpMIME := pgpMIME c; reasonOption := reasonOption c;
     keyFprBuffer := keyFprBuffer c |}.

Definition setPgpMIME (b : bool) (c : Controller) : Controller :=
  {| keyringId := keyringId c; editorPopup := editorPopup c;
     editorContPort := editorContPort c; encryptDone := encryptDone c;
     encryptTimer := encryptTimer c; signKey := signKey c;
     pgpMIME := b; reasonOption := reasonOption c;
     keyFprBuffer := keyFprBuffer c |}.

Definition setKeyFprBuffer (fprs : list string) (c : Controller) : Controller :=
  {| keyringId := keyringId c; editorPopup := editorPopup c;
     editorContPort := editorContPort c; encryptDone := encryptDone c;
     encryptTimer := encryptTimer c; signKey := signKey c;
     pgpMIME := pgpMIME c; reasonOption := reasonOption c;
     keyFprBuffer := Some fprs |}.

Definition setReason (reason : string) (c : Controller) : Controller :=
  {| keyringId := keyringId c; editorPopup := editorPopup c;
     editorContPort := editorContPort c; encryptDone := encryptDone c;
     encryptTimer := encryptTimer c; signKey := signKey c;
     pgpMIME := pgpMIME c; reasonOption := Some reason;
     keyFprBuffer := keyFprBuffer c |}.

Definition setSignKey (k : option string) (c : Controller) : Controller :=
  {| keyringId := keyringId c; editorPopup := editorPopup c;
     editorContPort := editorContPort c; encryptDone := encryptDone c;
     encryptTimer := encryptTimer c; signKey := k;
     pgpMIME := pgpMIME c; reasonOption := reasonOption c;
     keyFprBuffer := keyFprBuffer c |}.

Definition setEncryptTimer (b : bool) (c : Controller) : Controller :=
  {| keyringId := keyringId c; editorPopup := editorPopup c;
     editorContPort := editorContPort c; encryptDone := encryptDone c;
     encryptTimer := b; signKey := signKey c;
     pgpMIME := pgpMIME c; reasonOption := reasonOption c;
     keyFprBuffer := keyFprBuffer c |}.

Definition setEditorPopup (b : bool) (c : Controller) : Controller :=
  {| keyringId := keyringId c; editorPopup := b;
     editorContPort := editorContPort c; encryptDone := encryptDone c;
     encryptTimer := encryptTimer c; signKey := signKey c;
     pgpMIME := pgpMIME c; reasonOption := reasonOption c;
     keyFprBuffer := keyFprBuffer c |}.

(** [keyFprs.push(primaryKeyFpr)] under [if (primaryKeyFpr)] *)
Definition pushPrimary (keyFprs : list string) (primaryKeyFpr : option string)
    : list string :=
  if truthy primaryKeyFpr then
    match primaryKeyFpr with
    | Some fpr => keyFprs ++ [fpr]
    | None => keyFprs
    end
  else keyFprs.

(** *** onEditorContainerEncrypt *)

Record ContainerEncrypt : Type := {
  ce_keyringId : option string;
  ce_recipients : list string
}.

Definition onEditorContainerEncrypt (msg : ContainerEncrypt) : M unit :=
  set (setPgpMIME true) ;;
  set (setKeyringId (ce_keyringId msg)) ;;
  let keyFprMap := keyFprsForAddress w (ce_keyringId msg) in
  if existsb (fun recipient =>
                match keyFprMap recipient with
                | None => true
                | Some _ => false
                end)
             (ce_recipients msg)
  then
    perform (Emit EditorCont "error-message"
               (ErrorData
                  {| mvelo.message :=
                       "No valid encryption key for recipient address";
                     mvelo.code := "NO_KEY_FOR_RECIPIENT" |}))
  else
    let keyFprs :=
      fold_left (fun keyFprs recipient =>
                   match keyFprMap recipient with
                   | Some fprs => keyFprs ++ fprs
                   | None => keyFprs
                   end)
                (ce_recipients msg) [] in
    let keyFprs :=
      if auto_add_primary w
      then pushPrimary keyFprs (getPrimaryKeyFpr w (ce_keyringId msg))
      else keyFprs in
    let buffer := sortAndDeDup keyFprs in
    set (setKeyFprBuffer buffer) ;;
    perform (SyncPublicKeys (ce_keyringId msg) buffer) ;;
    perform (Emit EditorPort "get-plaintext" (ActionData "encrypt" false)).

(** *** onEditorContainerCreateDraft *)

Definition onEditorContainerCreateDraft (msgKeyringId : option string)
    : M unit :=
  set (setPgpMIME true) ;;
  set (setKeyringId msgKeyringId) ;;
  set (setReason "PWD_DIALOG_REASON_CREATE_DRAFT") ;;
  let primaryKeyFpr := getPrimaryKeyFpr w msgKeyringId in
  if truthy primaryKeyFpr then
    match primaryKeyFpr with
    | Some fpr =>
        set (setKeyFprBuffer [fpr]) ;;
        perform (Emit EditorPort "get-plaintext" (ActionData "encrypt" true))
    | None => ret tt
    end
  else
    perform (Emit EditorCont "error-message"
               (ErrorData
                  {| mvelo.message := "No private key found for creating draft.";
                     mvelo.code := "NO_KEY_FOR_ENCRYPTION" |})).

(** *** onSignOnly *)

(** [await pwdControl.unlockKey(request)] with the callback
    [beforePasswordRequest]. *)
Definition callUnlockKey (request : UnlockRequest)
    (beforePasswordRequest : M unit) : M UnlockedKey :=
  perform (UnlockKey request) ;;
  let unlocking := unlockKeyDialog w request in
  when (asksPassword unlocking) beforePasswordRequest ;;
  liftResult (settles unlocking).

Definition isCancel (err : exn) : bool :=
  match exn_code err with
  | Some code => (code =? "PWD_DIALOG_CANCEL")%string
  | None => false
  end.

Definition keyText (k : option string) : string :=
  match k with
  | Some k => k
  | None => ""
  end.

Definition onSignOnly (msgSignKeyFpr : string) : M unit :=
  set (setSignKey (getPrivateKeyByFpr w msgSignKeyFpr)) ;;
  c <- get ;;
  cancelled <-
    tryCatch
      (callUnlockKey
         {| key := keyText (signKey c); reason := "PWD_DIALOG_REASON_SIGN";
            openPopup := false; noCache := false |}
         (perform (Emit Self "show-pwd-dialog" (IdData (pwdControlId w)))) ;;
       ret false)
      (fun err =>
         if isCancel err then
           perform (Emit Self "hide-pwd-dialog" NoData) ;;
           ret true
         else
           perform (Emit Self "error-message" (ErrorData (mapError w err))) ;;
           ret false) ;;
  if cancelled : bool then ret tt
  else perform (Emit Self "get-plaintext" (ActionData "sign" false)).

(** *** getPublicKeyFprs *)

Definition getPublicKeyFprs (c : Controller) (keys : list KeyObject)
    : list string :=
  let keyFprs :=
    match keyFprBuffer c with
    | Some buffer => buffer
    | None =>
        let keyFprs := map fingerprint keys in
        if auto_add_primary w
        then pushPrimary keyFprs
               (getPrimaryKeyFpr w (Some mvelo.MAIN_KEYRING_ID))
        else keyFprs
    end in
  sortAndDeDup keyFprs.

(** *** unlockKey *)

(** [this.unlockKey({key, noCache, reason, sync})] *)
Definition unlockKey (key : string) (noCache : bool) (reason : string)
    (sync : bool) : M string :=
  c <- get ;;
  unlockedKey <-
    callUnlockKey
      {| Editor.key := key; Editor.reason := reason;
         openPopup := negb (editorPopup c); Editor.noCache := noCache |}
      (c' <- get ;;
       when (editorPopup c')
            (perform (Emit EditorPort "show-pwd-dialog" (IdData (pwdControlId w))))) ;;
  when sync (perform TriggerSync) ;;
  ret (unlocked unlockedKey).

(** Modelled from the spec: [model.encryptMessage] and [model.signMessage]
    (modules/pgpModel, whose source is not included).  The specification
    has the signing key unlocked through the unlock collaborator first, a
    cancelled unlock aborting the job, and the crypto engine invoked after
    that with the message body, the recipient fingerprints and, when the
    message is signed, the unlocked signing key; [sign] takes the message
    and a key. *)
Definition model_encryptMessage (data : string)
    (unlockKey : option (string -> M string))
    (encryptionKeyFprs : list string) (signingKeyFpr : option string)
    : M string :=
  match signingKeyFpr, unlockKey with
  | Some fpr, Some unlockKey =>
      signingKey <- unlockKey fpr ;;
      perform (Crypto (Encrypt data encryptionKeyFprs (Some signingKey))) ;;
      liftResult (crypto w (Encrypt data encryptionKeyFprs (Some signingKey)))
  | _, _ =>
      perform (Crypto (Encrypt data encryptionKeyFprs None)) ;;
      liftResult (crypto w (Encrypt data encryptionKeyFprs None))
  end.

Definition model_signMessage (message : string) (signKey : option string)
    : M string :=
  perform (Crypto (Sign message signKey)) ;;
  liftResult (crypto w (Sign message signKey)).

(** *** signAndEncryptMessage, encryptMessage, signMessage *)

Definition signAndEncryptMessage (data : string) (signKeyFpr : option string)
    (keyFprs : list string) (noCache : bool) : M string :=
  set (setEncryptTimer false) ;;
  c <- get ;;
  let signKeyFpr :=
    if truthy signKeyFpr then signKeyFpr else getPrimaryKeyFpr w (keyringId c) in
  if negb (truthy signKeyFpr) then
    throw (MveloError "No primary key found" "NO_PRIMARY_KEY_FOUND")
  else
    let unlockKey := fun key : string =>
      c' <- get ;;
      let reason :=
        if truthy (reasonOption c') then keyText (reasonOption c')
        else "PWD_DIALOG_REASON_SIGN" in
      result <- unlockKey key noCache reason (negb (password_cache w)) ;;
      perform (SetTimeout 800 EditorPort "encrypt-in-progress") ;;
      set (setEncryptTimer true) ;;
      ret result in
    model_encryptMessage data (Some unlockKey) keyFprs signKeyFpr.

Definition encryptMessage (data : string) (keyFprs : list string) : M string :=
  perform (SetTimeout 800 EditorPort "encrypt-in-progress") ;;
  set (setEncryptTimer true) ;;
  model_encryptMessage data None keyFprs None.

Definition signMessage (message : string) : M string :=
  perform (SetTimeout 800 Self "encrypt-in-progress") ;;
  set (setEncryptTimer true) ;;
  c <- get ;;
  model_signMessage message (signKey c).

(** *** signAndEncrypt *)

Definition keysOf (options : Plaintext) : list KeyObject :=
  match keys options with
  | Some keys => keys
  | None => []
  end.

Definition signAndEncrypt (options : Plaintext) : M (option string) :=
  if (action_ options =? "encrypt")%string then
    c <- get ;;
    data <-
      tryCatch (liftResult (buildMail w options (pgpMIME c)))
               (fun error =>
                  c' <- get ;;
                  when (editorContPort c')
                       (perform (Emit EditorCont "error-message"
                                   (ErrorData (mapError w error)))) ;;
                  ret None) ;;
    match data with
    | None => throw (Error "MIME building failed.")
    | Some data =>
        c' <- get ;;
        let keyFprs := getPublicKeyFprs c' (keysOf options) in
        if signMsg options then
          armored <- signAndEncryptMessage data (signKeyFpr options) keyFprs
                       (noCache_ options) ;;
          ret (Some armored)
        else
          armored <- encryptMessage data keyFprs ;;
          ret (Some armored)
    end
  else if (action_ options =? "sign")%string then
    armored <- signMessage (message options) ;;
    ret (Some armored)
  else ret None.

(** *** transferEncrypted *)

Definition transferEncrypted (armored : option string) (keys : list KeyObject)
    : M unit :=
  c <- get ;;
  if editorContPort c then
    perform (Emit EditorCont "encrypted-message" (MessageData armored))
  else if encryptDone c then
    perform (Resolve armored (map (fun k => (name k, email k)) keys))
  else throw (TypeError "Cannot read property 'resolve' of null").

(** *** onEditorPlaintext

    The result tells whether the handler left through the [return] of the
    cancellation branch. *)
Definition onEditorPlaintext (options : Plaintext) : M unit :=
  cancelled <-
    tryCatch
      (armored <- signAndEncrypt options ;;
       perform (Emit EditorPort "encrypt-end" NoData) ;;
       c <- get ;;
       when (editorPopup c)
            (perform PopupClose ;; set (setEditorPopup false)) ;;
       transferEncrypted armored (keysOf options) ;;
       ret false)
      (fun err =>
         c <- get ;;
         if editorPopup c && isCancel err then
           perform (Emit Self "hide-pwd-dialog" NoData) ;;
           ret true
         else
           perform (ConsoleLog err) ;;
           let error := mapError w err in
           perform (Emit EditorPort "error-message" (ErrorData error)) ;;
           (if editorContPort c then
              perform (Emit EditorCont "error-message" (ErrorData error))
            else if encryptDone c then perform (Reject error)
            else throw (TypeError "Cannot read property 'reject' of null")) ;;
           perform (Emit EditorPort "encrypt-failed" NoData) ;;
           ret false) ;;
  if cancelled : bool then ret tt
  else perform ClearTimeout.

(** *** onEditorCancel

    The promise of [encrypt] is rejected with an [mvelo.Error], given here
    by its message and its code. *)
Definition onEditorCancel : M unit :=
  c <- get ;;
  when (editorPopup c)
       (perform PopupClose ;;
        set (setEditorPopup false) ;;
        if encryptDone c then
          perform (Reject {| mvelo.message := "Editor dialog canceled.";
                             mvelo.code := "EDITOR_DIALOG_CANCEL" |})
        else throw (TypeError "Cannot read property 'reject' of null")).

(** *** encryptText

    The executor of the promise runs at once: it stores the functions that
    settle the promise and asks the editor for the plaintext. *)
Definition setEncryptDone (b : bool) (c : Controller) : Controller :=
  {| keyringId := keyringId c; editorPopup := editorPopup c;
     editorContPort := editorContPort c; encryptDone := b;
     encryptTimer := encryptTimer c; signKey := signKey c;
     pgpMIME := pgpMIME c; reasonOption := reasonOption c;
     keyFprBuffer := keyFprBuffer c |}.

Definition encryptText : M unit :=
  set (setEncryptDone true) ;;
  perform (Emit EditorPort "get-plaintext" (ActionData "encrypt" false)).

End Handlers.

(** *** Notions the properties of the controller are stated with *)

(** The request [onSignOnly] passes to the password dialog. *)
Definition signOnlyRequest (w : World) (signKeyFpr : string) : UnlockRequest :=
  {| key := keyText (getPrivateKeyByFpr w signKeyFpr);
     reason := "PWD_DIALOG_REASON_SIGN";
     openPopup := false;
     noCache := false |}.

(** What [onSignOnly] does before the unlock settles: the call of the
    password dialog and, when the dialog asks for the password, the message
    that shows it. *)
Definition signOnlyAsked (w : World) (signKeyFpr : string) : list action :=
  UnlockKey (signOnlyRequest w signKeyFpr)
    :: (if asksPassword (unlockKeyDialog w (signOnlyRequest w signKeyFpr))
        then [Emit Self "show-pwd-dialog" (IdData (pwdControlId w))]
        else []).

(** The message that asks the editor for the text to sign. *)
Definition signRequest : action :=
  Emit Self "get-plaintext" (ActionData "sign" false).

(** The fingerprint of the key a job signs with: the one the editor sent,
    else the primary key of the keyring. *)
Definition signingKeyFpr (w : World) (c : Controller) (options : Plaintext)
    : option string :=
  if truthy (signKeyFpr options) then signKeyFpr options
  else getPrimaryKeyFpr w (keyringId c).

(** The request a job that signs and encrypts passes to the password
    dialog. *)
Definition signRequestFor (w : World) (c : Controller) (options : Plaintext)
    (fpr : string) : UnlockRequest :=
  {| key := fpr;
     reason := if truthy (reasonOption c) then keyText (reasonOption c)
               else "PWD_DIALOG_REASON_SIGN";
     openPopup := negb (editorPopup c);
     noCache := noCache_ options |}.

(** What such a job does before the unlock settles. *)
Definition signAsked (w : World) (c : Controller) (options : Plaintext)
    (fpr : string) : list action :=
  UnlockKey (signRequestFor w c options fpr)
    :: (if asksPassword (unlockKeyDialog w (signRequestFor w c options fpr))
           && editorPopup c
        then [Emit EditorPort "show-pwd-dialog" (IdData (pwdControlId w))]
        else []).

(** An action that invokes the crypto engine. *)
Definition isCrypto (a : action) : bool :=
  match a with
  | Crypto _ => true
  | _ => false
  end.

(** An action that reports an error: an error message to a port, or the
    rejection of the promise the caller holds. *)
Definition isErrorReport (a : action) : bool :=
  match a with
  | Emit _ event _ => (event =? "error-message")%string
  | Reject _ => true
  | _ => false
  end.

(** A handler that leaves the field [keyFprBuffer] as it finds it. *)
Definition keepsBuffer {A} (handler : M A) : Prop :=
  forall m : Machine,
    keyFprBuffer (this (snd (handler m))) = keyFprBuffer (this m).

(** The messages the controller handles here. *)
Inductive request : Type :=
| ContainerEncryptRequest (msg : ContainerEncrypt)
| ContainerCreateDraftRequest (keyringId : option string)
| SignOnlyRequest (signKeyFpr : string)
| PlaintextRequest (options : Plaintext).

Definition handler (w : World) (r : request) : M unit :=
  match r with
  | ContainerEncryptRequest msg => onEditorContainerEncrypt w msg
  | ContainerCreateDraftRequest keyringId =>
      onEditorContainerCreateDraft w keyringId
  | SignOnlyRequest signKeyFpr => onSignOnly w signKeyFpr
  | PlaintextRequest options => onEditorPlaintext w options
  end.

(** The controller after a handler, and after a sequence of messages
    handled one after the other. *)
Definition handle (w : World) (c : Controller) (r : request) : Controller :=
  this (snd (handler w r {| this := c; emitted := [] |})).

Definition handleAll (w : World) (c : Controller) (requests : list request)
    : Controller :=
  fold_left (handle w) requests c.

(** A message of the editor container. *)
Definition isContainerRequest (r : request) : bool :=
  match r with
  | ContainerEncryptRequest _ | ContainerCreateDraftRequest _ => true
  | _ => false
  end.

(** A buffer that, when set, holds the fingerprint [primary]. *)
Definition bufferHolds (primary : string) (c : Controller) : Prop :=
  match keyFprBuffer c with
  | Some buffer => In primary buffer
  | None => True
  end.

(** An action that settles the promise the caller of [encrypt] or
    [encryptText] holds. *)
Definition isSettle (a : action) : bool :=
  match a with
  | Resolve _ _ | Reject _ => true
  | _ => false
  end.

(** The actions of a job before its result is handed over: requests to the
    password dialog and the message that shows it, the synchronisation, the
    timer of the progress indicator, calls of the crypto engine, and the
    report of a MIME error to the container. *)
Definition isJobAction (a : action) : bool :=
  match a with
  | UnlockKey _ | TriggerSync | SetTimeout _ _ _ | Crypto _ => true
  | Emit EditorPort event _ => (event =? "show-pwd-dialog")%string
  | Emit EditorCont event _ => (event =? "error-message")%string
  | _ => false
  end.

(** A handler that performs only actions that pass [allowed] and changes no
    field of the controller but the timer handle. *)
Definition confined (allowed : action -> bool) {A} (handler : M A) : Prop :=
  forall m : Machine,
    exists (timer : bool) (performed : list action),
      snd (handler m)
      = {| this := setEncryptTimer timer (this m);
           emitted := emitted m ++ performed |}
      /\ forallb allowed performed = true.

(** The message that hands the result over to the container. *)
Definition isHandover (a : action) : bool :=
  match a with
  | Resolve _ _ => true
  | Emit EditorCont event _ => (event =? "encrypted-message")%string
  | _ => false
  end.

(** What the [catch] of [onEditorPlaintext] does with an error that is not
    a cancellation in the popup, on the controller [c] and after the
    actions [performed]: the outcome of the handler. *)
Definition reportError (w : World) (c : Controller) (performed : list action)
    (err : exn) : result exn unit * Controller * list action :=
  let error := mapError w err in
  let reported :=
    performed ++ [ConsoleLog err;
                  Emit EditorPort "error-message" (ErrorData error)] in
  if editorContPort c then
    (Ok tt, c,
     reported ++ [Emit EditorCont "error-message" (ErrorData error);
                  Emit EditorPort "encrypt-failed" NoData;
                  ClearTimeout])
  else if encryptDone c then
    (Ok tt, c,
     reported ++ [Reject error;
                  Emit EditorPort "encrypt-failed" NoData;
                  ClearTimeout])
  else
    (Throw (TypeError "Cannot read property 'reject' of null"), c, reported).

(** What [onEditorPlaintext] does with the armored text [armored] that
    [signAndEncrypt] gave on the controller [c] after the actions
    [performed]. *)
Definition handOver (w : World) (options : Plaintext) (c : Controller)
    (performed : list action) (armored : option string)
    : result exn unit * Controller * list action :=
  let c' := if editorPopup c then setEditorPopup false c else c in
  let ended :=
    performed ++ Emit EditorPort "encrypt-end" NoData
      :: (if editorPopup c then [PopupClose] else []) in
  if editorContPort c then
    (Ok tt, c',
     ended ++ [Emit EditorCont "encrypted-message" (MessageData armored);
               ClearTimeout])
  else if encryptDone c then
    (Ok tt, c',
     ended ++ [Resolve armored
                 (map (fun k => (name k, email k)) (keysOf options));
               ClearTimeout])
  else
    reportError w c' ended (TypeError "Cannot read property 'resolve' of null").

(** A handler run on a controller: how it ends, the controller after it and
    the actions it performed. *)
Definition run {A} (handler : M A) (c : Controller)
    : result exn A * Controller * list action :=
  let '(r, m) := handler {| this := c; emitted := [] |} in
  (r, this m, emitted m).

(** The controller as the constructor leaves it, for a port [port] that is
    the one of an editor container or not. *)
Definition new (container : bool) : Controller :=
  {| keyringId := None; editorPopup := false; editorContPort := container;
     encryptDone := false; encryptTimer := false; signKey := None;
     pgpMIME := false; reasonOption := None; keyFprBuffer := None |}.

End EditorController.

(** ** What the editor is filled with: onEditorOptions, scheduleDecrypt
       and decryptArmored

    [onEditorOptions] sends the initial data to the editor and, for a
    draft or a quoted mail, schedules its decryption; [decryptArmored]
    decrypts, unlocking the key through the callback it passes to the
    decryption, and passes two handlers to the MIME parser: [onMessage]
    for the text of the decrypted message and [onAttachment] for a file.
    A text is the sequence of its UTF-16 code units, so that all four line
    terminators of JavaScript are characters of it: the line feed, the
    carriage return, U+2028 and U+2029. *)

Module EditorContent.

(** A text of a message, by its code units. *)
Definition text : Type := list N.

(** The text with the characters of a string of 8-bit characters. *)
Definition ofString (s : string) : text :=
  map (fun c => N.of_nat (nat_of_ascii c)) (list_ascii_of_string s).

(** A text that is set and not empty. *)
Definition truthyText (option : option text) : bool :=
  match option with
  | Some (_ :: _) => true
  | _ => false
  end.

(** The options of the editor ([msg.options], [this.options]). *)
Record Options : Type := {
  signMsg : bool;
  privKeys : bool;
  armoredDraft : option string;
  quotedMail : option string;
  quotedMailIndent : bool;
  quotedMailHeader : option text;
  predefinedText : option text;
  keepAttachments : bool;
  selfSigned : bool
}.

(** [this.options.keepAttachments = true] *)
Definition setKeepAttachments (options : Options) : Options :=
  {| signMsg := signMsg options; privKeys := privKeys options;
     armoredDraft := armoredDraft options; quotedMail := quotedMail options;
     quotedMailIndent := quotedMailIndent options;
     quotedMailHeader := quotedMailHeader options;
     predefinedText := predefinedText options;
     keepAttachments := true;
     selfSigned := selfSigned options |}.

(** [this.options.selfSigned = Boolean(this.options.armoredDraft)] *)
Definition setSelfSigned (options : Options) : Options :=
  {| signMsg := signMsg options; privKeys := privKeys options;
     armoredDraft := armoredDraft options; quotedMail := quotedMail options;
     quotedMailIndent := quotedMailIndent options;
     quotedMailHeader := quotedMailHeader options;
     predefinedText := predefinedText options;
     keepAttachments := keepAttachments options;
     selfSigned := truthy (armoredDraft options) |}.

(** The object sent with [set-init-data]; a property that is not set is
    [None]. *)
Record InitData : Type := {
  data_signMsg : bool;
  data_primary : option string;
  data_privKeys : option (list string);
  data_text : option text
}.

(** What the decryption gives: the data and the signatures, an array or
    nothing; [valid] of a signature is [true], [false] or [null]. *)
Record Signature : Type := { valid : option bool }.

Record Decrypted : Type := {
  data : string;
  signatures : option (list Signature)
}.

(** The argument of a call of the callback [unlockKey]; [reason] and [sync]
    may be left undefined. *)
Record UnlockOptions : Type := {
  key : string;
  noCache : bool;
  reason : option string;
  sync : option bool
}.

(** What [model.decryptMessage] does with the callback [unlockKey] it is
    called with: it settles, or it calls [unlockKey] and goes on with what
    the call gave, the key or the error thrown. *)
Inductive decryption : Type :=
| Settles (outcome : result exn Decrypted)
| CallsUnlockKey (options : UnlockOptions)
    (continue : result exn string -> decryption).

(** What the MIME parser calls a handler with. *)
Inductive part : Type :=
| TextPart (msg : text)
| AttachmentPart (file : string).

(** A thrown value: an exception, or the object with a message that
    [decryptArmored] throws itself. *)
Inductive thrown : Type :=
| Exception (e : exn)
| Object (message : string).

(** What the three functions do to the outside, in order; [Unlocking] is
    an action of the method [unlockKey] of the controller. *)
Inductive action : Type :=
| DecryptInProgress
| SetTimeout (armored : string) (ms : Z)
| TriggerSync (keyringId : option string)
| SetInitData (initData : InitData)
| Unlocking (a : Editor.action)
| SetText (text : text)
| SetAttachment (attachment : string)
| DecryptEnd
| DecryptFailed (error : mvelo.ErrorObject).

(** The keyring and the modules called: [getPrimaryKeyFpr] and
    [getValidSigningKeys] of the keyring with an id,
    [model.decryptMessage] (its arguments are the armored text, the
    keyring id and the options; the callback is the one of
    [decryptArmored]), [parseMessage] (the calls of the handlers it makes
    and how it ends) and [mvelo.util.mapError]. *)
Record World : Type := {
  getPrimaryKeyFpr : option string -> option string;
  getValidSigningKeys : option string -> list string;
  decryptMessage : string -> option string -> Options -> decryption;
  parseMessage : string -> list part * result exn unit;
  mapError : thrown -> mvelo.ErrorObject
}.

(** The line terminators of JavaScript. *)
Definition isLineTerminator (c : N) : bool :=
  ((c =? 0x0A) || (c =? 0x0D) || (c =? 0x2028) || (c =? 0x2029))%N.

Definition LF : text := [0x0A%N].

(** The mark of a quoted line, a greater-than sign and a space. *)
Definition mark : text := [0x3E%N; 0x20%N].

(** *** scheduleDecrypt

    The timer runs [decryptArmored] on the armored text. *)
Definition scheduleDecrypt (editorPopup : bool) (armored : string)
    : list action :=
  (if (400000 <? Z.of_nat (String.length armored)) && negb editorPopup
   then [DecryptInProgress] else [])
    ++ [SetTimeout armored 50].

(** The string of an option that is set. *)
Definition textOf (option : option string) : string :=
  match option with
  | Some text => text
  | None => ""
  end.

(** *** onEditorOptions

    The options the controller keeps, and what it does. *)
Definition onEditorOptions (w : World) (editorPopup : bool)
    (keyringId : option string) (options : Options) : Options * list action :=
  let initData text :=
    {| data_signMsg := signMsg options;
       data_primary := getPrimaryKeyFpr w keyringId;
       data_privKeys :=
         if privKeys options then Some (getValidSigningKeys w keyringId)
         else None;
       data_text := text |} in
  if truthy (armoredDraft options) then
    (setKeepAttachments options,
     scheduleDecrypt editorPopup (textOf (armoredDraft options))
       ++ [TriggerSync keyringId; SetInitData (initData None)])
  else if truthy (quotedMail options) then
    (options,
     scheduleDecrypt editorPopup (textOf (quotedMail options))
       ++ [TriggerSync keyringId; SetInitData (initData None)])
  else if truthyText (predefinedText options) then
    (options,
     [TriggerSync keyringId; SetInitData (initData (predefinedText options))])
  else
    (options, [TriggerSync keyringId; SetInitData (initData None)]).

(** *** The handlers of decryptArmored *)

(** [msg.replace(re, '> $&')] for the expression [re] that matches, at the
    start of a line, one character that is a line feed or no line
    terminator (flags g and m).  A line starts at the first character and
    after every line terminator. *)
Fixpoint replaceLineStarts (atLineStart : bool) (msg : text) : text :=
  match msg with
  | [] => []
  | c :: rest =>
      let rest' := c :: replaceLineStarts (isLineTerminator c) rest in
      if atLineStart && (negb (isLineTerminator c) || (c =? 0x0A)%N)
      then mark ++ rest'
      else rest'
  end.

(** [handlers.onMessage(msg)]: the text of the message [set-text] sent to
    the editor. *)
Definition onMessage (options : Options) (msg : text) : text :=
  let msg :=
    if quotedMailIndent options then replaceLineStarts true msg else msg in
  let msg :=
    match quotedMailHeader options with
    | Some header =>
        if truthyText (Some header) then mark ++ header ++ LF ++ msg
        else msg
    | None => msg
    end in
  let msg :=
    if quotedMailIndent options || truthyText (quotedMailHeader options)
    then LF ++ LF ++ msg
    else msg in
  match predefinedText options with
  | Some text =>
      if truthyText (Some text) then msg ++ LF ++ LF ++ text else msg
  | None => msg
  end.

(** [handlers.onAttachment(part)]: the attachments sent to the editor with
    the message [set-attachment]. *)
Definition onAttachment (options : Options) (file : string) : list string :=
  if keepAttachments options then [file] else [].

(** A call of a handler by the parser. *)
Definition callHandler (options : Options) (p : part) : list action :=
  match p with
  | TextPart msg => [SetText (onMessage options msg)]
  | AttachmentPart file => map SetAttachment (onAttachment options file)
  end.

(** *** decryptArmored *)

(** The callback [unlockKey] that [decryptArmored] passes to the
    decryption: the method [unlockKey] of the controller, with the
    defaults of its parameters, and the message that hides the password
    dialog of an editor popup once the key is unlocked. *)
Definition unlockKey (w : Editor.World) (options : UnlockOptions)
    : Editor.M string :=
  result <-
    EditorController.unlockKey w (key options) (noCache options)
      (match reason options with
       | Some reason => reason
       | None => "PWD_DIALOG_REASON_DECRYPT"
       end)
      (match sync options with
       | Some sync => sync
       | None => true
       end) ;;
  c <- Editor.get ;;
  Editor.when (Editor.editorPopup c)
    (Editor.perform (Editor.Emit Editor.EditorPort "hide-pwd-dialog"
                       Editor.NoData)) ;;
  Editor.ret result.

(** [await model.decryptMessage({armored, keyringId, unlockKey, options})]:
    every call of the callback is run on the controller. *)
Fixpoint awaitDecryption (w : Editor.World) (d : decryption)
    : Editor.M Decrypted :=
  match d with
  | Settles outcome => Editor.liftResult outcome
  | CallsUnlockKey options continue =>
      fun m =>
        let '(result, m) := unlockKey w options m in
        awaitDecryption w (continue result) m
  end.

Definition invalidSignature : thrown :=
  Object "Restoring of the draft failed due to invalid signature.".

(** The check of the signature of a draft; reading [valid] of the first
    element of an empty array throws. *)
Definition checkDraft (options : Options)
    (signatures : option (list Signature)) : result thrown unit :=
  if truthy (armoredDraft options) then
    match signatures with
    | None => Throw invalidSignature
    | Some [] =>
        Throw (Exception
                 (TypeError "Cannot read property 'valid' of undefined"))
    | Some (first :: _) =>
        match valid first with
        | Some true => Ok tt
        | _ => Throw invalidSignature
        end
    end
  else Ok tt.

(** What the decryption of [armored] gives on the controller [c], and the
    actions of the calls of the callback. *)
Definition decrypt (u : Editor.World) (w : World) (c : Editor.Controller)
    (options : Options) (armored : string)
    : result exn Decrypted * list Editor.action :=
  let '(outcome, _, unlocking) :=
    EditorController.run
      (awaitDecryption u
         (decryptMessage w armored (Editor.keyringId c)
            (setSelfSigned options)))
      c in
  (outcome, unlocking).

(** [decryptArmored(armored)] on the controller [c] with the options
    [options]: what it does, in order. *)
Definition decryptArmored (u : Editor.World) (w : World)
    (c : Editor.Controller) (options : Options) (armored : string)
    : list action :=
  let '(outcome, unlocking) := decrypt u w c options armored in
  let options := setSelfSigned options in
  map Unlocking unlocking
    ++ match outcome with
       | Throw e => [DecryptFailed (mapError w (Exception e))]
       | Ok decrypted =>
           match checkDraft options (signatures decrypted) with
           | Throw t => [DecryptFailed (mapError w t)]
           | Ok _ =>
               let '(parts, outcome) := parseMessage w (data decrypted) in
               flat_map (callHandler options) parts
                 ++ match outcome with
                    | Ok _ => [DecryptEnd]
                    | Throw e => [DecryptFailed (mapError w (Exception e))]
                    end
           end
       end.

(** *** Notions the properties are stated with *)

(** A text without a line terminator. *)
Definition singleLine (line : text) : bool :=
  forallb (fun c => negb (isLineTerminator c)) line.

(** A line and the line terminator it ends with. *)
Definition isLine (line : text * N) : bool :=
  singleLine (fst line) && isLineTerminator (snd line).

(** The text made of [lines], each with its line terminator, followed by
    [last], the text after the last line terminator. *)
Fixpoint joinLines (lines : list (text * N)) (last : text) : text :=
  match lines with
  | [] => last
  | (line, terminator) :: rest => line ++ terminator :: joinLines rest last
  end.

(** The same text with the mark of a quotation before every line: an
    empty line has it only when it ends with a line feed, and an empty
    text after the last line terminator is no line. *)
Fixpoint quoteLines (lines : list (text * N)) (last : text) : text :=
  match lines with
  | [] =>
      match last with
      | [] => []
      | _ :: _ => mark ++ last
      end
  | (line, terminator) :: rest =>
      match line with
      | [] => if (terminator =? 0x0A)%N then mark else []
      | _ :: _ => mark
      end ++ line ++ terminator :: quoteLines rest last
  end.

(** An action of the unlocking of a key: the request to the password
    dialog, the messages that show and hide the dialog in the editor, and
    the synchronisation. *)
Definition isUnlockAction (a : Editor.action) : bool :=
  match a with
  | Editor.UnlockKey _ | Editor.TriggerSync => true
  | Editor.Emit Editor.EditorPort event _ =>
      (event =? "show-pwd-dialog")%string || (event =? "hide-pwd-dialog")%string
  | _ => false
  end.

(** A message that shows content of the decrypted mail in the editor. *)
Definition showsContent (a : action) : bool :=
  match a with
  | SetText _ | SetAttachment _ => true
  | _ => false
  end.

(** A message that ends the decryption for the editor. *)
Definition isFinal (a : action) : bool :=
  match a with
  | DecryptEnd | DecryptFailed _ => true
  | _ => false
  end.

(** The armored texts whose decryption is scheduled. *)
Fixpoint scheduled (actions : list action) : list string :=
  match actions with
  | [] => []
  | SetTimeout armored _ :: rest => armored :: scheduled rest
  | _ :: rest => scheduled rest
  end.

(** The files the parser calls the attachment handler with. *)
Fixpoint files (parts : list part) : list string :=
  match parts with
  | [] => []
  | AttachmentPart file :: rest => file :: files rest
  | TextPart _ :: rest => files rest
  end.

(** The attachments sent to the editor. *)
Fixpoint attachments (actions : list action) : list string :=
  match actions with
  | [] => []
  | SetAttachment file :: rest => file :: attachments rest
  | _ :: rest => attachments rest
  end.

End EditorContent.

(** ** The keyring query getKeyData (KeyringBase) *)

Module KeyringBase.

(** An entry of the result. *)
Record KeyData : Type := {
  key : openpgp.Key;
  keyId : string;
  fingerprint : string;
  users : list mvelo.MappedUser
}.

Section Keyring.

Context {rt : Runtime} {pgp : OpenPGP} {km : KeyModule}.

(** The loop over [key.users] of the branch [options.allUsers]: the value
    of [keyData.users] after it. *)
Fixpoint collectUsers (primaryKey : openpgp.PublicKey)
    (keyUsers : list openpgp.User) (users : list mvelo.MappedUser)
    : list mvelo.MappedUser :=
  match keyUsers with
  | [] => users
  | keyUser :: rest =>
      match openpgp.userId keyUser with
      | Some uid =>
          if openpgp.keyStatus_eqb (verifyUser keyUser primaryKey) openpgp.valid
          then
            if existsb (fun existingUser =>
                          (mvelo.userId existingUser =? openpgp.userid uid)%string)
                       users
            then collectUsers primaryKey rest users
            else
              let user := mapKeyUserIds (openpgp.userid uid) in
              if (mvelo.email user =? "")%string
              then collectUsers primaryKey rest users
              else collectUsers primaryKey rest (users ++ [user])
          else collectUsers primaryKey rest users
      | None => collectUsers primaryKey rest users
      end
  end.

(** The test that makes the loop over the keys skip a key. *)
Definition skipped (id : string) (key : openpgp.Key) : bool :=
  openpgp.keyStatus_eqb (verifyPrimaryKey key) openpgp.invalid
  || isKeyPseudoRevoked id key.

(** The entry pushed for a key that is not skipped. *)
Definition keyDataOf (allUsers : bool) (key : openpgp.Key) : KeyData :=
  {| KeyringBase.key := key;
     keyId := toUpperCase (openpgp.keyid (openpgp.primaryKey key));
     fingerprint := openpgp.fingerprint (openpgp.primaryKey key);
     users :=
       if allUsers
       then collectUsers (openpgp.primaryKey key) (openpgp.users key) []
       else [mapKeyUserIds (getUserId key)] |}.

(** [getKeyData(options)] of the keyring [id] whose key store holds the keys
    [allKeys] ([this.keystore.getAllKeys()]); [allUsers] is
    [options.allUsers]. *)
Fixpoint getKeyData (id : string) (allKeys : list openpgp.Key)
    (allUsers : bool) : list KeyData :=
  match allKeys with
  | [] => []
  | key :: rest =>
      if skipped id key then getKeyData id rest allUsers
      else keyDataOf allUsers key :: getKeyData id rest allUsers
  end.

(** [mapKeyUserIds] leaves the user id string of a user for which it finds
    an email address as it is. *)
Definition keepsUserId : Prop :=
  forall userid : string,
    mvelo.email (mapKeyUserIds userid) <> "" ->
    mvelo.userId (mapKeyUserIds userid) = userid.

(** A user id packet of a key whose self certification verifies. *)
Definition verified (key : openpgp.Key) (keyUser : openpgp.User)
    (uid : openpgp.UserId) : Prop :=
  In keyUser (openpgp.users key) /\
  openpgp.userId keyUser = Some uid /\
  verifyUser keyUser (openpgp.primaryKey key) = openpgp.valid.

End Keyring.

(** *** The queries by key id, by fingerprint and by address

    The key store ([this.keystore]) is the keyring of OpenPGP.js; of its
    methods, [getKeysForId] gives an array of keys or [null],
    [privateKeys.getForId] a key or [null], and [getForAddress] an array
    of keys. *)

Record KeyStore : Type := {
  privateKeys_keys : list openpgp.Key;
  privateKeys_getForId : string -> bool -> option openpgp.Key;
  getKeysForId : string -> bool -> option (list openpgp.Key);
  publicKeys_getForAddress : string -> list openpgp.Key;
  privateKeys_getForAddress : string -> list openpgp.Key
}.

(** A key id: a hexadecimal string, or a [Keyid] object, given by the
    string its [toHex()] returns. *)
Inductive keyIdValue : Type :=
| HexString (hex : string)
| KeyidObject (toHex : string).

(** The argument of [getPrivateKeyByIds]: one key id or an array of them. *)
Inductive keyIdsArgument : Type :=
| OneKeyId (id : keyIdValue)
| KeyIdArray (ids : list keyIdValue).

(** The options of [getKeyByAddress], with the defaults filled in. *)
Record AddressOptions : Type := {
  pub : bool;
  priv : bool;
  sort : bool;
  valid : bool
}.

(** An object used as a map: its properties with their values.
    [assign] is [object[name] = value] and [property] is [object[name]],
    [None] for [undefined]. *)
Fixpoint assign {V : Type} (object : list (string * V)) (name : string)
    (value : V) : list (string * V) :=
  match object with
  | [] => [(name, value)]
  | (n, v) :: rest =>
      if (n =? name)%string then (n, value) :: rest
      else (n, v) :: assign rest name value
  end.

Fixpoint property {V : Type} (object : list (string * V)) (name : string)
    : option V :=
  match object with
  | [] => None
  | (n, v) :: rest =>
      if (n =? name)%string then Some v else property rest name
  end.

Section Store.

(** The functions of other modules: [mvelo.util.toArray] (lib/lib-mvelo),
    [isValidEncryptionKey] and [sortKeysByCreationDate] (modules/key; the
    latter sorts its argument in place, the array after the call is
    given), and [getDefaultKeyFpr] of the keyring. *)
Variable toArray : keyIdsArgument -> list keyIdValue.
Variable isValidEncryptionKey : openpgp.Key -> string -> bool.
Variable sortKeysByCreationDate :
  list openpgp.Key -> option string -> list openpgp.Key.
Variable getDefaultKeyFpr : option string.

Variable id : string.
Variable keystore : KeyStore.

(** [typeof keyId === 'string' ? keyId : keyId.toHex()] *)
Definition keyIdHex (keyId : keyIdValue) : string :=
  match keyId with
  | HexString hex => hex
  | KeyidObject toHex => toHex
  end.

(** [hasPrivateKey(keyIds)] *)
Definition hasPrivateKey (keyIds : option (list keyIdValue)) : bool :=
  match keyIds with
  | None => negb (List.length (privateKeys_keys keystore) =? 0)%nat
  | Some keyIds =>
      existsb (fun keyId =>
                 match privateKeys_getForId keystore (keyIdHex keyId) true with
                 | Some _ => true
                 | None => false
                 end)
              keyIds
  end.

(** The loop of [getPrivateKeyByIds]. *)
Fixpoint firstPrivateKey (keyIds : list keyIdValue) : option openpgp.Key :=
  match keyIds with
  | [] => None
  | keyId :: rest =>
      match privateKeys_getForId keystore (keyIdHex keyId) true with
      | Some key => Some key
      | None => firstPrivateKey rest
      end
  end.

(** [getPrivateKeyByIds(keyIds)] *)
Definition getPrivateKeyByIds (keyIds : keyIdsArgument) : option openpgp.Key :=
  firstPrivateKey (toArray keyIds).

(** [getKeysByFprs(keyFprs)]; an element of the result is [undefined]
    when the key store answers with an empty array. *)
Fixpoint getKeysByFprs (keyFprs : list string)
    : result exn (list (option openpgp.Key)) :=
  match keyFprs with
  | [] => Ok []
  | keyFpr :: rest =>
      match getKeysForId keystore keyFpr false with
      | Some keyArray =>
          let* keys := getKeysByFprs rest in
          Ok (hd_error keyArray :: keys)
      | None =>
          Throw (MveloError ("No key found for ID " ++ keyFpr)
                            "NO_KEY_FOUND_FOR_ENCRYPTION")
      end
  end.

(** The value [getKeyByAddress] leaves in [result[email]]: an array of
    keys, or [false], given as [None]. *)
Definition keysForAddress (options : AddressOptions) (email : string)
    : option (list openpgp.Key) :=
  let keys := [] in
  let keys :=
    if pub options then keys ++ publicKeys_getForAddress keystore email
    else keys in
  let keys :=
    if priv options then keys ++ privateKeys_getForAddress keystore email
    else keys in
  let keys :=
    if valid options
    then filter (fun key => isValidEncryptionKey key id) keys
    else keys in
  if (List.length keys =? 0)%nat then None
  else if sort options
       then Some (sortKeysByCreationDate keys getDefaultKeyFpr)
       else Some keys.

(** [getKeyByAddress(emailAddr, options)]; [emailArray] is the array
    [mvelo.util.toArray] makes of [emailAddr]. *)
Definition getKeyByAddress (emailArray : list string)
    (options : AddressOptions)
    : list (string * option (list openpgp.Key)) :=
  fold_left (fun result email =>
               assign result email (keysForAddress options email))
            emailArray [].

End Store.

End KeyringBase.

(** ** Instances for the examples

    A concrete platform and concrete libraries, on which the functions
    above can be run: lower-casing of the letters A to Z, SHA-1 as FIPS
    180-4 defines it (on the character codes of the string, which for the
    ASCII strings of the examples are its UTF-8 bytes), and simple stand-ins
    for the OpenPGP.js and Mailvelope functions. *)

Module Examples.

Definition lowerChar (c : ascii) : ascii :=
  let n := nat_of_ascii c in
  if ((65 <=? n) && (n <=? 90))%nat then ascii_of_nat (n + 32) else c.

Fixpoint asciiLower (s : string) : string :=
  match s with
  | EmptyString => EmptyString
  | String c s' => String (lowerChar c) (asciiLower s')
  end.

Module SHA1.

Definition w32 (x : Z) : Z := x mod 2 ^ 32.

Definition rotl (n x : Z) : Z :=
  w32 (Z.lor (Z.shiftl x n) (Z.shiftr x (32 - n))).

Definition be64 (n : Z) : list Z :=
  map (fun i => Z.shiftr n (8 * i) mod 256) [7; 6; 5; 4; 3; 2; 1; 0].

Definition padded (message : list Z) : list Z :=
  let len := Z.of_nat (List.length message) in
  message ++ 128 :: repeat 0 (Z.to_nat ((55 - len) mod 64)) ++ be64 (8 * len).

Fixpoint words (bytes : list Z) : list Z :=
  match bytes with
  | b0 :: b1 :: b2 :: b3 :: rest =>
      (b0 * 2 ^ 24 + b1 * 2 ^ 16 + b2 * 2 ^ 8 + b3) :: words rest
  | _ => []
  end.

Fixpoint blocks (n : nat) (ws : list Z) : list (list Z) :=
  match n with
  | O => []
  | S n' => firstn 16 ws :: blocks n' (skipn 16 ws)
  end.

(** The message schedule, latest word first. *)
Fixpoint extend (n : nat) (w : list Z) : list Z :=
  match n with
  | O => w
  | S n' =>
      let x := Z.lxor (Z.lxor (nth 2 w 0) (nth 7 w 0))
                      (Z.lxor (nth 13 w 0) (nth 15 w 0)) in
      extend n' (rotl 1 x :: w)
  end.

Definition f (t : nat) (b c d : Z) : Z :=
  if (t <? 20)%nat then Z.lor (Z.land b c) (Z.land (2 ^ 32 - 1 - b) d)
  else if (t <? 40)%nat then Z.lxor (Z.lxor b c) d
  else if (t <? 60)%nat then
    Z.lor (Z.lor (Z.land b c) (Z.land b d)) (Z.land c d)
  else Z.lxor (Z.lxor b c) d.

Definition k (t : nat) : Z :=
  if (t <? 20)%nat then 0x5a827999
  else if (t <? 40)%nat then 0x6ed9eba1
  else if (t <? 60)%nat then 0x8f1bbcdc
  else 0xca62c1d6.

Definition round (h : Z * Z * Z * Z * Z) (tw : nat * Z) : Z * Z * Z * Z * Z :=
  let '(a, b, c, d, e) := h in
  let '(t, w) := tw in
  (w32 (rotl 5 a + f t b c d + e + k t + w), a, rotl 30 b, c, d).

Definition compress (h : Z * Z * Z * Z * Z) (block : list Z)
    : Z * Z * Z * Z * Z :=
  let w := rev (extend 64 (rev block)) in
  let '(a, b, c, d, e) := fold_left round (combine (seq 0 80) w) h in
  let '(h0, h1, h2, h3, h4) := h in
  (w32 (h0 + a), w32 (h1 + b), w32 (h2 + c), w32 (h3 + d), w32 (h4 + e)).

Definition be32 (n : Z) : list Z :=
  map (fun i => Z.shiftr n (8 * i) mod 256) [3; 2; 1; 0].

Definition digest (message : list Z) : list Z :=
  let ws := words (padded message) in
  let '(h0, h1, h2, h3, h4) :=
    fold_left compress (blocks (List.length ws / 16) ws)
      (0x67452301, 0xefcdab89, 0x98badcfe, 0x10325476, 0xc3d2e1f0) in
  be32 h0 ++ be32 h1 ++ be32 h2 ++ be32 h3 ++ be32 h4.

Definition byteOfZ (z : Z) : byte :=
  match Byte.of_N (Z.to_N (z mod 256)) with
  | Some b => b
  | None => x00
  end.

Definition ofString (s : string) : list byte :=
  map byteOfZ
      (digest (map (fun c => Z.of_nat (nat_of_ascii c)) (list_ascii_of_string s))).

End SHA1.

Definition upperChar (c : ascii) : ascii :=
  let n := nat_of_ascii c in
  if ((97 <=? n) && (n <=? 122))%nat then ascii_of_nat (n - 32) else c.

Fixpoint asciiUpper (s : string) : string :=
  match s with
  | EmptyString => EmptyString
  | String c s' => String (upperChar c) (asciiUpper s')
  end.

Definition runtime : Runtime :=
  {| toLowerCase := asciiLower; toUpperCase := asciiUpper;
     sha1 := SHA1.ofString |}.

(** User ids of the form [Name <address>] or [address]. *)

Fixpoint afterChar (c : ascii) (s : string) : option string :=
  match s with
  | EmptyString => None
  | String d s' => if (d =? c)%char then Some s' else afterChar c s'
  end.

Fixpoint beforeChar (c : ascii) (s : string) : string :=
  match s with
  | EmptyString => EmptyString
  | String d s' =>
      if (d =? c)%char then EmptyString else String d (beforeChar c s')
  end.

Definition addressOf (userid : string) : string :=
  match afterChar "<" userid with
  | Some rest => beforeChar ">" rest
  | None => if RegExp.noAt userid then "" else userid
  end.

(** A self certification is good when its packet starts with the byte 01. *)
Definition goodCertification (packet : list byte) : bool :=
  match packet with
  | x01 :: _ => true
  | _ => false
  end.

Definition certified (user : openpgp.User) : bool :=
  match openpgp.userId user with
  | Some _ => existsb goodCertification (openpgp.selfCertifications user)
  | None => false
  end.

Definition selfCertified (user : openpgp.User) : bool :=
  match openpgp.userId user, openpgp.selfCertifications user with
  | Some _, _ :: _ => true
  | _, _ => false
  end.

Definition verifyKey (key : openpgp.Key) : openpgp.keyStatus :=
  match openpgp.revocationSignatures key with
  | _ :: _ => openpgp.revoked
  | [] =>
      if negb (existsb selfCertified (openpgp.users key)) then openpgp.no_self_cert
      else if negb (existsb certified (openpgp.users key)) then openpgp.invalid
      else openpgp.valid
  end.

Definition useridOf (user : openpgp.User) : string :=
  match openpgp.userId user with
  | Some uid => openpgp.userid uid
  | None => "(user attribute)"
  end.

Definition armorKey (key : openpgp.Key) : string :=
  ("-----BEGIN PGP PUBLIC KEY BLOCK----- "
     ++ openpgp.fingerprint (openpgp.primaryKey key) ++ " "
     ++ String.concat ", " (map useridOf (openpgp.users key))
     ++ " -----END PGP PUBLIC KEY BLOCK-----")%string.

Definition user (userid : string) (certifications : list (list byte))
    : openpgp.User :=
  {| openpgp.userId := Some {| openpgp.userid := userid |};
     openpgp.selfCertifications := certifications |}.

Definition key (fpr : string) (created : Z) (users : list openpgp.User)
    : openpgp.Key :=
  {| openpgp.primaryKey :=
       {| openpgp.fingerprint := fpr;
          openpgp.keyid := substring 24 16 fpr;
          openpgp.created := created |};
     openpgp.revocationSignatures := [];
     openpgp.users := users;
     openpgp.subKeys := [] |}.

(** Alice's first key: an identity of hers and one for another address;
    its self certification does not verify. *)
Definition aliceOld : openpgp.Key :=
  key "AAAAAAAAAAAAAAAAAAAAAAAAAAAAAAAAAAAAAAA1" 1000
      [user "Alice <alice@example.org>" [[x00]];
       user "Mallory <mallory@evil.example>" [[x00]]].

(** Alice's later key. *)
Definition aliceNew : openpgp.Key :=
  key "AAAAAAAAAAAAAAAAAAAAAAAAAAAAAAAAAAAAAAA2" 2000
      [user "Alice <Alice@Example.ORG>" [[x01]]].

(** A key without identity for Alice's address. *)
Definition mallory : openpgp.Key :=
  key "BBBBBBBBBBBBBBBBBBBBBBBBBBBBBBBBBBBBBBB1" 3000
      [user "Mallory <mallory@evil.example>" [[x01]]].

(** A key whose only identity has no address. *)
Definition nameOnly : openpgp.Key :=
  key "CCCCCCCCCCCCCCCCCCCCCCCCCCCCCCCCCCCCCCC1" 4000
      [user "Carol" [[x01]]].

(** The directory's answers: the byte sequence [01] holds the three keys
    [aliceOld], [mallory] and [aliceNew]; [02] holds [mallory] only;
    anything else does not parse. *)
Definition readKeys (data : list byte) : openpgp.ReadResult :=
  match data with
  | [x01] => {| openpgp.keys := [aliceOld; mallory; aliceNew]; openpgp.err := None |}
  | [x02] => {| openpgp.keys := [mallory]; openpgp.err := None |}
  | _ => {| openpgp.keys := []; openpgp.err := Some "Error: not a key" |}
  end.

Definition openpgpjs : OpenPGP :=
  {| key_read := readKeys;
     armor := armorKey;
     verifyPrimaryKey := verifyKey;
     verifyUser := fun user _ =>
       if certified user then openpgp.valid else openpgp.invalid |}.

Definition keyModule : KeyModule :=
  {| mapKeyUserIds := fun userid =>
       {| mvelo.userId := userid;
          mvelo.email := addressOf userid;
          mvelo.name := beforeChar "<" userid |};
     getUserId := fun key =>
       match filter certified (openpgp.users key) with
       | user :: _ => useridOf user
       | [] => "Invalid user ID"
       end;
     isKeyPseudoRevoked := fun keyringId key =>
       (keyringId =? "test.example|#|keyring")%string
       && (openpgp.fingerprint (openpgp.primaryKey key)
           =? "BBBBBBBBBBBBBBBBBBBBBBBBBBBBBBBBBBBBBBB1")%string |}.

(** The world of an editor: the sender's key is Alice's later key, the
    password dialog asks for the password and settles as [unlocking] says,
    and the crypto engine answers with a fixed text. *)
Definition editorWorld (settles : result exn Editor.UnlockedKey) : Editor.World :=
  {| Editor.auto_add_primary := true;
     Editor.password_cache := true;
     Editor.getPrimaryKeyFpr := fun _ =>
       Some "AAAAAAAAAAAAAAAAAAAAAAAAAAAAAAAAAAAAAAA2";
     Editor.getPrivateKeyByFpr := fun fpr => Some fpr;
     Editor.keyFprsForAddress := fun _ address =>
       if (address =? "bob@example.org")%string
       then Some ["DDDDDDDDDDDDDDDDDDDDDDDDDDDDDDDDDDDDDDD1"]
       else None;
     Editor.unlockKeyDialog := fun _ =>
       {| Editor.asksPassword := true; Editor.settles := settles |};
     Editor.pwdControlId := "pwd-dialog-1";
     Editor.buildMail := fun options _ =>
       Ok (Some ("MIME " ++ Editor.message options)%string);
     Editor.mapError := fun e =>
       {| mvelo.message :=
            match e with
            | Error m | TypeError m | MveloError m _ => m
            end;
          mvelo.code :=
            match exn_code e with
            | Some code => code
            | None => "INTERNAL_ERROR"
            end |};
     Editor.crypto := fun _ => Ok "-----BEGIN PGP MESSAGE-----" |}.

Definition cancelled : result exn Editor.UnlockedKey :=
  Throw (MveloError "Password dialog canceled." "PWD_DIALOG_CANCEL").

Definition wrongPassword : result exn Editor.UnlockedKey :=
  Throw (MveloError "Wrong password" "WRONG_PASSWORD").

(** A message to sign and encrypt for Bob. *)
Definition signedMail : Editor.Plaintext :=
  {| Editor.action_ := "encrypt";
     Editor.message := "Hello Bob";
     Editor.keys :=
       Some [{| Editor.name := "Bob"; Editor.email := "bob@example.org";
                Editor.fingerprint := "DDDDDDDDDDDDDDDDDDDDDDDDDDDDDDDDDDDDDDD1" |}];
     Editor.signMsg := true;
     Editor.signKeyFpr := None;
     Editor.noCache_ := false |}.

(** The controller of an editor embedded in a container, after
    [onEditorContainerEncrypt] for Bob. *)
Definition embedded : Editor.Controller :=
  snd (fst (EditorController.run
              (EditorController.onEditorContainerEncrypt (editorWorld cancelled)
                 {| EditorController.ce_keyringId := Some "test.example|#|keyring";
                    EditorController.ce_recipients := ["bob@example.org"] |})
              (EditorController.new true))).

(** The controller of an editor in its own popup. *)
Definition popup : Editor.Controller :=
  {| Editor.keyringId := Some mvelo.MAIN_KEYRING_ID;
     Editor.editorPopup := true;
     Editor.editorContPort := false;
     Editor.encryptDone := true;
     Editor.encryptTimer := false;
     Editor.signKey := None;
     Editor.pgpMIME := false;
     Editor.reasonOption := None;
     Editor.keyFprBuffer := None |}.

(** Worlds of [locate]: a key server that has the key and a keyring whose
    store fails; and sources that both fail. *)
Definition failingStore : AutoLocate.World :=
  {| AutoLocate.mvelo_tofu_lookup := true;
     AutoLocate.wkd_lookup := true;
     AutoLocate.keyserverLookup := fun _ =>
       Ok (Some {| AutoLocate.publicKeyArmored := Some (armorKey aliceNew) |});
     AutoLocate.directoryLookup := fun _ _ => Throw (Error "WKD: Timeout");
     AutoLocate.importKeys := fun _ _ => Throw (Error "QuotaExceededError") |}.

Definition noSource : AutoLocate.World :=
  {| AutoLocate.mvelo_tofu_lookup := true;
     AutoLocate.wkd_lookup := true;
     AutoLocate.keyserverLookup := fun _ => Throw (Error "Network error");
     AutoLocate.directoryLookup := fun _ _ => Throw (Error "WKD: Timeout");
     AutoLocate.importKeys := fun _ _ => Ok tt |}.

Definition queryAlice : AutoLocate.Options :=
  {| AutoLocate.email := Some "alice@example.org";
     AutoLocate.keyId := None;
     AutoLocate.fingerprint := None |}.

(** A key with a photo: the second of its users is a user attribute. *)
Definition withPhoto : openpgp.Key :=
  key "EEEEEEEEEEEEEEEEEEEEEEEEEEEEEEEEEEEEEEE1" 5000
      [user "Alice <alice@example.org>" [[x01]];
       {| openpgp.userId := None; openpgp.selfCertifications := [[x01]] |}].

(** A library for which the byte sequence [03] holds [aliceNew] and
    [withPhoto], and that reads every other sequence as [openpgpjs] does. *)
Definition openpgpjsWithPhoto : OpenPGP :=
  {| key_read := fun data =>
       match data with
       | [x03] => {| openpgp.keys := [aliceNew; withPhoto]; openpgp.err := None |}
       | _ => readKeys data
       end;
     armor := armorKey;
     verifyPrimaryKey := verifyKey;
     verifyUser := fun user _ =>
       if certified user then openpgp.valid else openpgp.invalid |}.

(** The directory of example.org: it answers the request for Alice's
    address after 120 ms with the byte sequence [01], and every other
    request after 80 ms with the status 404. *)
Definition aliceUrl : string :=
  "https://example.org/.well-known/openpgpkey/hu/kei1q4tipxxu1yj79k9kfukdhfy631xe".

Definition found : WKD.Response :=
  {| WKD.status := 200; WKD.statusText := "OK";
     WKD.body := WKD.Chunk [x01] WKD.Done |}.

Definition notFound : WKD.Response :=
  {| WKD.status := 404; WKD.statusText := "Not Found"; WKD.body := WKD.Done |}.

Definition directory (url : string) : WKD.promise WKD.Response :=
  if (url =? aliceUrl)%string then WKD.Settles 120 (Ok found)
  else WKD.Settles 80 (Ok notFound).

(** A response whose body breaks off after one byte. *)
Definition brokenOff : WKD.Response :=
  {| WKD.status := 200; WKD.statusText := "OK";
     WKD.body := WKD.Chunk [x01] (WKD.ReadError (TypeError "network error")) |}.

(** A world of [locate] with the directory as its only source. *)
Definition directoryOnly : AutoLocate.World :=
  {| AutoLocate.mvelo_tofu_lookup := false;
     AutoLocate.wkd_lookup := true;
     AutoLocate.keyserverLookup := fun _ => Ok None;
     AutoLocate.directoryLookup := fun _ _ => Throw (Error "WKD: Timeout");
     AutoLocate.importKeys := fun _ _ => Ok tt |}.

(** Worlds of an editor like [editorWorld], but with a MIME builder that
    fails, and with keyrings without primary key. *)
Definition brokenMime : Editor.World :=
  let w := editorWorld cancelled in
  {| Editor.auto_add_primary := Editor.auto_add_primary w;
     Editor.password_cache := Editor.password_cache w;
     Editor.getPrimaryKeyFpr := Editor.getPrimaryKeyFpr w;
     Editor.getPrivateKeyByFpr := Editor.getPrivateKeyByFpr w;
     Editor.keyFprsForAddress := Editor.keyFprsForAddress w;
     Editor.unlockKeyDialog := Editor.unlockKeyDialog w;
     Editor.pwdControlId := Editor.pwdControlId w;
     Editor.buildMail := fun _ _ => Throw (Error "Attachment too large");
     Editor.mapError := Editor.mapError w;
     Editor.crypto := Editor.crypto w |}.

Definition withoutPrimary : Editor.World :=
  let w := editorWorld cancelled in
  {| Editor.auto_add_primary := Editor.auto_add_primary w;
     Editor.password_cache := Editor.password_cache w;
     Editor.getPrimaryKeyFpr := fun _ => None;
     Editor.getPrivateKeyByFpr := Editor.getPrivateKeyByFpr w;
     Editor.keyFprsForAddress := Editor.keyFprsForAddress w;
     Editor.unlockKeyDialog := Editor.unlockKeyDialog w;
     Editor.pwdControlId := Editor.pwdControlId w;
     Editor.buildMail := Editor.buildMail w;
     Editor.mapError := Editor.mapError w;
     Editor.crypto := Editor.crypto w |}.

(** A world like [editorWorld] in which only the main keyring has a
    primary key, Alice's later key. *)
Definition primaryInMainOnly : Editor.World :=
  let w := editorWorld cancelled in
  {| Editor.auto_add_primary := true;
     Editor.password_cache := Editor.password_cache w;
     Editor.getPrimaryKeyFpr := fun keyringId =>
       match keyringId with
       | Some id =>
           if (id =? mvelo.MAIN_KEYRING_ID)%string
           then Some "AAAAAAAAAAAAAAAAAAAAAAAAAAAAAAAAAAAAAAA2"
           else None
       | None => None
       end;
     Editor.getPrivateKeyByFpr := Editor.getPrivateKeyByFpr w;
     Editor.keyFprsForAddress := Editor.keyFprsForAddress w;
     Editor.unlockKeyDialog := Editor.unlockKeyDialog w;
     Editor.pwdControlId := Editor.pwdControlId w;
     Editor.buildMail := Editor.buildMail w;
     Editor.mapError := Editor.mapError w;
     Editor.crypto := Editor.crypto w |}.

(** The password dialog gives Alice's key unlocked. *)
Definition unlockedAlice : result exn Editor.UnlockedKey :=
  Ok {| Editor.unlocked := "AAAAAAAAAAAAAAAAAAAAAAAAAAAAAAAAAAAAAAA2 (unlocked)";
        Editor.password := "secret" |}.

(** A message with an action the controller does not know. *)
Definition otherAction : Editor.Plaintext :=
  {| Editor.action_ := "decrypt";
     Editor.message := "Hello Bob";
     Editor.keys := None;
     Editor.signMsg := false;
     Editor.signKeyFpr := None;
     Editor.noCache_ := false |}.

(** A key store with Alice's later key as its private key and Mallory's
    key as a public key. *)
Definition keystore : KeyringBase.KeyStore :=
  {| KeyringBase.privateKeys_keys := [aliceNew];
     KeyringBase.privateKeys_getForId := fun keyId _ =>
       if (keyId =? openpgp.fingerprint (openpgp.primaryKey aliceNew))%string
          || (keyId =? openpgp.keyid (openpgp.primaryKey aliceNew))%string
       then Some aliceNew else None;
     KeyringBase.getKeysForId := fun keyId _ =>
       if (keyId =? openpgp.fingerprint (openpgp.primaryKey aliceNew))%string
       then Some [aliceNew]
       else if (keyId =? openpgp.fingerprint (openpgp.primaryKey mallory))%string
       then Some [mallory]
       else None;
     KeyringBase.publicKeys_getForAddress := fun address =>
       if (address =? "mallory@evil.example")%string then [mallory] else [];
     KeyringBase.privateKeys_getForAddress := fun address =>
       if (address =? "alice@example.org")%string then [aliceNew] else [] |}.

(** [toArray] on key ids: an array is left as it is, a single key id
    becomes an array of one element. *)
Definition toArray (keyIds : KeyringBase.keyIdsArgument)
    : list KeyringBase.keyIdValue :=
  match keyIds with
  | KeyringBase.OneKeyId keyId => [keyId]
  | KeyringBase.KeyIdArray keyIds => keyIds
  end.

(** A key passes as encryption key when it verifies as valid. *)
Definition isValidEncryptionKey (key : openpgp.Key) (keyringId : string)
    : bool :=
  openpgp.keyStatus_eqb (verifyKey key) openpgp.valid.

(** The options of an editor that answers a mail of Alice. *)
Definition answerOptions : EditorContent.Options :=
  {| EditorContent.signMsg := false;
     EditorContent.privKeys := false;
     EditorContent.armoredDraft := None;
     EditorContent.quotedMail := Some "-----BEGIN PGP MESSAGE-----";
     EditorContent.quotedMailIndent := true;
     EditorContent.quotedMailHeader :=
       Some (EditorContent.ofString "Alice wrote:");
     EditorContent.predefinedText := None;
     EditorContent.keepAttachments := false;
     EditorContent.selfSigned := false |}.

(** The options of an editor that restores a draft, and a world in which
    the decryption of every armored text asks for Alice's key to be
    unlocked and, with the key, gives a mail with a text and a file, signed
    once; [firstSignature] is what the check of that signature gave. *)
Definition draftOptions : EditorContent.Options :=
  {| EditorContent.signMsg := true;
     EditorContent.privKeys := true;
     EditorContent.armoredDraft := Some "-----BEGIN PGP MESSAGE----- (draft)";
     EditorContent.quotedMail := None;
     EditorContent.quotedMailIndent := false;
     EditorContent.quotedMailHeader := None;
     EditorContent.predefinedText := None;
     EditorContent.keepAttachments := false;
     EditorContent.selfSigned := false |}.

Definition contentWorld (firstSignature : option bool) : EditorContent.World :=
  {| EditorContent.getPrimaryKeyFpr := fun _ =>
       Some "AAAAAAAAAAAAAAAAAAAAAAAAAAAAAAAAAAAAAAA2";
     EditorContent.getValidSigningKeys := fun _ =>
       ["AAAAAAAAAAAAAAAAAAAAAAAAAAAAAAAAAAAAAAA2"];
     EditorContent.decryptMessage := fun armored _ _ =>
       EditorContent.CallsUnlockKey
         {| EditorContent.key := "AAAAAAAAAAAAAAAAAAAAAAAAAAAAAAAAAAAAAAA2";
            EditorContent.noCache := false;
            EditorContent.reason := None;
            EditorContent.sync := None |}
         (fun result =>
            match result with
            | Ok _ =>
                EditorContent.Settles
                  (Ok {| EditorContent.data := ("MIME of " ++ armored)%string;
                         EditorContent.signatures :=
                           Some [{| EditorContent.valid := firstSignature |}] |})
            | Throw e => EditorContent.Settles (Throw e)
            end);
     EditorContent.parseMessage := fun _ =>
       ([EditorContent.TextPart (EditorContent.ofString "Dear Bob");
         EditorContent.AttachmentPart "plan.pdf"],
        Ok tt);
     EditorContent.mapError := fun t =>
       {| mvelo.message :=
            match t with
            | EditorContent.Exception e => exn_toString e
            | EditorContent.Object message => message
            end;
          mvelo.code := "INTERNAL_ERROR" |} |}.

End Examples.
Example encodeZBase32_a :
  ZBase32.encodeZBase32 [x61] = "cr".
Proof. vm_compute. reflexivity. Qed.

Example encodeZBase32_hello :
  ZBase32.encodeZBase32 [x68; x65; x6c; x6c; x6f] = "pb1sa5dx".
Proof. vm_compute. reflexivity. Qed.

(** The SHA-1 digest of "joe.doe", the example of the Web Key Directory
    draft (Joe.Doe@Example.ORG). *)
Example encodeZBase32_joe_doe :
  ZBase32.encodeZBase32
    [xa8; x3e; xe9; x4b; xe8; x9c; x48; xa1; x1e; xd2;
     x5a; xb4; x4c; xfd; xc8; x48; x83; x3c; x8b; x6e]
  = "iy9q119eutrkn8s1mk4r39qejnbu3n5q".
Proof. vm_compute. reflexivity. Qed.

(** ** Bits of 32-bit integers *)

Lemma ToInt32_mod (z : Z) : JS.ToInt32 z mod 2 ^ 32 = z mod 2 ^ 32.
Proof.
  unfold JS.ToInt32.
  rewrite Zminus_mod, Zmod_mod, <- Zminus_mod.
  f_equal. lia.
Qed.

Lemma testbit_ToInt32 (z i : Z) :
  0 <= i < 32 -> Z.testbit (JS.ToInt32 z) i = Z.testbit z i.
Proof.
  intros Hi.
  rewrite <- (Z.mod_pow2_bits_low (JS.ToInt32 z) 32 i) by lia.
  rewrite ToInt32_mod.
  apply Z.mod_pow2_bits_low. lia.
Qed.

Lemma ToInt32_small (z : Z) : - 2 ^ 31 <= z < 2 ^ 31 -> JS.ToInt32 z = z.
Proof.
  intros H. unfold JS.ToInt32.
  rewrite Z.mod_small; lia.
Qed.

Lemma testbit_shl (a n i : Z) :
  0 <= n < 32 -> 0 <= i < 32 ->
  Z.testbit (JS.shl a n) i = if i <? n then false else Z.testbit a (i - n).
Proof.
  intros Hn Hi. unfold JS.shl.
  rewrite testbit_ToInt32 by lia.
  rewrite Z.mod_small by lia.
  destruct (Z.ltb_spec i n).
  - apply Z.shiftl_spec_low. lia.
  - rewrite Z.shiftl_spec by lia.
    apply testbit_ToInt32. lia.
Qed.

Lemma testbit_sar (a n i : Z) :
  0 <= n < 32 -> 0 <= i -> i + n < 32 ->
  Z.testbit (JS.sar a n) i = Z.testbit a (i + n).
Proof.
  intros Hn Hi Hin. unfold JS.sar.
  rewrite Z.mod_small by lia.
  rewrite Z.shiftr_spec by lia.
  apply testbit_ToInt32. lia.
Qed.

Lemma testbit_bor (a b i : Z) :
  0 <= i < 32 ->
  Z.testbit (JS.bor a b) i = Z.testbit a i || Z.testbit b i.
Proof.
  intros Hi. unfold JS.bor.
  rewrite Z.lor_spec, !testbit_ToInt32 by lia. reflexivity.
Qed.

Lemma testbit_small_high (c n i : Z) :
  0 <= c < 2 ^ n -> 0 <= n <= i -> Z.testbit c i = false.
Proof.
  intros Hc Hn.
  rewrite <- (Z.mod_small c (2 ^ n)) by lia.
  apply Z.mod_pow2_bits_high. lia.
Qed.

Lemma byte_range (b : byte) : 0 <= Z.of_N (Byte.to_N b) < 256.
Proof.
  pose proof (Byte.to_N_bounded b). lia.
Qed.

Lemma testbit_byte_high (b : byte) (i : Z) :
  8 <= i -> Z.testbit (Z.of_N (Byte.to_N b)) i = false.
Proof.
  intros Hi. apply (testbit_small_high _ 8); [|lia].
  change (2 ^ 8) with 256. apply byte_range.
Qed.

Lemma band_255_byte (b : byte) :
  JS.band (Z.of_N (Byte.to_N b)) 255 = Z.of_N (Byte.to_N b).
Proof.
  pose proof (byte_range b) as Hb.
  unfold JS.band.
  rewrite !ToInt32_small by lia.
  change 255 with (Z.ones 8).
  rewrite Z.land_ones by lia.
  apply Z.mod_small. lia.
Qed.

(** ** The loop of [encodeZBase32] against the 5-bit groups *)

Lemma string_append_empty (s : string) : (s ++ "")%string = s.
Proof.
  induction s as [|c s IH]; simpl; [reflexivity | now rewrite IH].
Qed.

Lemma string_append_assoc (a b c : string) :
  ((a ++ b) ++ c)%string = (a ++ (b ++ c))%string.
Proof.
  induction a as [|x a IH]; simpl; [reflexivity | now rewrite IH].
Qed.

Lemma bitsMatch_byte (b : byte) :
  bitsMatch (Z.of_N (Byte.to_N b)) (ZBase32Spec.bitsOfByte b).
Proof.
  intros i Hi. unfold ZBase32Spec.bitsOfByte in *. simpl List.length in *.
  do 8 (destruct i as [|i]; [reflexivity|]). lia.
Qed.

Lemma bitsOfByte_length (b : byte) :
  List.length (ZBase32Spec.bitsOfByte b) = 8%nat.
Proof. reflexivity. Qed.

Lemma bitsMatch_push (buf : Z) (p : list bool) (b : byte) :
  bitsMatch buf p -> (List.length p + 8 <= 32)%nat ->
  bitsMatch (JS.bor (JS.shl buf 8) (JS.band (Z.of_N (Byte.to_N b)) 255))
            (p ++ ZBase32Spec.bitsOfByte b).
Proof.
  intros H Hlen i Hi.
  rewrite length_app, bitsOfByte_length in *.
  rewrite band_255_byte, testbit_bor, testbit_shl by lia.
  destruct (Z.ltb_spec (Z.of_nat i) 8) as [Hlt|Hge].
  - rewrite app_nth2 by lia.
    rewrite (bitsMatch_byte b i) by (rewrite bitsOfByte_length; lia).
    rewrite bitsOfByte_length.
    replace (List.length p + 8 - 1 - i - List.length p)%nat with (8 - 1 - i)%nat
      by lia.
    reflexivity.
  - rewrite testbit_byte_high by lia.
    rewrite orb_false_r, app_nth1 by lia.
    replace (Z.of_nat i - 8) with (Z.of_nat (i - 8)) by lia.
    rewrite H by lia. f_equal. lia.
Qed.

Lemma bitsMatch_pad (buf : Z) (p : list bool) (pad : nat) :
  bitsMatch buf p -> (List.length p + pad <= 31)%nat ->
  bitsMatch (JS.shl buf (Z.of_nat pad)) (p ++ repeat false pad).
Proof.
  intros H Hlen i Hi.
  rewrite length_app, repeat_length in *.
  rewrite testbit_shl by lia.
  destruct (Z.ltb_spec (Z.of_nat i) (Z.of_nat pad)) as [Hlt|Hge].
  - rewrite app_nth2 by lia. symmetry. apply nth_repeat.
  - rewrite app_nth1 by lia.
    replace (Z.of_nat i - Z.of_nat pad) with (Z.of_nat (i - pad)) by lia.
    rewrite H by lia. f_equal. lia.
Qed.

Lemma bitsMatch_skip (buf : Z) (p : list bool) :
  bitsMatch buf p -> (5 <= List.length p)%nat -> bitsMatch buf (skipn 5 p).
Proof.
  intros H Hlen i Hi.
  rewrite length_skipn in *.
  rewrite nth_skipn, H by lia. f_equal. lia.
Qed.

Lemma mod32_bits (y : Z) :
  y mod 2 ^ 5 =
  ZBase32Spec.valueOf
    [Z.testbit y 4; Z.testbit y 3; Z.testbit y 2; Z.testbit y 1; Z.testbit y 0].
Proof.
  unfold ZBase32Spec.valueOf. cbn [fold_left].
  rewrite !Z.testbit_spec' by lia.
  change (2 ^ 5) with 32. change (2 ^ 4) with 16. change (2 ^ 3) with 8.
  change (2 ^ 2) with 4. change (2 ^ 1) with 2. change (2 ^ 0) with 1.
  Z.div_mod_to_equations. lia.
Qed.

(** The index the loop body computes is the value of the first five
    pending bits. *)
Lemma emitted_value (buf : Z) (p : list bool) :
  bitsMatch buf p -> (5 <= List.length p <= 32)%nat ->
  JS.band ZBase32.MASK (JS.sar buf (Z.of_nat (List.length p) - ZBase32.SHIFT))
  = ZBase32Spec.valueOf (firstn 5 p).
Proof.
  intros H Hlen. unfold ZBase32.MASK, ZBase32.SHIFT, JS.band.
  rewrite (ToInt32_small 31) by lia.
  rewrite Z.land_comm. change 31 with (Z.ones 5).
  rewrite Z.land_ones, mod32_bits by lia.
  assert (Hbit : forall j : Z, 0 <= j < 5 ->
            Z.testbit (JS.ToInt32 (JS.sar buf (Z.of_nat (List.length p) - 5))) j
            = nth (Z.to_nat (4 - j)) p false).
  { intros j Hj.
    rewrite testbit_ToInt32, testbit_sar by lia.
    replace (j + (Z.of_nat (List.length p) - 5))
      with (Z.of_nat (Z.to_nat j + (List.length p - 5))) by lia.
    rewrite H by lia. f_equal. lia. }
  rewrite (Hbit 4), (Hbit 3), (Hbit 2), (Hbit 1), (Hbit 0) by lia.
  do 5 (destruct p as [|? p]; [simpl in Hlen; lia|]).
  reflexivity.
Qed.

Lemma charAt_symbol (g : list bool) :
  List.length g = 5%nat ->
  JS.charAt ZBase32.ALPHABET (ZBase32Spec.valueOf g)
  = String (ZBase32Spec.symbol g) "".
Proof.
  intros Hg.
  do 5 (destruct g as [|? g]; [discriminate Hg|]).
  destruct g; [|discriminate Hg].
  repeat match goal with b : bool |- _ => destruct b end; reflexivity.
Qed.

Lemma groups_step (p rest : list bool) :
  (5 <= List.length p)%nat ->
  ZBase32Spec.groups (p ++ rest)
  = firstn 5 p :: ZBase32Spec.groups (skipn 5 p ++ rest).
Proof.
  intros Hp.
  do 5 (destruct p as [|? p]; [simpl in Hp; lia|]).
  reflexivity.
Qed.

Lemma groups_last (p : list bool) :
  (0 < List.length p < 5)%nat ->
  ZBase32Spec.groups p = [p ++ repeat false (5 - List.length p)].
Proof.
  intros Hp.
  destruct p as [|? [|? [|? [|? [|? p]]]]]; simpl in Hp; try lia; reflexivity.
Qed.

Lemma skipn_nth_cons (data : list byte) (i : nat) :
  (i < List.length data)%nat ->
  skipn i data = nth i data x00 :: skipn (S i) data.
Proof.
  revert i. induction data as [|d data IH]; intros i Hi; simpl in Hi.
  - lia.
  - destruct i as [|i]; [reflexivity|].
    simpl. apply IH. lia.
Qed.

Lemma bitsOf_cons (d : byte) (data : list byte) :
  ZBase32Spec.bitsOf (d :: data)
  = ZBase32Spec.bitsOfByte d ++ ZBase32Spec.bitsOf data.
Proof. reflexivity. Qed.

(** The [if (bitsLeft < SHIFT)] statement leaves at least five pending bits
    and does not change the groups still to be emitted. *)
Ltac vars_simpl :=
  cbn [ZBase32.buffer ZBase32.index ZBase32.bitsLeft ZBase32.result].

Tactic Notation "vars_simpl" "in" hyp(H) :=
  cbn [ZBase32.buffer ZBase32.index ZBase32.bitsLeft ZBase32.result] in H.

Lemma refill_spec (data : list byte) (v : ZBase32.vars) (p : list bool) :
  ZBase32.bitsLeft v = Z.of_nat (List.length p) ->
  (List.length p <= 12)%nat ->
  bitsMatch (ZBase32.buffer v) p ->
  (ZBase32.index v <= List.length data)%nat ->
  ZBase32.cond data v = true ->
  exists p1 : list bool,
    let v1 := ZBase32.refill data v in
    ZBase32.bitsLeft v1 = Z.of_nat (List.length p1) /\
    (5 <= List.length p1 <= 12)%nat /\
    bitsMatch (ZBase32.buffer v1) p1 /\
    (ZBase32.index v1 <= List.length data)%nat /\
    ZBase32.result v1 = ZBase32.result v /\
    ZBase32Spec.groups (p ++ ZBase32Spec.bitsOf (skipn (ZBase32.index v) data))
    = ZBase32Spec.groups
        (p1 ++ ZBase32Spec.bitsOf (skipn (ZBase32.index v1) data)) /\
    (List.length p1 + 8 * (List.length data - ZBase32.index v1)
     <= Nat.max 5 (List.length p + 8 * (List.length data - ZBase32.index v)))%nat.
Proof.
  destruct v as [buf idx bl res]. vars_simpl.
  intros -> Hlen Hm Hidx Hcond.
  unfold ZBase32.cond in Hcond. vars_simpl in Hcond.
  unfold ZBase32.refill, ZBase32.SHIFT. vars_simpl.
  destruct (Z.ltb_spec (Z.of_nat (List.length p)) 5) as [Hlt|Hge].
  - destruct (Nat.ltb_spec idx (List.length data)) as [Hin|Hout].
    + (* one more byte is read *)
      exists (p ++ ZBase32Spec.bitsOfByte (nth idx data x00)). vars_simpl.
      rewrite length_app, bitsOfByte_length.
      repeat split; try lia.
      * apply bitsMatch_push; [assumption | lia].
      * rewrite (skipn_nth_cons data idx Hin), bitsOf_cons, app_assoc.
        reflexivity.
    + (* the input is exhausted: the last group is filled up *)
      rewrite orb_false_r in Hcond. apply Z.ltb_lt in Hcond.
      exists (p ++ repeat false (5 - List.length p)). vars_simpl.
      rewrite length_app, repeat_length.
      replace (5 - Z.of_nat (List.length p)) with (Z.of_nat (5 - List.length p))
        by lia.
      repeat split; try lia.
      * apply bitsMatch_pad; [assumption | lia].
      * rewrite skipn_all2 by lia.
        destruct p as [|? [|? [|? [|? [|? p]]]]]; simpl in Hlt, Hcond; try lia;
          reflexivity.
  - exists p. vars_simpl. repeat split; try lia. assumption.
Qed.

(** One iteration emits the character of the next group. *)
Lemma body_spec (data : list byte) (v : ZBase32.vars) (p : list bool) :
  ZBase32.bitsLeft v = Z.of_nat (List.length p) ->
  (List.length p <= 12)%nat ->
  bitsMatch (ZBase32.buffer v) p ->
  (ZBase32.index v <= List.length data)%nat ->
  ZBase32.cond data v = true ->
  exists (p' g : list bool),
    let v' := ZBase32.body data v in
    ZBase32.bitsLeft v' = Z.of_nat (List.length p') /\
    (List.length p' <= 12)%nat /\
    bitsMatch (ZBase32.buffer v') p' /\
    (ZBase32.index v' <= List.length data)%nat /\
    ZBase32.result v'
    = (ZBase32.result v ++ String (ZBase32Spec.symbol g) "")%string /\
    ZBase32Spec.groups (p ++ ZBase32Spec.bitsOf (skipn (ZBase32.index v) data))
    = g :: ZBase32Spec.groups
             (p' ++ ZBase32Spec.bitsOf (skipn (ZBase32.index v') data)) /\
    (List.length p' + 8 * (List.length data - ZBase32.index v') + 5
     <= Nat.max 5 (List.length p + 8 * (List.length data - ZBase32.index v)))%nat.
Proof.
  intros Hbl Hlen Hm Hidx Hcond.
  destruct (refill_spec data v p Hbl Hlen Hm Hidx Hcond)
    as (p1 & Hbl1 & Hlen1 & Hm1 & Hidx1 & Hres1 & Hgr & Hmeasure).
  cbv zeta in *.
  exists (skipn 5 p1), (firstn 5 p1).
  unfold ZBase32.body. cbv zeta. vars_simpl.
  rewrite Hbl1, Hres1, length_skipn.
  rewrite emitted_value by (assumption || lia).
  rewrite charAt_symbol by (rewrite length_firstn; lia).
  unfold ZBase32.SHIFT.
  repeat split; try lia.
  - apply bitsMatch_skip; [assumption | lia].
  - rewrite Hgr. apply groups_step. lia.
Qed.

Lemma while_unfold (data : list byte) (v : ZBase32.vars) :
  ZBase32.while data v
  = if ZBase32.cond data v then ZBase32.while data (ZBase32.body data v) else v.
Proof.
  funelim (ZBase32.while data v);
    match goal with H : ZBase32.cond _ _ = _ |- _ => rewrite H end;
    reflexivity.
Qed.

(** From a state whose pending bits are [p], the loop appends the
    characters of the groups of [p] followed by the unread input. *)
Lemma while_correct (data : list byte) :
  forall (n : nat) (v : ZBase32.vars) (p : list bool),
    ZBase32.bitsLeft v = Z.of_nat (List.length p) ->
    (List.length p <= 12)%nat ->
    bitsMatch (ZBase32.buffer v) p ->
    (ZBase32.index v <= List.length data)%nat ->
    (List.length p + 8 * (List.length data - ZBase32.index v) + 5 <= 5 * n)%nat ->
    ZBase32.result (ZBase32.while data v)
    = (ZBase32.result v ++
       string_of_list_ascii
         (map ZBase32Spec.symbol
            (ZBase32Spec.groups
               (p ++ ZBase32Spec.bitsOf (skipn (ZBase32.index v) data)))))%string.
Proof.
  induction n as [|n IH]; intros v p Hbl Hlen Hm Hidx Hn; [lia|].
  rewrite while_unfold. destruct (ZBase32.cond data v) eqn:Hcond.
  - destruct (body_spec data v p Hbl Hlen Hm Hidx Hcond)
      as (p' & g & Hbl' & Hlen' & Hm' & Hidx' & Hres' & Hgr & Hmeasure).
    cbv zeta in *.
    assert (Hpos : (0 < List.length p + 8 * (List.length data - ZBase32.index v))%nat).
    { unfold ZBase32.cond in Hcond. apply orb_true_iff in Hcond.
      destruct Hcond as [H|H]; [apply Z.ltb_lt in H | apply Nat.ltb_lt in H]; lia. }
    rewrite (IH (ZBase32.body data v) p' Hbl' Hlen' Hm' Hidx') by lia.
    rewrite Hres', Hgr, string_append_assoc. reflexivity.
  - unfold ZBase32.cond in Hcond. apply orb_false_iff in Hcond.
    destruct Hcond as [H1 H2]. apply Z.ltb_ge in H1. apply Nat.ltb_ge in H2.
    destruct p; [|simpl in Hbl; lia].
    rewrite skipn_all2 by lia. simpl.
    symmetry. apply string_append_empty.
Qed.

(** [encodeZBase32] returns, for every byte sequence, the encoding the
    specification describes. *)
Lemma encodeZBase32_correct (data : list byte) :
  ZBase32.encodeZBase32 data = ZBase32Spec.encode data.
Proof.
  destruct data as [|d data]; [reflexivity|].
  unfold ZBase32.encodeZBase32.
  rewrite (while_correct (d :: data) (2 * List.length (d :: data) + 1)
             _ (ZBase32Spec.bitsOfByte d)).
  - reflexivity.
  - reflexivity.
  - rewrite bitsOfByte_length. lia.
  - apply bitsMatch_byte.
  - simpl. lia.
  - rewrite bitsOfByte_length. simpl List.length. simpl ZBase32.index. lia.
Qed.

(** ** The regular expression on addresses of the form local@domain *)

Lemma allChars_append (test : ascii -> bool) (a b : string) :
  RegExp.allChars test (a ++ b)%string
  = RegExp.allChars test a && RegExp.allChars test b.
Proof.
  induction a as [|c a IH]; simpl; [reflexivity|].
  rewrite IH. apply andb_assoc.
Qed.

Lemma dotStar_singleLine (s : string) :
  RegExp.singleLine s = true -> RegExp.dotStar s = s.
Proof.
  unfold RegExp.singleLine.
  induction s as [|c s IH]; simpl; [reflexivity|].
  intros H. apply andb_true_iff in H. destruct H as [Hc Hs].
  apply negb_true_iff in Hc. rewrite Hc, IH by assumption. reflexivity.
Qed.

Lemma splitLastAt_noAt (s : string) :
  RegExp.noAt s = true -> RegExp.splitLastAt s = None.
Proof.
  unfold RegExp.noAt.
  induction s as [|c s IH]; simpl; [reflexivity|].
  intros H. apply andb_true_iff in H. destruct H as [Hc Hs].
  apply negb_true_iff in Hc. rewrite IH, Hc by assumption. reflexivity.
Qed.

Lemma splitLastAt_append (localPart domain : string) :
  RegExp.noAt domain = true ->
  RegExp.splitLastAt (localPart ++ String "@" domain)%string
  = Some (localPart, domain).
Proof.
  intros Hd.
  induction localPart as [|c l IH]; simpl.
  - rewrite splitLastAt_noAt by assumption. reflexivity.
  - rewrite IH. reflexivity.
Qed.

Lemma exec_unfold (s : string) :
  RegExp.exec s
  = match RegExp.matchHere s with
    | Some groups => Some groups
    | None =>
        match s with
        | EmptyString => None
        | String _ s' => RegExp.exec s'
        end
    end.
Proof. destruct s; reflexivity. Qed.

(** On a single-line address whose domain has no at sign the expression
    matches at the first character and splits at the last at sign. *)
Lemma exec_address (localPart domain : string) :
  RegExp.singleLine localPart = true ->
  RegExp.singleLine domain = true ->
  RegExp.noAt domain = true ->
  RegExp.exec (localPart ++ "@" ++ domain)%string = Some (localPart, domain).
Proof.
  intros Hl Hd Hat.
  assert (Hm : RegExp.matchHere (localPart ++ "@" ++ domain)%string
               = Some (localPart, domain)).
  { unfold RegExp.matchHere.
    rewrite dotStar_singleLine.
    - apply splitLastAt_append. assumption.
    - unfold RegExp.singleLine in *.
      rewrite allChars_append. simpl. rewrite Hl, Hd. reflexivity. }
  rewrite exec_unfold, Hm. reflexivity.
Qed.

Lemma exec_noAt (s : string) :
  RegExp.noAt s = true -> RegExp.exec s = None.
Proof.
  unfold RegExp.noAt.
  induction s as [|c s IH]; [reflexivity|].
  intros H. simpl in H. apply andb_true_iff in H. destruct H as [Hc Hs].
  assert (Hm : RegExp.matchHere (String c s) = None).
  { unfold RegExp.matchHere. apply splitLastAt_noAt.
    clear IH. revert c Hc. unfold RegExp.noAt.
    induction s as [|d s IHs]; intros c Hc; simpl.
    - destruct (RegExp.isLineTerminator c); simpl; [reflexivity|].
      rewrite Hc. reflexivity.
    - destruct (RegExp.isLineTerminator c); simpl; [reflexivity|].
      rewrite Hc. simpl in Hs. apply andb_true_iff in Hs. destruct Hs as [Hd Hs].
      apply (IHs Hs d Hd). }
  rewrite exec_unfold, Hm. apply IH. assumption.
Qed.

(** C4. For every address [localPart@domain] (a single line, the domain
    being what follows the last at sign): when both parts are non-empty,
    [buildWKDUrl] returns https://domain/.well-known/openpgpkey/hu/ followed
    by the Z-Base32 encoding of the SHA-1 digest of the lower-cased local
    part, the encoding being the one of the specification (alphabet
    ybndrfg8ejkmcpqxot1uwisza345h769, groups of five bits, most significant
    bit first, no padding character); when a part is empty it throws.
    [encodeZBase32] agrees with that encoding on every byte sequence and
    gives the empty string for the empty one. *)
Theorem buildWKDUrl_spec {rt : Runtime} (localPart domain : string) :
  RegExp.singleLine localPart = true ->
  RegExp.singleLine domain = true ->
  RegExp.noAt domain = true ->
  (localPart <> "" -> domain <> "" ->
   WKD.buildWKDUrl (localPart ++ "@" ++ domain)%string
   = Ok ("https://" ++ domain ++ "/.well-known/openpgpkey/hu/"
           ++ ZBase32Spec.encode (sha1 (toLowerCase localPart)))%string)
  /\ (localPart = "" \/ domain = "" ->
      WKD.buildWKDUrl (localPart ++ "@" ++ domain)%string
      = Throw (Error ("WKD: failed to parse: " ++ localPart ++ "@" ++ domain)))
  /\ (forall data : list byte,
        ZBase32.encodeZBase32 data = ZBase32Spec.encode data)
  /\ ZBase32.encodeZBase32 [] = "".
Proof.
  intros Hl Hd Hat.
  unfold WKD.buildWKDUrl. rewrite (exec_address _ _ Hl Hd Hat).
  repeat split.
  - intros Hln Hdn.
    apply String.eqb_neq in Hln. apply String.eqb_neq in Hdn.
    rewrite Hln, Hdn. simpl orb. cbv iota zeta.
    rewrite encodeZBase32_correct. reflexivity.
  - intros [-> | ->].
    + reflexivity.
    + rewrite String.eqb_refl, orb_true_r. reflexivity.
  - apply encodeZBase32_correct.
Qed.

(** ** sizeLimitResponse *)

Lemma byteLength_cons (value : list byte) (chunks : list (list byte)) :
  WKD.byteLength (value :: chunks)
  = Z.of_nat (List.length value) + WKD.byteLength chunks.
Proof.
  unfold WKD.byteLength. simpl. rewrite length_app. lia.
Qed.

Lemma byteLength_nonneg (chunks : list (list byte)) : 0 <= WKD.byteLength chunks.
Proof. unfold WKD.byteLength. lia. Qed.

Lemma byteLength_app (a b : list (list byte)) :
  WKD.byteLength (a ++ b) = WKD.byteLength a + WKD.byteLength b.
Proof.
  unfold WKD.byteLength. rewrite concat_app, length_app. lia.
Qed.

(** Chunks that stay within the limit are read and kept. *)
Lemma pump_prepend (limit : Z) (rest : WKD.stream) :
  forall (chunks results : list (list byte)) (total : Z),
    total + WKD.byteLength chunks <= limit ->
    WKD.pump limit (WKD.prepend chunks rest) total results
    = WKD.pump limit rest (total + WKD.byteLength chunks) (results ++ chunks).
Proof.
  induction chunks as [|value chunks IH]; intros results total Hle.
  - simpl. rewrite app_nil_r. f_equal. unfold WKD.byteLength. simpl. lia.
  - rewrite byteLength_cons in *.
    pose proof (byteLength_nonneg chunks) as Hnn.
    simpl. destruct (Z.ltb_spec limit (total + Z.of_nat (List.length value)));
      [lia|].
    rewrite IH by lia. rewrite <- app_assoc. simpl. f_equal. lia.
Qed.

(** A buffer is returned only for a body that ends and stays within the
    limit. *)
Lemma pump_Ok (limit : Z) :
  forall (reader : WKD.stream) (total : Z) (results : list (list byte))
         (buf : list byte),
    total <= limit ->
    WKD.pump limit reader total results = Ok buf ->
    exists chunks : list (list byte),
      reader = WKD.prepend chunks WKD.Done /\
      buf = List.concat (results ++ chunks) /\
      total + WKD.byteLength chunks <= limit.
Proof.
  induction reader as [|value rest IH|e]; intros total results buf Ht H;
    simpl in H.
  - exists []. simpl. rewrite app_nil_r.
    inversion H. repeat split. unfold WKD.byteLength. simpl. lia.
  - destruct (Z.ltb_spec limit (total + Z.of_nat (List.length value)));
      [discriminate H|].
    destruct (IH _ _ _ ltac:(eassumption) H) as (chunks & -> & -> & Hle).
    exists (value :: chunks). rewrite byteLength_cons, <- app_assoc.
    repeat split. lia.
  - discriminate H.
Qed.

Lemma concat_length_byteLength (chunks : list (list byte)) :
  Z.of_nat (List.length (List.concat chunks)) = WKD.byteLength chunks.
Proof. reflexivity. Qed.

(** C2. [sizeLimitResponse], called with the limit [lookup] passes
    (SIZE_LIMIT * 1024 = 65536 bytes): a status other than 200 is an error;
    the read that takes the number of bytes read past the limit raises the
    size error, whatever the rest of the body is, and the error carries none
    of the bytes read; a buffer is returned only for a body that ends with
    at most 65536 bytes in all, and then it is the concatenation of the
    chunks. *)
Theorem sizeLimitResponse_spec (wkd_blacklist : option (list string))
    (response : WKD.Response) :
  let limit := WKD.SIZE_LIMIT (WKD.new wkd_blacklist) * 1024 in
  limit = 65536
  /\ (WKD.status response <> 200 ->
      WKD.sizeLimitResponse response limit
      = Throw (Error ("WKD: Invalid WKD Response "
                        ++ WKD.numberToString (WKD.status response) ++ ":"
                        ++ WKD.statusText response)))
  /\ (forall (chunks : list (list byte)) (value : list byte) (rest : WKD.stream),
        WKD.status response = 200 ->
        WKD.body response = WKD.prepend chunks (WKD.Chunk value rest) ->
        WKD.byteLength chunks <= limit ->
        limit < WKD.byteLength chunks + Z.of_nat (List.length value) ->
        WKD.sizeLimitResponse response limit
        = Throw (Error "WKD: Response longer then the max size"))
  /\ (forall buf : list byte,
        WKD.sizeLimitResponse response limit = Ok buf ->
        WKD.status response = 200 /\
        Z.of_nat (List.length buf) <= limit /\
        exists chunks : list (list byte),
          WKD.body response = WKD.prepend chunks WKD.Done /\
          buf = List.concat chunks)
  /\ (forall chunks : list (list byte),
        WKD.status response = 200 ->
        WKD.body response = WKD.prepend chunks WKD.Done ->
        WKD.byteLength chunks <= limit ->
        WKD.sizeLimitResponse response limit = Ok (List.concat chunks)).
Proof.
  intros limit. unfold WKD.sizeLimitResponse.
  assert (Hlimit : limit = 65536) by reflexivity.
  split; [exact Hlimit|]. clearbody limit.
  repeat split.
  - intros Hs. apply Z.eqb_neq in Hs. rewrite Hs. reflexivity.
  - intros chunks value rest Hs Hb Hle Hgt.
    rewrite Hs, Hb. simpl negb. cbv iota.
    rewrite pump_prepend by lia. simpl.
    destruct (Z.ltb_spec limit
                (WKD.byteLength chunks + Z.of_nat (List.length value)));
      [reflexivity | lia].
  - destruct (Z.eqb_spec (WKD.status response) 200); [assumption|].
    discriminate H.
  - destruct (Z.eqb_spec (WKD.status response) 200); [|discriminate H].
    simpl in H. apply pump_Ok in H; [|lia].
    destruct H as (chunks & _ & -> & Hle).
    simpl. rewrite concat_length_byteLength. lia.
  - destruct (Z.eqb_spec (WKD.status response) 200); [|discriminate H].
    simpl in H. apply pump_Ok in H; [|lia].
    destruct H as (chunks & Hb & -> & Hle).
    exists chunks. split; [assumption | reflexivity].
  - intros chunks Hs Hb Hle.
    rewrite Hs, Hb. simpl negb. cbv iota.
    rewrite pump_prepend by lia. reflexivity.
Qed.

(** ** parseKeysForEMail *)

Section ParseKeys.

Context {rt : Runtime} {pgp : OpenPGP} {km : KeyModule}.

Lemma keepUsers_eq (email : string) :
  forall (users keptUsers : list openpgp.User),
    WKD.keepUsers email users keptUsers
    = if forallb WKD.hasUserId users
      then Ok (keptUsers ++ filter (WKD.matches email) users)
      else Throw WKD.useridOfNull.
Proof.
  induction users as [|user users IH]; intros keptUsers; simpl.
  - rewrite app_nil_r. reflexivity.
  - unfold WKD.hasUserId at 1, WKD.matches at 1.
    destruct (openpgp.userId user) as [uid|]; [|reflexivity].
    simpl. destruct (WKD.sameAddress (openpgp.userid uid) email).
    + rewrite IH. destruct (forallb WKD.hasUserId users); [|reflexivity].
      rewrite <- app_assoc. reflexivity.
    + apply IH.
Qed.

Lemma survivors_cons (email : string) (key : openpgp.Key)
    (keys : list openpgp.Key) :
  WKD.survivors email (key :: keys)
  = if negb (List.length (filter (WKD.matches email) (openpgp.users key)) =? 0)%nat
    then WKD.filtered email key :: WKD.survivors email keys
    else WKD.survivors email keys.
Proof. reflexivity. Qed.

Lemma scan_eta (s : WKD.scan) :
  {| WKD.keptArmoredKeys := WKD.keptArmoredKeys s;
     WKD.candidate := WKD.candidate s |} = s.
Proof. destruct s. reflexivity. Qed.

Lemma forEachKey_eq (email : string) (onlyOne : bool) :
  forall (keys : list openpgp.Key) (s : WKD.scan),
    WKD.forEachKey email onlyOne keys s
    = if WKD.onlyUserIds keys
      then Ok (WKD.scanned onlyOne s (WKD.survivors email keys))
      else Throw WKD.useridOfNull.
Proof.
  induction keys as [|key keys IH]; intros s.
  - simpl. unfold WKD.scanned. destruct onlyOne; simpl.
    + rewrite scan_eta. reflexivity.
    + rewrite app_nil_r, scan_eta. reflexivity.
  - simpl WKD.forEachKey. unfold WKD.inspectKey.
    rewrite keepUsers_eq. simpl app.
    change (WKD.onlyUserIds (key :: keys))
      with (forallb WKD.hasUserId (openpgp.users key) && WKD.onlyUserIds keys).
    destruct (forallb WKD.hasUserId (openpgp.users key)); [|reflexivity].
    simpl bind. rewrite survivors_cons.
    destruct (negb (List.length (filter (WKD.matches email) (openpgp.users key))
                    =? 0)%nat).
    + fold (WKD.filtered email key).
      destruct onlyOne.
      * destruct (WKD.candidate s) eqn:Hc; simpl bind; rewrite IH;
          simpl andb; destruct (WKD.onlyUserIds keys); try reflexivity;
          unfold WKD.scanned; simpl; rewrite Hc; reflexivity.
      * simpl bind. rewrite IH. simpl andb.
        destruct (WKD.onlyUserIds keys); [|reflexivity].
        unfold WKD.scanned. simpl. rewrite <- app_assoc. reflexivity.
    + simpl bind. rewrite IH. reflexivity.
Qed.

(** What the [try] block does, in terms of the surviving keys. *)
Lemma selectKeys_eq (email : string) (onlyOne : bool) (keys : list openpgp.Key) :
  WKD.selectKeys email onlyOne keys
  = if WKD.onlyUserIds keys then
      if onlyOne then
        match fold_left WKD.pick (WKD.survivors email keys) None with
        | Some c => Ok (WKD.OneKey (armor c))
        | None => Throw WKD.noMatchingKey
        end
      else
        match WKD.survivors email keys with
        | [] => Throw WKD.noMatchingKey
        | _ :: _ => Ok (WKD.AllKeys (map armor (WKD.survivors email keys)))
        end
    else Throw WKD.useridOfNull.
Proof.
  unfold WKD.selectKeys. rewrite forEachKey_eq.
  destruct (WKD.onlyUserIds keys); [|reflexivity].
  simpl bind. unfold WKD.scanned. destruct onlyOne; simpl.
  - destruct (fold_left WKD.pick (WKD.survivors email keys) None); reflexivity.
  - destruct (WKD.survivors email keys); reflexivity.
Qed.

Lemma pick_Some (kept : list openpgp.Key) :
  forall c : openpgp.Key, exists c' : openpgp.Key,
    fold_left WKD.pick kept (Some c) = Some c'.
Proof.
  induction kept as [|k kept IH]; intros c; simpl.
  - exists c. reflexivity.
  - apply IH.
Qed.

Lemma pick_None (kept : list openpgp.Key) :
  fold_left WKD.pick kept None = None -> kept = [].
Proof.
  destruct kept as [|k kept]; [reflexivity|].
  simpl. destruct (pick_Some kept k) as (c & ->). discriminate.
Qed.

(** *** The surviving keys *)

Lemma survivors_spec (email : string) (keys : list openpgp.Key)
    (k : openpgp.Key) :
  In k (WKD.survivors email keys) <->
  exists key : openpgp.Key,
    In key keys /\
    k = openpgp.setUsers key (filter (WKD.matches email) (openpgp.users key)) /\
    openpgp.users k <> [].
Proof.
  unfold WKD.survivors. rewrite filter_In, in_map_iff. split.
  - intros ((key & <- & Hin) & Hne).
    exists key. repeat split; [assumption|].
    intros Hnil. unfold WKD.filtered in *. rewrite Hnil in Hne. discriminate Hne.
  - intros (key & Hin & -> & Hne). split.
    + exists key. split; [reflexivity | assumption].
    + destruct (openpgp.users _); [contradiction | reflexivity].
Qed.

Lemma survivors_users (email : string) (keys : list openpgp.Key)
    (k : openpgp.Key) (user : openpgp.User) :
  In k (WKD.survivors email keys) -> In user (openpgp.users k) ->
  WKD.matches email user = true.
Proof.
  intros Hk Hu. apply survivors_spec in Hk.
  destruct Hk as (key & _ & -> & _). simpl in Hu.
  apply filter_In in Hu. apply Hu.
Qed.

(** *** The choice of the candidate *)

Lemma prefer_cases (key c : openpgp.Key) :
  WKD.prefer key c = key \/ WKD.prefer key c = c.
Proof.
  unfold WKD.prefer.
  destruct (WKD.isValid key && negb (WKD.isValid c)); [now left|].
  destruct (Bool.eqb _ _ && _); [now left | now right].
Qed.

Lemma atLeastAsGood_refl (k : openpgp.Key) : WKD.atLeastAsGood k k.
Proof. split; [tauto | lia]. Qed.

Lemma atLeastAsGood_trans (a b c : openpgp.Key) :
  WKD.atLeastAsGood a b -> WKD.atLeastAsGood b c -> WKD.atLeastAsGood a c.
Proof.
  unfold WKD.atLeastAsGood.
  destruct (WKD.isValid a), (WKD.isValid b), (WKD.isValid c);
    intros [H1 H2] [H3 H4]; split; intros; try congruence;
    try (specialize (H2 eq_refl)); try (specialize (H4 eq_refl)); try lia;
    try (specialize (H1 eq_refl)); try (specialize (H3 eq_refl));
    congruence.
Qed.

Lemma prefer_good (key c : openpgp.Key) :
  WKD.atLeastAsGood (WKD.prefer key c) key /\
  WKD.atLeastAsGood (WKD.prefer key c) c.
Proof.
  unfold WKD.prefer, WKD.atLeastAsGood.
  destruct (WKD.isValid key) eqn:Hk, (WKD.isValid c) eqn:Hc; simpl;
    try destruct (Z.ltb_spec (openpgp.created (openpgp.primaryKey c))
                             (openpgp.created (openpgp.primaryKey key)));
    rewrite ?Hk, ?Hc; repeat split; intros; try congruence; lia.
Qed.

(** The candidate left by the loop is one of the keys seen and at least as
    good as every one of them. *)
Lemma fold_pick_best :
  forall (kept : list openpgp.Key) (c0 c : openpgp.Key),
    fold_left WKD.pick kept (Some c0) = Some c ->
    In c (c0 :: kept) /\
    forall k : openpgp.Key, In k (c0 :: kept) -> WKD.atLeastAsGood c k.
Proof.
  induction kept as [|key kept IH]; intros c0 c H; simpl in H.
  - inversion H; subst. split; [now left|].
    intros k [<- | []]. apply atLeastAsGood_refl.
  - destruct (IH _ _ H) as [Hin Hbest].
    destruct (prefer_good key c0) as [Hg1 Hg2].
    split.
    + destruct Hin as [<- | Hin]; [|right; right; assumption].
      destruct (prefer_cases key c0) as [-> | ->];
        [right; left | left]; reflexivity.
    + intros k [<- | [<- | Hk]].
      * apply (atLeastAsGood_trans _ (WKD.prefer key c0));
          [apply Hbest; now left | assumption].
      * apply (atLeastAsGood_trans _ (WKD.prefer key c0));
          [apply Hbest; now left | assumption].
      * apply Hbest. right. assumption.
Qed.

Lemma fold_pick_None_best (kept : list openpgp.Key) (c : openpgp.Key) :
  fold_left WKD.pick kept None = Some c ->
  In c kept /\ forall k : openpgp.Key, In k kept -> WKD.atLeastAsGood c k.
Proof.
  destruct kept as [|key kept]; [discriminate|].
  simpl. apply fold_pick_best.
Qed.

(** C1. [parseKeysForEMail] returns surviving keys only: with [onlyOne]
    one of them, without it all of them and at least one.  A surviving key
    is a key of the response reduced to the identities whose address is the
    queried one up to case, and it has at least one such identity.  When no
    key survives the function throws; it never returns an empty result. *)
Theorem parseKeysForEMail_filters (data : list byte) (email : string)
    (onlyOne : bool) :
  let keys := openpgp.keys (key_read data) in
  (forall r : WKD.armoredKeys,
     WKD.parseKeysForEMail data email onlyOne = Ok r ->
     match r with
     | WKD.AllKeys l =>
         onlyOne = false /\ l = map armor (WKD.survivors email keys) /\ l <> []
     | WKD.OneKey a =>
         onlyOne = true /\
         exists k : openpgp.Key, In k (WKD.survivors email keys) /\ a = armor k
     end)
  /\ (forall k : openpgp.Key,
        In k (WKD.survivors email keys) <->
        exists key : openpgp.Key,
          In key keys /\
          k = openpgp.setUsers key
                (filter (WKD.matches email) (openpgp.users key)) /\
          openpgp.users k <> [])
  /\ (forall user : openpgp.User,
        WKD.matches email user = true <->
        exists uid : openpgp.UserId,
          openpgp.userId user = Some uid /\
          toLowerCase (mvelo.email (mapKeyUserIds (openpgp.userid uid)))
          = toLowerCase email)
  /\ (WKD.survivors email keys = [] ->
      exists msg : string,
        WKD.parseKeysForEMail data email onlyOne = Throw (Error msg))
  /\ (openpgp.err (key_read data) = None ->
      WKD.onlyUserIds keys = true ->
      WKD.survivors email keys <> [] ->
      exists r : WKD.armoredKeys,
        WKD.parseKeysForEMail data email onlyOne = Ok r).
Proof.
  intros keys. unfold WKD.parseKeysForEMail. fold keys.
  rewrite selectKeys_eq.
  repeat apply conj.
  - intros r H.
    destruct (openpgp.err (key_read data)); [discriminate H|].
    destruct (WKD.onlyUserIds keys); [|discriminate H].
    destruct onlyOne.
    + destruct (fold_left WKD.pick (WKD.survivors email keys) None) as [c|] eqn:Hc;
        [|discriminate H].
      inversion H; subst. split; [reflexivity|].
      exists c. split; [|reflexivity].
      apply (fold_pick_None_best _ _ Hc).
    + destruct (WKD.survivors email keys) as [|k kept] eqn:Hs; [discriminate H|].
      inversion H; subst. repeat split. discriminate.
  - intros k. apply survivors_spec.
  - intros user. unfold WKD.matches, WKD.sameAddress.
    destruct (openpgp.userId user) as [uid|]; split.
    + intros H. exists uid. split; [reflexivity|]. apply String.eqb_eq, H.
    + intros (uid' & Hu & H). inversion Hu; subst. apply String.eqb_eq, H.
    + discriminate.
    + intros (uid' & Hu & _). discriminate Hu.
  - intros Hs. rewrite Hs.
    destruct (openpgp.err (key_read data)); [eexists; reflexivity|].
    destruct (WKD.onlyUserIds keys), onlyOne; simpl; eexists; reflexivity.
  - intros He Hu Hs. rewrite He, Hu.
    destruct onlyOne.
    + destruct (fold_left WKD.pick (WKD.survivors email keys) None) as [c|] eqn:Hc.
      * eexists; reflexivity.
      * apply pick_None in Hc. contradiction.
    + destruct (WKD.survivors email keys); [contradiction|].
      eexists; reflexivity.
Qed.

(** C5. With [onlyOne], the key [parseKeysForEMail] returns is a surviving
    key that is at least as good as every surviving key: it is valid if any
    of them is, and no surviving key of the same validity was created later.
    In particular, of two surviving keys one of which is valid and the other
    not, the valid one is returned, and of two keys of the same validity the
    one created later. *)
Theorem parseKeysForEMail_onlyOne_best (data : list byte) (email : string) :
  let keys := openpgp.keys (key_read data) in
  (forall r : WKD.armoredKeys,
     WKD.parseKeysForEMail data email true = Ok r ->
     exists c : openpgp.Key,
       r = WKD.OneKey (armor c) /\
       In c (WKD.survivors email keys) /\
       forall k : openpgp.Key,
         In k (WKD.survivors email keys) -> WKD.atLeastAsGood c k)
  /\ (forall a b : openpgp.Key,
        openpgp.err (key_read data) = None ->
        WKD.onlyUserIds keys = true ->
        WKD.survivors email keys = [a; b] \/ WKD.survivors email keys = [b; a] ->
        WKD.isValid a = false ->
        WKD.isValid b = true ->
        WKD.parseKeysForEMail data email true = Ok (WKD.OneKey (armor b)))
  /\ (forall a b : openpgp.Key,
        openpgp.err (key_read data) = None ->
        WKD.onlyUserIds keys = true ->
        WKD.survivors email keys = [a; b] \/ WKD.survivors email keys = [b; a] ->
        WKD.isValid a = WKD.isValid b ->
        openpgp.created (openpgp.primaryKey a)
        < openpgp.created (openpgp.primaryKey b) ->
        WKD.parseKeysForEMail data email true = Ok (WKD.OneKey (armor b))).
Proof.
  intros keys. unfold WKD.parseKeysForEMail. fold keys.
  rewrite selectKeys_eq.
  repeat apply conj.
  - intros r H.
    destruct (openpgp.err (key_read data)); [discriminate H|].
    destruct (WKD.onlyUserIds keys); [|discriminate H].
    destruct (fold_left WKD.pick (WKD.survivors email keys) None) as [c|] eqn:Hc;
      [|discriminate H].
    inversion H; subst. exists c. split; [reflexivity|].
    apply (fold_pick_None_best _ _ Hc).
  - intros a b He Hu Hs Ha Hb. rewrite He, Hu.
    destruct Hs as [-> | ->]; simpl; unfold WKD.prefer; rewrite Ha, Hb;
      reflexivity.
  - intros a b He Hu Hs Hv Hlt. rewrite He, Hu.
    destruct Hs as [-> | ->]; simpl; unfold WKD.prefer; rewrite Hv;
      destruct (WKD.isValid b); simpl;
      [ destruct (Z.ltb_spec (openpgp.created (openpgp.primaryKey a))
                             (openpgp.created (openpgp.primaryKey b)))
      | destruct (Z.ltb_spec (openpgp.created (openpgp.primaryKey a))
                             (openpgp.created (openpgp.primaryKey b)))
      | destruct (Z.ltb_spec (openpgp.created (openpgp.primaryKey b))
                             (openpgp.created (openpgp.primaryKey a)))
      | destruct (Z.ltb_spec (openpgp.created (openpgp.primaryKey b))
                             (openpgp.created (openpgp.primaryKey a))) ];
      (reflexivity || lia).
Qed.

End ParseKeys.

(** ** timeout and lookup *)

Section Lookup.

Context {rt : Runtime} {pgp : OpenPGP} {km : KeyModule}.

Lemma schedule_late {A : Type} (ms : Z) (p : WKD.promise A) :
  WKD.late ms p -> fst (WKD.schedule ms p) = WKD.TimerFired.
Proof.
  destruct p as [after r|]; simpl; [|reflexivity].
  intros H. destruct (Z.ltb_spec after ms); [lia | reflexivity].
Qed.

(** Later callbacks do not change how the returned promise settled. *)
Lemma ignore_outcome {A : Type} (events : list (WKD.event A)) :
  forall s : WKD.race A,
    WKD.outcome (fold_left WKD.ignore events s) = WKD.outcome s.
Proof.
  induction events as [|e events IH]; intros s; simpl; [reflexivity|].
  rewrite IH. destruct e; reflexivity.
Qed.

Lemma timeout_atSettlement {A : Type} (ms : Z) (p : WKD.promise A) :
  WKD.timeout ms p = WKD.outcome (WKD.atSettlement ms p).
Proof. apply ignore_outcome. Qed.

Lemma timeout_late {A : Type} (ms : Z) (p : WKD.promise A) :
  WKD.late ms p -> WKD.timeout ms p = Throw (Error "WKD: Timeout").
Proof.
  intros H. rewrite timeout_atSettlement. unfold WKD.atSettlement.
  rewrite (schedule_late ms p H). reflexivity.
Qed.

(** What [lookup] does once the address has passed the checks made before
    the request. *)
Lemma lookup_stages (this : WKD.WKDLocate)
    (fetch : string -> WKD.promise WKD.Response)
    (email localPart domain url : string) (onlyOne : bool) :
  email <> "" ->
  RegExp.exec email = Some (localPart, domain) ->
  WKD.checkBlacklist (WKD.blacklist this) domain = Ok tt ->
  WKD.buildWKDUrl email = Ok url ->
  WKD.lookup this fetch (Some email) onlyOne
  = (let* res := WKD.timeout (WKD.TIMEOUT this * 1000) (fetch url) in
     let* data := WKD.sizeLimitResponse res (WKD.SIZE_LIMIT this * 1024) in
     WKD.parseKeysForEMail data email onlyOne).
Proof.
  intros He Hx Hb Hu. unfold WKD.lookup.
  apply String.eqb_neq in He. rewrite He, Hx, Hb, Hu. reflexivity.
Qed.

(** C3, as amended.  When the request of a lookup has not completed 5000 ms
    after it was made, the lookup fails with the timeout error, whatever the
    response that arrives later is: nothing of it is used.  The timer has
    run by then, but the request itself is not abandoned: it is still
    outstanding when the lookup fails. *)
Theorem lookup_timeout (wkd_blacklist : option (list string))
    (fetch : string -> WKD.promise WKD.Response)
    (email localPart domain url : string) (onlyOne : bool) :
  let this := WKD.new wkd_blacklist in
  let ms := WKD.TIMEOUT this * 1000 in
  email <> "" ->
  RegExp.exec email = Some (localPart, domain) ->
  WKD.checkBlacklist (WKD.blacklist this) domain = Ok tt ->
  WKD.buildWKDUrl email = Ok url ->
  WKD.late 5000 (fetch url) ->
  ms = 5000
  /\ WKD.lookup this fetch (Some email) onlyOne = Throw (Error "WKD: Timeout")
  /\ WKD.outcome (WKD.afterwards ms (fetch url)) = Throw (Error "WKD: Timeout")
  /\ WKD.timerOutstanding (WKD.atSettlement ms (fetch url)) = false
  /\ WKD.promiseOutstanding (WKD.atSettlement ms (fetch url)) = true.
Proof.
  intros this ms He Hx Hb Hu Hlate.
  assert (Hms : ms = 5000) by reflexivity.
  split; [exact Hms|]. rewrite Hms. clear Hms. clearbody ms.
  repeat split.
  - rewrite (lookup_stages this fetch email localPart domain url onlyOne
               He Hx Hb Hu).
    change (WKD.TIMEOUT this * 1000) with 5000.
    rewrite (timeout_late 5000 _ Hlate). reflexivity.
  - apply (timeout_late 5000 _ Hlate).
  - unfold WKD.atSettlement. rewrite (schedule_late 5000 _ Hlate). reflexivity.
  - unfold WKD.atSettlement. rewrite (schedule_late 5000 _ Hlate). reflexivity.
Qed.

End Lookup.

(** ** AutoLocate.locate *)

Lemma askKeyserver_actions (w : AutoLocate.World) (options : AutoLocate.Options)
    (x : AutoLocate.action) :
  In x (fst (AutoLocate.askKeyserver w options)) ->
  x = AutoLocate.KeyserverLookup options \/ exists text, x = AutoLocate.ConsoleLog text.
Proof.
  unfold AutoLocate.askKeyserver.
  destruct (AutoLocate.mvelo_tofu_lookup w); [|intros []].
  destruct (AutoLocate.keyserverLookup w options); simpl;
    intuition (subst; eauto).
Qed.

Lemma askDirectory_actions (w : AutoLocate.World) (options : AutoLocate.Options)
    (armored : AutoLocate.armoredValue) (x : AutoLocate.action) :
  In x (fst (AutoLocate.askDirectory w options armored)) ->
  x = AutoLocate.DirectoryLookup (AutoLocate.email options) true
  \/ exists text, x = AutoLocate.ConsoleLog text.
Proof.
  unfold AutoLocate.askDirectory.
  destruct (_ && _); [|intros []].
  destruct (AutoLocate.directoryLookup w _ true); simpl;
    intuition (subst; eauto).
Qed.

Lemma askDirectory_attempted (w : AutoLocate.World) (options : AutoLocate.Options)
    (armored : AutoLocate.armoredValue) :
  In (AutoLocate.DirectoryLookup (AutoLocate.email options) true)
     (fst (AutoLocate.askDirectory w options armored))
  <-> AutoLocate.isTruthy armored = false /\
      truthy (AutoLocate.email options) = true /\
      AutoLocate.wkd_lookup w = true.
Proof.
  unfold AutoLocate.askDirectory.
  destruct (AutoLocate.isTruthy armored), (truthy (AutoLocate.email options)),
    (AutoLocate.wkd_lookup w); simpl;
    try (split; [intros [] | intros (? & ? & ?); discriminate]).
  destruct (AutoLocate.directoryLookup w _ true); simpl; intuition.
Qed.

Lemma locate_eq (w : AutoLocate.World) (options : AutoLocate.Options) :
  AutoLocate.locate w options
  = let asked :=
      fst (AutoLocate.askKeyserver w options)
        ++ fst (AutoLocate.askDirectory w options
                  (snd (AutoLocate.askKeyserver w options))) in
    let armored := AutoLocate.obtained w options in
    if AutoLocate.isTruthy armored then
      (asked
         ++ [AutoLocate.ConsoleLog
               ("Importing " ++ String "010" (AutoLocate.toString armored));
             AutoLocate.ImportKeys mvelo.MAIN_KEYRING_ID
               (AutoLocate.toImport armored)],
       AutoLocate.importKeys w mvelo.MAIN_KEYRING_ID
         (AutoLocate.toImport armored))
    else (asked, Ok tt).
Proof.
  unfold AutoLocate.locate, AutoLocate.obtained.
  destruct (AutoLocate.askKeyserver w options) as [asked1 armored1]. simpl.
  destruct (AutoLocate.askDirectory w options armored1) as [asked2 armored2].
  simpl. rewrite !app_assoc. reflexivity.
Qed.


(** ** KeyringBase.getKeyData *)

Section GetKeyData.

Context {rt : Runtime} {pgp : OpenPGP} {km : KeyModule}.

Lemma getKeyData_keys (id : string) (allUsers : bool) :
  forall allKeys : list openpgp.Key,
    KeyringBase.getKeyData id allKeys allUsers
    = map (KeyringBase.keyDataOf allUsers)
          (filter (fun key => negb (KeyringBase.skipped id key)) allKeys).
Proof.
  induction allKeys as [|key rest IH]; simpl; [reflexivity|].
  destruct (KeyringBase.skipped id key); simpl; rewrite IH; reflexivity.
Qed.

(** The users collected by the branch for all user ids have an email
    address. *)
Lemma collectUsers_email (primaryKey : openpgp.PublicKey) :
  forall (keyUsers : list openpgp.User) (users : list mvelo.MappedUser),
    (forall u, In u users -> mvelo.email u <> "") ->
    forall u, In u (KeyringBase.collectUsers primaryKey keyUsers users) ->
              mvelo.email u <> "".
Proof.
  induction keyUsers as [|keyUser rest IH]; intros users Hu; simpl;
    [exact Hu|].
  destruct (openpgp.userId keyUser) as [uid|]; [|apply IH; exact Hu].
  destruct (openpgp.keyStatus_eqb _ _); [|apply IH; exact Hu].
  destruct (existsb _ users); [apply IH; exact Hu|].
  destruct (String.eqb_spec (mvelo.email (mapKeyUserIds (openpgp.userid uid))) "")
    as [He|He]; [apply IH; exact Hu|].
  apply IH. intros u Hin. apply in_app_iff in Hin.
  destruct Hin as [Hin | [<- | []]]; [apply Hu; exact Hin | exact He].
Qed.

(** C9, as amended.  [getKeyData] has one entry for every key of the key
    store that neither verifies as invalid nor is pseudo-revoked for the
    keyring, in the order of the key store, and none for the others.
    Without the option for all user ids an entry carries exactly one
    identity, the primary one, whether it has an email address or not; with
    the option, the identities without email address are left out. *)
Theorem getKeyData_spec (id : string) (allKeys : list openpgp.Key)
    (allUsers : bool) :
  map KeyringBase.key (KeyringBase.getKeyData id allKeys allUsers)
  = filter (fun key =>
              negb (openpgp.keyStatus_eqb (verifyPrimaryKey key) openpgp.invalid)
              && negb (isKeyPseudoRevoked id key))
           allKeys
  /\ (forall d : KeyringBase.KeyData,
        In d (KeyringBase.getKeyData id allKeys allUsers) ->
        verifyPrimaryKey (KeyringBase.key d) <> openpgp.invalid /\
        isKeyPseudoRevoked id (KeyringBase.key d) = false)
  /\ (allUsers = false ->
      forall d : KeyringBase.KeyData,
        In d (KeyringBase.getKeyData id allKeys allUsers) ->
        KeyringBase.users d = [mapKeyUserIds (getUserId (KeyringBase.key d))])
  /\ (allUsers = true ->
      forall (d : KeyringBase.KeyData) (u : mvelo.MappedUser),
        In d (KeyringBase.getKeyData id allKeys allUsers) ->
        In u (KeyringBase.users d) -> mvelo.email u <> "").
Proof.
  rewrite getKeyData_keys.
  assert (Hskip : forall key,
            negb (KeyringBase.skipped id key)
            = negb (openpgp.keyStatus_eqb (verifyPrimaryKey key) openpgp.invalid)
              && negb (isKeyPseudoRevoked id key)).
  { intros key. unfold KeyringBase.skipped. apply negb_orb. }
  repeat apply conj.
  - rewrite map_map. simpl. rewrite map_id.
    apply filter_ext. exact Hskip.
  - intros d Hd. apply in_map_iff in Hd. destruct Hd as (key & <- & Hk).
    apply filter_In in Hk. destruct Hk as [_ Hk]. rewrite Hskip in Hk.
    apply andb_true_iff in Hk. destruct Hk as [Hv Hp].
    apply negb_true_iff in Hv, Hp. simpl. split; [|exact Hp].
    intros Heq. rewrite Heq in Hv. discriminate Hv.
  - intros -> d Hd. apply in_map_iff in Hd. destruct Hd as (key & <- & _).
    reflexivity.
  - intros -> d u Hd Hu. apply in_map_iff in Hd. destruct Hd as (key & <- & _).
    simpl in Hu. revert u Hu. apply collectUsers_email. intros u [].
Qed.

End GetKeyData.

(** ** sortAndDeDup and getPublicKeyFprs *)

Lemma compare_Eq (x y : string) : Fpr.compare x y = Eq -> x = y.
Proof.
  intros H. destruct (Fpr.compare_spec x y); [assumption | discriminate..].
Qed.

Lemma compare_Lt (x y : string) : Fpr.compare x y = Lt -> Fpr.lt x y.
Proof. intros H. exact H. Qed.

Lemma compare_Gt (x y : string) : Fpr.compare x y = Gt -> Fpr.lt y x.
Proof.
  intros H. destruct (Fpr.compare_spec x y); [discriminate.. | assumption].
Qed.

Lemma lt_trans (x y z : string) : Fpr.lt x y -> Fpr.lt y z -> Fpr.lt x z.
Proof. apply Fpr.lt_strorder. Qed.

Lemma lt_irrefl (x : string) : ~ Fpr.lt x x.
Proof. apply Fpr.lt_strorder. Qed.

Lemma insertFpr_In (x z : string) (l : list string) :
  In z (EditorController.insertFpr x l) <-> z = x \/ In z l.
Proof.
  induction l as [|y l IH]; simpl; [intuition|].
  destruct (Fpr.compare x y) eqn:Hc; simpl.
  - apply compare_Eq in Hc. subst. intuition.
  - intuition.
  - rewrite IH. intuition.
Qed.

Lemma sortAndDeDup_In (z : string) (l : list string) :
  In z (EditorController.sortAndDeDup l) <-> In z l.
Proof.
  unfold EditorController.sortAndDeDup.
  induction l as [|x l IH]; simpl; [reflexivity|].
  rewrite insertFpr_In, IH. intuition.
Qed.

Lemma insertFpr_HdRel (a x : string) (l : list string) :
  Fpr.lt a x -> HdRel Fpr.lt a l ->
  HdRel Fpr.lt a (EditorController.insertFpr x l).
Proof.
  intros Hax Hl. destruct l as [|y l]; simpl; [constructor; assumption|].
  inversion Hl; subst.
  destruct (Fpr.compare x y); constructor; assumption.
Qed.

Lemma insertFpr_Sorted (x : string) (l : list string) :
  Sorted Fpr.lt l -> Sorted Fpr.lt (EditorController.insertFpr x l).
Proof.
  induction l as [|y l IH]; intros Hs; simpl.
  - repeat constructor.
  - inversion Hs; subst.
    destruct (Fpr.compare x y) eqn:Hc.
    + assumption.
    + constructor; [assumption|]. constructor. exact Hc.
    + constructor; [apply IH; assumption|].
      apply insertFpr_HdRel; [apply compare_Gt; assumption | assumption].
Qed.

Lemma sortAndDeDup_Sorted (l : list string) :
  Sorted Fpr.lt (EditorController.sortAndDeDup l).
Proof.
  unfold EditorController.sortAndDeDup.
  induction l as [|x l IH]; simpl; [constructor|].
  apply insertFpr_Sorted. assumption.
Qed.

Lemma sortAndDeDup_StronglySorted (l : list string) :
  StronglySorted Fpr.lt (EditorController.sortAndDeDup l).
Proof.
  apply Sorted_StronglySorted; [|apply sortAndDeDup_Sorted].
  intros x y z. apply lt_trans.
Qed.

Lemma StronglySorted_NoDup (l : list string) :
  StronglySorted Fpr.lt l -> NoDup l.
Proof.
  induction 1 as [|x l Hs IH Hall]; constructor; [|assumption].
  intros Hin. rewrite Forall_forall in Hall.
  apply (lt_irrefl x). apply Hall. assumption.
Qed.

(** Two strictly sorted lists with the same elements are equal. *)
Lemma StronglySorted_unique :
  forall l1 l2 : list string,
    StronglySorted Fpr.lt l1 -> StronglySorted Fpr.lt l2 ->
    (forall z, In z l1 <-> In z l2) -> l1 = l2.
Proof.
  induction l1 as [|x l1 IH]; intros l2 H1 H2 Hin.
  - destruct l2 as [|y l2]; [reflexivity|].
    exfalso. apply (Hin y). now left.
  - destruct l2 as [|y l2]; [exfalso; apply (Hin x); now left|].
    inversion H1 as [|? ? Hs1 Hall1]; subst.
    inversion H2 as [|? ? Hs2 Hall2]; subst.
    rewrite Forall_forall in Hall1, Hall2.
    assert (Hxy : x = y).
    { destruct (proj1 (Hin x) (or_introl eq_refl)) as [Hy | Hx]; [now symmetry|].
      destruct (proj2 (Hin y) (or_introl eq_refl)) as [Hy | Hy]; [assumption|].
      exfalso. apply (lt_irrefl x).
      apply (lt_trans x y x); [apply Hall1 | apply Hall2]; assumption. }
    subst y. f_equal. apply IH; try assumption.
    intros z. split; intros Hz.
    + destruct (proj1 (Hin z) (or_intror Hz)) as [Heq | Hz']; [|assumption].
      subst z. exfalso. apply (lt_irrefl x). apply Hall1. assumption.
    + destruct (proj2 (Hin z) (or_intror Hz)) as [Heq | Hz']; [|assumption].
      subst z. exfalso. apply (lt_irrefl x). apply Hall2. assumption.
Qed.

Lemma pushPrimary_In (keyFprs : list string) (primary : option string)
    (z : string) :
  In z (EditorController.pushPrimary keyFprs primary)
  <-> In z keyFprs \/ (primary = Some z /\ z <> "").
Proof.
  unfold EditorController.pushPrimary, truthy.
  destruct primary as [fpr|]; [|intuition discriminate].
  destruct (String.eqb_spec fpr ""); simpl.
  - subst. split; [intuition|]. intros [H | [H Hne]]; [assumption|].
    inversion H; subst. contradiction.
  - rewrite in_app_iff. simpl. split.
    + intros [H | [<- | []]]; [now left | right; split; [reflexivity | assumption]].
    + intros [H | [H _]]; [now left | inversion H; subst; right; now left].
Qed.

(** The buffer [onEditorContainerEncrypt] leaves when it asks for the
    plaintext. *)
Lemma onEditorContainerEncrypt_buffer (w : Editor.World)
    (msg : EditorController.ContainerEncrypt) (c : Editor.Controller) :
  In (Editor.Emit Editor.EditorPort "get-plaintext"
        (Editor.ActionData "encrypt" false))
     (snd (EditorController.run
             (EditorController.onEditorContainerEncrypt w msg) c)) ->
  exists keyFprs : list string,
    Editor.keyFprBuffer
      (snd (fst (EditorController.run
                   (EditorController.onEditorContainerEncrypt w msg) c)))
    = Some (EditorController.sortAndDeDup
              (if Editor.auto_add_primary w
               then EditorController.pushPrimary keyFprs
                      (Editor.getPrimaryKeyFpr w
                         (EditorController.ce_keyringId msg))
               else keyFprs)).
Proof.
  unfold EditorController.run, EditorController.onEditorContainerEncrypt.
  cbv [Editor.bindM Editor.set Editor.perform Editor.this Editor.emitted
       EditorController.setPgpMIME EditorController.setKeyringId
       EditorController.setKeyFprBuffer Editor.keyFprBuffer].
  destruct (existsb _ (EditorController.ce_recipients msg)).
  - simpl. intros [H | []]. discriminate H.
  - simpl. intros _. eexists. reflexivity.
Qed.

(** *** Handlers that do not touch the buffer *)

Lemma keepsBuffer_ret {A} (a : A) : EditorController.keepsBuffer (Editor.ret a).
Proof. intros m. reflexivity. Qed.

Lemma keepsBuffer_throw {A} (e : exn) :
  EditorController.keepsBuffer (@Editor.throw A e).
Proof. intros m. reflexivity. Qed.

Lemma keepsBuffer_get : EditorController.keepsBuffer Editor.get.
Proof. intros m. reflexivity. Qed.

Lemma keepsBuffer_perform (a : Editor.action) :
  EditorController.keepsBuffer (Editor.perform a).
Proof. intros m. reflexivity. Qed.

Lemma keepsBuffer_liftResult {A} (r : result exn A) :
  EditorController.keepsBuffer (Editor.liftResult r).
Proof. intros m. reflexivity. Qed.

Lemma keepsBuffer_set (update : Editor.Controller -> Editor.Controller) :
  (forall c, Editor.keyFprBuffer (update c) = Editor.keyFprBuffer c) ->
  EditorController.keepsBuffer (Editor.set update).
Proof. intros H m. apply H. Qed.

Lemma keepsBuffer_bind {A B} (c : Editor.M A) (k : A -> Editor.M B) :
  EditorController.keepsBuffer c ->
  (forall a, EditorController.keepsBuffer (k a)) ->
  EditorController.keepsBuffer (Editor.bindM c k).
Proof.
  intros Hc Hk m. unfold Editor.bindM.
  specialize (Hc m). destruct (c m) as [[a | e] m']; simpl in *.
  - rewrite Hk. assumption.
  - assumption.
Qed.

Lemma keepsBuffer_tryCatch {A} (c : Editor.M A) (handler : exn -> Editor.M A) :
  EditorController.keepsBuffer c ->
  (forall e, EditorController.keepsBuffer (handler e)) ->
  EditorController.keepsBuffer (Editor.tryCatch c handler).
Proof.
  intros Hc Hh m. unfold Editor.tryCatch.
  specialize (Hc m). destruct (c m) as [[a | e] m']; simpl in *.
  - assumption.
  - rewrite Hh. assumption.
Qed.

Lemma keepsBuffer_when (b : bool) (c : Editor.M unit) :
  EditorController.keepsBuffer c ->
  EditorController.keepsBuffer (Editor.when b c).
Proof.
  intros Hc. destruct b; [assumption | apply keepsBuffer_ret].
Qed.

Create HintDb buffer.

#[local] Hint Resolve keepsBuffer_ret keepsBuffer_throw keepsBuffer_get
  keepsBuffer_perform keepsBuffer_liftResult keepsBuffer_bind
  keepsBuffer_tryCatch keepsBuffer_when : buffer.

(** A handler built from the operations above, case by case. *)
Ltac keeps_buffer :=
  repeat first
    [ progress intros
    | apply keepsBuffer_bind
    | apply keepsBuffer_tryCatch
    | apply keepsBuffer_when
    | apply keepsBuffer_set; intros []; reflexivity
    | solve [auto with buffer]
    | match goal with
      | |- EditorController.keepsBuffer (if ?b then _ else _) => destruct b
      | |- EditorController.keepsBuffer (match ?x with _ => _ end) => destruct x
      end ].

Lemma callUnlockKey_keepsBuffer (w : Editor.World)
    (request : Editor.UnlockRequest) (before : Editor.M unit) :
  EditorController.keepsBuffer before ->
  EditorController.keepsBuffer (EditorController.callUnlockKey w request before).
Proof. intros H. unfold EditorController.callUnlockKey. keeps_buffer. Qed.

Lemma unlockKey_keepsBuffer (w : Editor.World) (key : string) (noCache : bool)
    (reason : string) (sync : bool) :
  EditorController.keepsBuffer
    (EditorController.unlockKey w key noCache reason sync).
Proof.
  unfold EditorController.unlockKey. keeps_buffer.
Qed.

Lemma model_encryptMessage_keepsBuffer (w : Editor.World) (data : string)
    (unlockKey : option (string -> Editor.M string))
    (keyFprs : list string) (signingKeyFpr : option string) :
  (forall f key, unlockKey = Some f -> EditorController.keepsBuffer (f key)) ->
  EditorController.keepsBuffer
    (EditorController.model_encryptMessage w data unlockKey keyFprs signingKeyFpr).
Proof.
  intros H. unfold EditorController.model_encryptMessage.
  destruct signingKeyFpr as [fpr|], unlockKey as [f|]; keeps_buffer.
Qed.

Lemma signAndEncrypt_keepsBuffer (w : Editor.World) (options : Editor.Plaintext) :
  EditorController.keepsBuffer (EditorController.signAndEncrypt w options).
Proof.
  unfold EditorController.signAndEncrypt, EditorController.signAndEncryptMessage,
    EditorController.encryptMessage, EditorController.signMessage,
    EditorController.model_signMessage.
  keeps_buffer;
    try (apply model_encryptMessage_keepsBuffer; intros f key Hf;
         inversion Hf; subst; keeps_buffer;
         apply unlockKey_keepsBuffer).
Qed.

Lemma onEditorPlaintext_keepsBuffer (w : Editor.World)
    (options : Editor.Plaintext) :
  EditorController.keepsBuffer (EditorController.onEditorPlaintext w options).
Proof.
  unfold EditorController.onEditorPlaintext, EditorController.transferEncrypted.
  keeps_buffer. apply signAndEncrypt_keepsBuffer.
Qed.

Lemma onSignOnly_keepsBuffer (w : Editor.World) (signKeyFpr : string) :
  EditorController.keepsBuffer (EditorController.onSignOnly w signKeyFpr).
Proof.
  unfold EditorController.onSignOnly. keeps_buffer.
Qed.

(** Where the sender has the primary key [primary] in every keyring and the
    preference to add it is on, a buffer that is set holds [primary]. *)
Lemma handle_bufferHolds (w : Editor.World) (primary : string)
    (c : Editor.Controller) (r : EditorController.request) :
  Editor.auto_add_primary w = true ->
  (forall keyringId, Editor.getPrimaryKeyFpr w keyringId = Some primary) ->
  primary <> "" ->
  EditorController.bufferHolds primary c ->
  EditorController.bufferHolds primary (EditorController.handle w c r).
Proof.
  intros Hauto Hp Hne Hc. unfold EditorController.handle, EditorController.bufferHolds in *.
  destruct r as [msg | keyringId | signKeyFpr | options];
    cbn [EditorController.handler].
  - unfold EditorController.onEditorContainerEncrypt.
    cbv [Editor.bindM Editor.set Editor.perform Editor.this Editor.emitted snd].
    destruct (existsb _ (EditorController.ce_recipients msg)).
    + cbn. assumption.
    + cbn. rewrite Hauto, Hp.
      apply sortAndDeDup_In, pushPrimary_In. right. split; [reflexivity | assumption].
  - unfold EditorController.onEditorContainerCreateDraft.
    cbv [Editor.bindM Editor.set Editor.perform Editor.this Editor.emitted snd].
    rewrite Hp.
    assert (Ht : truthy (Some primary) = true).
    { unfold truthy. apply String.eqb_neq in Hne. rewrite Hne. reflexivity. }
    rewrite Ht. cbn. left. reflexivity.
  - rewrite onSignOnly_keepsBuffer. assumption.
  - rewrite onEditorPlaintext_keepsBuffer. assumption.
Qed.

Lemma handleAll_bufferHolds (w : Editor.World) (primary : string)
    (requests : list EditorController.request) :
  Editor.auto_add_primary w = true ->
  (forall keyringId, Editor.getPrimaryKeyFpr w keyringId = Some primary) ->
  primary <> "" ->
  forall c : Editor.Controller,
    EditorController.bufferHolds primary c ->
    EditorController.bufferHolds primary (EditorController.handleAll w c requests).
Proof.
  intros Hauto Hp Hne. unfold EditorController.handleAll.
  induction requests as [|r requests IH]; intros c Hc; simpl; [assumption|].
  apply IH. apply handle_bufferHolds; assumption.
Qed.


(** ** onSignOnly *)

Ltac run_handler :=
  cbv [EditorController.run EditorController.onSignOnly
       EditorController.onEditorPlaintext EditorController.signAndEncrypt
       EditorController.signAndEncryptMessage EditorController.encryptMessage
       EditorController.signMessage EditorController.unlockKey
       EditorController.callUnlockKey EditorController.model_encryptMessage
       EditorController.model_signMessage EditorController.transferEncrypted
       Editor.bindM Editor.tryCatch Editor.get Editor.set Editor.perform
       Editor.ret Editor.throw Editor.liftResult Editor.when
       Editor.this Editor.emitted].

Lemma isCancel_code (err : exn) :
  EditorController.isCancel err = true
  <-> exn_code err = Some "PWD_DIALOG_CANCEL".
Proof.
  unfold EditorController.isCancel.
  destruct (exn_code err) as [code|]; [|split; discriminate].
  rewrite String.eqb_eq. split; [intros -> | intros H; inversion H]; reflexivity.
Qed.

(** Case analysis on the conditions a handler tests, one atom at a time. *)
Ltac not_literal b :=
  lazymatch b with
  | true => fail
  | false => fail
  | _ => idtac
  end.

Ltac known_conditions :=
  repeat match goal with
         | H : ?b = true |- context [?b] => not_literal b; rewrite H
         | H : ?b = false |- context [?b] => not_literal b; rewrite H
         end.

Ltac condition_atom b :=
  lazymatch b with
  | andb ?x _ => condition_atom x
  | negb ?x => condition_atom x
  | _ => b
  end.

Ltac by_cases :=
  repeat (cbn; known_conditions;
          match goal with
          | |- context [if ?b then _ else _] =>
              let a := condition_atom b in not_literal a; destruct a eqn:?
          end);
  cbn; known_conditions; reflexivity.

(** What [onSignOnly] does, by the outcome of the unlock. *)
Lemma onSignOnly_run (w : Editor.World) (c : Editor.Controller)
    (signKeyFpr : string) :
  EditorController.run (EditorController.onSignOnly w signKeyFpr) c
  = (Ok tt,
     EditorController.setSignKey (Editor.getPrivateKeyByFpr w signKeyFpr) c,
     EditorController.signOnlyAsked w signKeyFpr ++
       match Editor.settles
               (Editor.unlockKeyDialog w
                  (EditorController.signOnlyRequest w signKeyFpr)) with
       | Ok _ => [EditorController.signRequest]
       | Throw err =>
           if EditorController.isCancel err
           then [Editor.Emit Editor.Self "hide-pwd-dialog" Editor.NoData]
           else [Editor.Emit Editor.Self "error-message"
                   (Editor.ErrorData (Editor.mapError w err));
                 EditorController.signRequest]
       end).
Proof.
  unfold EditorController.signOnlyAsked, EditorController.signOnlyRequest.
  run_handler. cbn [Editor.signKey EditorController.setSignKey].
  destruct (Editor.unlockKeyDialog w _) as [asks [k | err]];
    destruct asks; cbn [Editor.asksPassword Editor.settles];
    try destruct (EditorController.isCancel err); reflexivity.
Qed.

Lemma signOnlyAsked_actions (w : Editor.World) (signKeyFpr : string)
    (a : Editor.action) :
  In a (EditorController.signOnlyAsked w signKeyFpr) ->
  (exists request, a = Editor.UnlockKey request)
  \/ a = Editor.Emit Editor.Self "show-pwd-dialog"
            (Editor.IdData (Editor.pwdControlId w)).
Proof.
  unfold EditorController.signOnlyAsked.
  destruct (Editor.asksPassword _); simpl; intuition (subst; eauto).
Qed.

(** C10.  [onSignOnly] asks the password dialog to unlock the signing key.
    When the dialog rejects with an error whose code is not
    PWD_DIALOG_CANCEL the controller reports the error and then asks for
    the plaintext with the action sign, as it does after a successful
    unlock; when the code is PWD_DIALOG_CANCEL it hides the dialog and does
    not ask.  So the sign request is issued exactly when the unlock was not
    cancelled. *)
Theorem onSignOnly_spec (w : Editor.World) (c : Editor.Controller)
    (signKeyFpr : string) :
  let unlocking :=
    Editor.unlockKeyDialog w (EditorController.signOnlyRequest w signKeyFpr) in
  let actions := snd (EditorController.run
                        (EditorController.onSignOnly w signKeyFpr) c) in
  fst (fst (EditorController.run (EditorController.onSignOnly w signKeyFpr) c))
  = Ok tt
  /\ (forall err : exn,
        Editor.settles unlocking = Throw err ->
        exn_code err <> Some "PWD_DIALOG_CANCEL" ->
        actions
        = EditorController.signOnlyAsked w signKeyFpr
            ++ [Editor.Emit Editor.Self "error-message"
                  (Editor.ErrorData (Editor.mapError w err));
                EditorController.signRequest])
  /\ (forall key : Editor.UnlockedKey,
        Editor.settles unlocking = Ok key ->
        actions
        = EditorController.signOnlyAsked w signKeyFpr
            ++ [EditorController.signRequest])
  /\ (forall err : exn,
        Editor.settles unlocking = Throw err ->
        exn_code err = Some "PWD_DIALOG_CANCEL" ->
        actions
        = EditorController.signOnlyAsked w signKeyFpr
            ++ [Editor.Emit Editor.Self "hide-pwd-dialog" Editor.NoData])
  /\ (In EditorController.signRequest actions <->
      ~ exists err : exn,
          Editor.settles unlocking = Throw err /\
          exn_code err = Some "PWD_DIALOG_CANCEL").
Proof.
  intros unlocking actions.
  subst actions. rewrite onSignOnly_run. cbn [fst snd]. fold unlocking.
  assert (Hasked : ~ In EditorController.signRequest
                        (EditorController.signOnlyAsked w signKeyFpr)).
  { intros H. apply signOnlyAsked_actions in H.
    destruct H as [(request & H) | H]; discriminate H. }
  repeat apply conj.
  - reflexivity.
  - intros err He Hcode. rewrite He.
    destruct (EditorController.isCancel err) eqn:Hc; [|reflexivity].
    apply isCancel_code in Hc. contradiction.
  - intros key Hk. rewrite Hk. reflexivity.
  - intros err He Hcode. rewrite He.
    apply isCancel_code in Hcode. rewrite Hcode. reflexivity.
  - rewrite in_app_iff.
    intros [H | H] (err & He & Hcode); [contradiction|].
    rewrite He in H. apply isCancel_code in Hcode. rewrite Hcode in H.
    destruct H as [H | []]. discriminate H.
  - rewrite in_app_iff. intros Hn. right.
    destruct (Editor.settles unlocking) as [k | err]; [now left|].
    destruct (EditorController.isCancel err) eqn:Hc.
    + exfalso. apply Hn. exists err. split; [reflexivity|].
      apply isCancel_code. assumption.
    + right. now left.
Qed.

(** ** onEditorPlaintext *)

(** What a job that signs and encrypts does when the unlock of the signing
    key is rejected: nothing but the request to the password dialog reaches
    the outside before the error is handled. *)
Lemma onEditorPlaintext_unlock_rejected (w : Editor.World)
    (c : Editor.Controller) (options : Editor.Plaintext) (data fpr : string)
    (err : exn) :
  Editor.action_ options = "encrypt" ->
  Editor.signMsg options = true ->
  Editor.buildMail w options (Editor.pgpMIME c) = Ok (Some data) ->
  EditorController.signingKeyFpr w c options = Some fpr ->
  fpr <> "" ->
  Editor.settles
    (Editor.unlockKeyDialog w (EditorController.signRequestFor w c options fpr))
  = Throw err ->
  EditorController.run (EditorController.onEditorPlaintext w options) c
  = let c1 := EditorController.setEncryptTimer false c in
    let asked := EditorController.signAsked w c options fpr in
    if Editor.editorPopup c && EditorController.isCancel err then
      (Ok tt, c1,
       asked ++ [Editor.Emit Editor.Self "hide-pwd-dialog" Editor.NoData])
    else
      let reported :=
        asked ++ [Editor.ConsoleLog err;
                  Editor.Emit Editor.EditorPort "error-message"
                    (Editor.ErrorData (Editor.mapError w err))] in
      if Editor.editorContPort c then
        (Ok tt, c1,
         reported ++ [Editor.Emit Editor.EditorCont "error-message"
                        (Editor.ErrorData (Editor.mapError w err));
                      Editor.Emit Editor.EditorPort "encrypt-failed" Editor.NoData;
                      Editor.ClearTimeout])
      else if Editor.encryptDone c then
        (Ok tt, c1,
         reported ++ [Editor.Reject (Editor.mapError w err);
                      Editor.Emit Editor.EditorPort "encrypt-failed" Editor.NoData;
                      Editor.ClearTimeout])
      else
        (Throw (TypeError "Cannot read property 'reject' of null"), c1, reported).
Proof.
  intros Ha Hs Hb Hk Hne Hu.
  unfold EditorController.signAsked.
  unfold EditorController.signRequestFor in *.
  unfold EditorController.signingKeyFpr in Hk.
  run_handler.
  rewrite Ha. cbn [String.eqb Ascii.eqb Bool.eqb andb].
  cbn [Editor.pgpMIME]. rewrite Hb, Hs.
  cbn [Editor.keyringId EditorController.setEncryptTimer Editor.reasonOption
       Editor.editorPopup Editor.editorContPort Editor.encryptDone].
  rewrite Hk.
  assert (Ht : truthy (Some fpr) = true).
  { unfold truthy. apply String.eqb_neq in Hne. rewrite Hne. reflexivity. }
  rewrite Ht. cbn [negb].
  destruct (Editor.unlockKeyDialog w _) as [asks settles].
  cbn [Editor.asksPassword Editor.settles] in *. subst settles.
  by_cases.
Qed.

Lemma signOnlyAsked_quiet (w : Editor.World) (signKeyFpr : string) :
  existsb EditorController.isCrypto (EditorController.signOnlyAsked w signKeyFpr)
  = false
  /\ existsb EditorController.isErrorReport
       (EditorController.signOnlyAsked w signKeyFpr) = false.
Proof.
  unfold EditorController.signOnlyAsked.
  destruct (Editor.asksPassword _); split; reflexivity.
Qed.

Lemma signAsked_quiet (w : Editor.World) (c : Editor.Controller)
    (options : Editor.Plaintext) (fpr : string) :
  existsb EditorController.isCrypto (EditorController.signAsked w c options fpr)
  = false
  /\ existsb EditorController.isErrorReport
       (EditorController.signAsked w c options fpr) = false.
Proof.
  unfold EditorController.signAsked.
  destruct (_ && _); split; reflexivity.
Qed.

(** [onEditorPlaintext] by the outcome of [signAndEncrypt]. *)
Lemma onEditorPlaintext_cases (w : Editor.World) (options : Editor.Plaintext)
    (c : Editor.Controller) :
  EditorController.run (EditorController.onEditorPlaintext w options) c
  = match EditorController.run (EditorController.signAndEncrypt w options) c with
    | (Ok armored, c1, performed) =>
        EditorController.handOver w options c1 performed armored
    | (Throw err, c1, performed) =>
        if Editor.editorPopup c1 && EditorController.isCancel err then
          (Ok tt, c1,
           performed ++ [Editor.Emit Editor.Self "hide-pwd-dialog" Editor.NoData])
        else EditorController.reportError w c1 performed err
    end.
Proof.
  unfold EditorController.run, EditorController.onEditorPlaintext,
    EditorController.handOver, EditorController.reportError.
  unfold Editor.tryCatch at 1. unfold Editor.bindM at 1 2.
  destruct (EditorController.signAndEncrypt w options _)
    as [[armored | err] [c1 performed]].
  - destruct c1 as [kid popup cont done timer sk mime reason buf].
    destruct popup, cont, done;
      cbv [EditorController.transferEncrypted
           Editor.bindM Editor.tryCatch Editor.get Editor.set Editor.perform
           Editor.ret Editor.throw Editor.liftResult Editor.when
           Editor.this Editor.emitted
           Editor.editorPopup Editor.editorContPort Editor.encryptDone
           EditorController.setEditorPopup andb];
      rewrite <- ?app_assoc; reflexivity.
  - cbv [Editor.bindM Editor.tryCatch Editor.get Editor.set Editor.perform
         Editor.ret Editor.throw Editor.liftResult Editor.when
         Editor.this Editor.emitted].
    destruct (Editor.editorPopup c1 && EditorController.isCancel err);
      [reflexivity|].
    destruct (Editor.editorContPort c1), (Editor.encryptDone c1);
      rewrite <- ?app_assoc; reflexivity.
Qed.

(** C8, as amended.  When the password dialog rejects the unlock with the
    code PWD_DIALOG_CANCEL: in the sign-only flow the controller hides the
    dialog and does nothing else, so no error is reported and no text to
    sign is asked for; in a job that signs and encrypts, the crypto engine
    is not invoked and the fields of the controller stay as they were but
    for the timer handle, which is reset, and when the editor runs in its
    popup the controller only hides the dialog, while without the popup it
    reports the cancellation as an error to the editor and to the
    container, or rejects the promise of the caller.  And in whatever way
    the signing and encryption come to reject with that code,
    [onEditorPlaintext] does after it what it does after the rejected
    unlock: in the popup it hides the dialog, without the popup it reports
    the error. *)
Theorem unlock_cancelled_spec (w : Editor.World) (c : Editor.Controller) :
  (forall (signKeyFpr : string) (err : exn),
     Editor.settles
       (Editor.unlockKeyDialog w (EditorController.signOnlyRequest w signKeyFpr))
     = Throw err ->
     exn_code err = Some "PWD_DIALOG_CANCEL" ->
     let actions := snd (EditorController.run
                           (EditorController.onSignOnly w signKeyFpr) c) in
     EditorController.run (EditorController.onSignOnly w signKeyFpr) c
     = (Ok tt,
        EditorController.setSignKey (Editor.getPrivateKeyByFpr w signKeyFpr) c,
        EditorController.signOnlyAsked w signKeyFpr
          ++ [Editor.Emit Editor.Self "hide-pwd-dialog" Editor.NoData])
     /\ existsb EditorController.isCrypto actions = false
     /\ existsb EditorController.isErrorReport actions = false)
  /\ (forall (options : Editor.Plaintext) (data fpr : string) (err : exn),
        Editor.action_ options = "encrypt" ->
        Editor.signMsg options = true ->
        Editor.buildMail w options (Editor.pgpMIME c) = Ok (Some data) ->
        EditorController.signingKeyFpr w c options = Some fpr ->
        fpr <> "" ->
        Editor.settles
          (Editor.unlockKeyDialog w
             (EditorController.signRequestFor w c options fpr))
        = Throw err ->
        exn_code err = Some "PWD_DIALOG_CANCEL" ->
        let actions := snd (EditorController.run
                              (EditorController.onEditorPlaintext w options) c) in
        let asked := EditorController.signAsked w c options fpr in
        let error := Editor.mapError w err in
        existsb EditorController.isCrypto actions = false
        /\ snd (fst (EditorController.run
                       (EditorController.onEditorPlaintext w options) c))
           = EditorController.setEncryptTimer false c
        /\ (Editor.editorPopup c = true ->
            fst (fst (EditorController.run
                        (EditorController.onEditorPlaintext w options) c))
            = Ok tt /\
            actions
            = asked ++ [Editor.Emit Editor.Self "hide-pwd-dialog" Editor.NoData] /\
            existsb EditorController.isErrorReport actions = false)
        /\ (Editor.editorPopup c = false ->
            exists reported : list Editor.action,
              actions
              = asked ++ [Editor.ConsoleLog err;
                          Editor.Emit Editor.EditorPort "error-message"
                            (Editor.ErrorData error)]
                  ++ reported /\
              (Editor.editorContPort c = true ->
               reported
               = [Editor.Emit Editor.EditorCont "error-message"
                    (Editor.ErrorData error);
                  Editor.Emit Editor.EditorPort "encrypt-failed" Editor.NoData;
                  Editor.ClearTimeout]) /\
              (Editor.editorContPort c = false ->
               Editor.encryptDone c = true ->
               reported
               = [Editor.Reject error;
                  Editor.Emit Editor.EditorPort "encrypt-failed" Editor.NoData;
                  Editor.ClearTimeout])))
  /\ (forall (options : Editor.Plaintext) (err : exn)
             (c1 : Editor.Controller) (performed : list Editor.action),
        EditorController.run (EditorController.signAndEncrypt w options) c
        = (Throw err, c1, performed) ->
        exn_code err = Some "PWD_DIALOG_CANCEL" ->
        EditorController.run (EditorController.onEditorPlaintext w options) c
        = if Editor.editorPopup c1
          then (Ok tt, c1,
                performed
                  ++ [Editor.Emit Editor.Self "hide-pwd-dialog" Editor.NoData])
          else EditorController.reportError w c1 performed err).
Proof.
  split; [|split].
  - intros signKeyFpr err He Hcode actions. subst actions.
    rewrite onSignOnly_run, He.
    apply isCancel_code in Hcode. rewrite Hcode. cbn [snd].
    destruct (signOnlyAsked_quiet w signKeyFpr) as [H1 H2].
    rewrite !existsb_app, H1, H2. repeat split.
  - intros options data fpr err Ha Hs Hb Hk Hne Hu Hcode actions asked error.
    subst actions.
    rewrite (onEditorPlaintext_unlock_rejected w c options data fpr err
               Ha Hs Hb Hk Hne Hu).
    apply isCancel_code in Hcode. rewrite Hcode, andb_true_r. cbv zeta.
    fold asked. fold error.
    destruct (signAsked_quiet w c options fpr) as [H1 H2]. fold asked in H1, H2.
    destruct (Editor.editorPopup c), (Editor.editorContPort c),
      (Editor.encryptDone c); cbn [fst snd];
      rewrite ?existsb_app, ?H1, ?H2;
      (repeat apply conj; try reflexivity; try discriminate;
       intros _; eexists; rewrite <- ?app_assoc;
       repeat apply conj; try reflexivity; try discriminate;
       intros; reflexivity).
  - intros options err c1 performed Hrun Hcode.
    rewrite onEditorPlaintext_cases, Hrun.
    apply isCancel_code in Hcode. rewrite Hcode, andb_true_r. reflexivity.
Qed.

(** ** Further properties *)

Lemma groups_shape :
  forall (n : nat) (bits : list bool),
    (List.length bits <= n)%nat ->
    List.length (ZBase32Spec.groups bits) = ((List.length bits + 4) / 5)%nat /\
    Forall (fun g => List.length g = 5%nat) (ZBase32Spec.groups bits).
Proof.
  induction n as [|n IH]; intros bits Hn.
  - destruct bits; [|simpl in Hn; lia]. split; [reflexivity | constructor].
  - destruct bits as [|b0 [|b1 [|b2 [|b3 [|b4 rest]]]]];
      try (split; [reflexivity | repeat constructor]).
    simpl in Hn. destruct (IH rest) as [Hlen Hall]; [lia|].
    split.
    + change (List.length (ZBase32Spec.groups (b0 :: b1 :: b2 :: b3 :: b4 :: rest)))
        with (S (List.length (ZBase32Spec.groups rest))).
      rewrite Hlen. simpl List.length.
      replace (S (S (S (S (S (List.length rest))))) + 4)%nat
        with (1 * 5 + (List.length rest + 4))%nat by lia.
      rewrite Nat.div_add_l by lia. reflexivity.
    + constructor; [reflexivity | assumption].
Qed.

Lemma symbol_in_alphabet (g : list bool) :
  List.length g = 5%nat -> In (ZBase32Spec.symbol g) ZBase32Spec.alphabet.
Proof.
  intros Hg.
  do 5 (destruct g as [|? g]; [discriminate Hg|]).
  destruct g; [|discriminate Hg].
  repeat match goal with b : bool |- _ => destruct b end;
    vm_compute; tauto.
Qed.

Lemma bitsOf_length (data : list byte) :
  List.length (ZBase32Spec.bitsOf data) = (8 * List.length data)%nat.
Proof.
  induction data as [|d data IH]; [reflexivity|].
  rewrite bitsOf_cons, length_app, bitsOfByte_length, IH. simpl List.length. lia.
Qed.

Lemma string_of_list_ascii_length (l : list ascii) :
  String.length (string_of_list_ascii l) = List.length l.
Proof.
  induction l as [|c l IH]; simpl; [reflexivity | now rewrite IH].
Qed.

(** X1.  The encoding has one character for every five bits of the input,
    rounded up, and every character is one of the alphabet: there is no
    padding character. *)
Lemma encodeZBase32_length_alphabet (data : list byte) :
  String.length (ZBase32.encodeZBase32 data)
  = ((8 * List.length data + 4) / 5)%nat
  /\ Forall (fun c => In c ZBase32Spec.alphabet)
        (list_ascii_of_string (ZBase32.encodeZBase32 data)).
Proof.
  rewrite encodeZBase32_correct. unfold ZBase32Spec.encode.
  destruct (groups_shape (List.length (ZBase32Spec.bitsOf data))
              (ZBase32Spec.bitsOf data) (le_n _)) as [Hlen Hall].
  split.
  - rewrite string_of_list_ascii_length, length_map, Hlen, bitsOf_length.
    reflexivity.
  - rewrite list_ascii_of_string_of_list_ascii.
    apply Forall_map. revert Hall. apply Forall_impl.
    intros g. apply symbol_in_alphabet.
Qed.

Section Blacklist.

Context {rt : Runtime} {pgp : OpenPGP} {km : KeyModule}.

Lemma checkBlacklist_listed (items : list string) (domain : string) :
  (exists item, In item items /\ toLowerCase item = toLowerCase domain) ->
  WKD.checkBlacklist items domain = Throw (Error "WKD: Skipping blacklisted domain.").
Proof.
  intros (item & Hin & Heq).
  induction items as [|x items IH]; [contradiction|].
  simpl. destruct (String.eqb_spec (toLowerCase x) (toLowerCase domain));
    [reflexivity|].
  destruct Hin as [-> | Hin]; [contradiction | apply IH; assumption].
Qed.

(** X4.  A lookup for an address whose domain is on the blacklist, compared
    without regard to case, fails whatever the network would answer. *)
Lemma lookup_blacklisted (this : WKD.WKDLocate)
    (fetch : string -> WKD.promise WKD.Response)
    (email localPart domain : string) (onlyOne : bool) :
  email <> "" ->
  RegExp.exec email = Some (localPart, domain) ->
  (exists item, In item (WKD.blacklist this)
                /\ toLowerCase item = toLowerCase domain) ->
  WKD.lookup this fetch (Some email) onlyOne
  = Throw (Error "WKD: Skipping blacklisted domain.").
Proof.
  intros He Hx Hb. unfold WKD.lookup.
  apply String.eqb_neq in He. rewrite He, Hx.
  rewrite (checkBlacklist_listed _ _ Hb). reflexivity.
Qed.

End Blacklist.

(** X6.  When the wrapped promise settles before the timer is due, [timeout]
    settles as the promise does, and the timer is left running: it is never
    cleared. *)
Lemma timeout_in_time {A : Type} (ms after : Z) (r : result exn A) :
  after < ms ->
  WKD.timeout ms (WKD.Settles after r) = r
  /\ WKD.timerOutstanding (WKD.atSettlement ms (WKD.Settles after r)) = true
  /\ WKD.timerOutstanding (WKD.afterwards ms (WKD.Settles after r)) = false.
Proof.
  intros H. unfold WKD.timeout, WKD.afterwards, WKD.atSettlement, WKD.schedule.
  destruct (Z.ltb_spec after ms); [|lia].
  repeat split.
Qed.

(** X22.  A recipient without key: [onEditorContainerEncrypt] reports the error
    to the container and does not ask for the plaintext, and the buffer is
    left as it was. *)
Lemma onEditorContainerEncrypt_no_key (w : Editor.World)
    (msg : EditorController.ContainerEncrypt) (c : Editor.Controller)
    (recipient : string) :
  In recipient (EditorController.ce_recipients msg) ->
  Editor.keyFprsForAddress w (EditorController.ce_keyringId msg) recipient = None ->
  EditorController.run (EditorController.onEditorContainerEncrypt w msg) c
  = (Ok tt,
     EditorController.setKeyringId (EditorController.ce_keyringId msg)
       (EditorController.setPgpMIME true c),
     [Editor.Emit Editor.EditorCont "error-message"
        (Editor.ErrorData
           {| mvelo.message := "No valid encryption key for recipient address";
              mvelo.code := "NO_KEY_FOR_RECIPIENT" |})]).
Proof.
  intros Hin Hnone.
  unfold EditorController.run, EditorController.onEditorContainerEncrypt.
  cbv [Editor.bindM Editor.set Editor.perform Editor.this Editor.emitted].
  assert (He : existsb
                 (fun recipient =>
                    match Editor.keyFprsForAddress w
                            (EditorController.ce_keyringId msg) recipient with
                    | Some _ => false
                    | None => true
                    end)
                 (EditorController.ce_recipients msg) = true).
  { apply existsb_exists. exists recipient. rewrite Hnone. split; [assumption|].
    reflexivity. }
  rewrite He. reflexivity.
Qed.

(** A job that signs without signing key: neither the editor names one nor
    has the keyring a primary key.  The job fails with the code
    NO_PRIMARY_KEY_FOUND before the password dialog or the crypto engine is
    called. *)
Lemma signAndEncryptMessage_no_key (w : Editor.World) (c : Editor.Controller)
    (data : string) (signKeyFpr : option string) (keyFprs : list string)
    (noCache : bool) :
  truthy signKeyFpr = false ->
  truthy (Editor.getPrimaryKeyFpr w (Editor.keyringId c)) = false ->
  EditorController.run
    (EditorController.signAndEncryptMessage w data signKeyFpr keyFprs noCache) c
  = (Throw (MveloError "No primary key found" "NO_PRIMARY_KEY_FOUND"),
     EditorController.setEncryptTimer false c, []).
Proof.
  intros H1 H2.
  unfold EditorController.run, EditorController.signAndEncryptMessage.
  cbv [Editor.bindM Editor.set Editor.get Editor.throw Editor.this Editor.emitted].
  rewrite H1. cbn [Editor.keyringId EditorController.setEncryptTimer].
  rewrite H2. reflexivity.
Qed.

(** ** Examples *)

Example sha1_abc :
  Examples.SHA1.ofString "abc"
  = [xa9; x99; x3e; x36; x47; x06; x81; x6a; xba; x3e;
     x25; x71; x78; x50; xc2; x6c; x9c; xd0; xd8; x9d].
Proof. vm_compute. reflexivity. Qed.

Example sha1_long :
  Examples.SHA1.ofString
    "aaaaaaaaaaaaaaaaaaaaaaaaaaaaaaaaaaaaaaaaaaaaaaaaaaaaaaaaaaaaaaaaaaaaaa"
  = [xed; x6c; x69; xd9; xe8; xb4; x37; x3a; xf8; x63;
     x03; xdf; xaa; x35; x28; xdf; xbc; x12; x99; x02].
Proof. vm_compute. reflexivity. Qed.

(** The example of the Web Key Directory draft. *)
Example buildWKDUrl_joe_doe :
  WKD.buildWKDUrl (rt := Examples.runtime) "Joe.Doe@Example.ORG"
  = Ok "https://Example.ORG/.well-known/openpgpkey/hu/iy9q119eutrkn8s1mk4r39qejnbu3n5q".
Proof. vm_compute. reflexivity. Qed.

Example buildWKDUrl_no_local_part :
  WKD.buildWKDUrl (rt := Examples.runtime) "@example.org"
  = Throw (Error "WKD: failed to parse: @example.org").
Proof. vm_compute. reflexivity. Qed.

Example buildWKDUrl_no_at_sign :
  WKD.buildWKDUrl (rt := Examples.runtime) "example.org" = Throw nullNotIterable.
Proof. vm_compute. reflexivity. Qed.

(** The expression splits at the last at sign of the line. *)
Example exec_two_at_signs :
  RegExp.exec "a@b@c" = Some ("a@b", "c").
Proof. reflexivity. Qed.

Lemma buildWKDUrl_spec_witness :
  WKD.buildWKDUrl (rt := Examples.runtime) ("Joe.Doe" ++ "@" ++ "Example.ORG")%string
  = Ok ("https://" ++ "Example.ORG" ++ "/.well-known/openpgpkey/hu/"
          ++ ZBase32Spec.encode
               (@sha1 Examples.runtime
                  (@toLowerCase Examples.runtime "Joe.Doe")))%string.
Proof.
  exact (proj1 (buildWKDUrl_spec (rt := Examples.runtime)
                  "Joe.Doe" "Example.ORG" eq_refl eq_refl eq_refl)
               ltac:(discriminate) ltac:(discriminate)).
Defined.

Example parseKeysForEMail_all :
  WKD.parseKeysForEMail (rt := Examples.runtime) (pgp := Examples.openpgpjs)
    (km := Examples.keyModule) [x01] "alice@example.org" false
  = Ok (WKD.AllKeys
          [Examples.armorKey (Examples.key "AAAAAAAAAAAAAAAAAAAAAAAAAAAAAAAAAAAAAAA1" 1000
                    [Examples.user "Alice <alice@example.org>" [[x00]]]);
           Examples.armorKey Examples.aliceNew]).
Proof. vm_compute. reflexivity. Qed.

Example parseKeysForEMail_one :
  WKD.parseKeysForEMail (rt := Examples.runtime) (pgp := Examples.openpgpjs)
    (km := Examples.keyModule) [x01] "alice@example.org" true
  = Ok (WKD.OneKey (Examples.armorKey Examples.aliceNew)).
Proof. vm_compute. reflexivity. Qed.

Example parseKeysForEMail_no_match :
  WKD.parseKeysForEMail (rt := Examples.runtime) (pgp := Examples.openpgpjs)
    (km := Examples.keyModule) [x02] "alice@example.org" false
  = Throw (Error "WKD: Error handling keys: 'Error: WKD: Failed to parse any matching key from the result (bad server)'").
Proof. vm_compute. reflexivity. Qed.

(** A request that never completes: the lookup fails with the timeout
    error, and the request is outstanding when it fails and ever after.
    So a pending network operation is left behind. *)
Lemma lookup_timeout_leaves_request_outstanding :
  WKD.lookup (rt := Examples.runtime) (pgp := Examples.openpgpjs)
    (km := Examples.keyModule) (WKD.new None) (fun _ => WKD.Pending)
    (Some "joe.doe@example.org") true
  = Throw (Error "WKD: Timeout")
  /\ WKD.promiseOutstanding
       (WKD.atSettlement 5000 (@WKD.Pending WKD.Response)) = true
  /\ WKD.promiseOutstanding
       (WKD.afterwards 5000 (@WKD.Pending WKD.Response)) = true.
Proof. vm_compute. repeat split; reflexivity. Qed.

(** A response that arrives after six seconds. *)
Lemma lookup_timeout_witness :
  WKD.lookup (rt := Examples.runtime) (pgp := Examples.openpgpjs)
    (km := Examples.keyModule) (WKD.new None)
    (fun _ => WKD.Settles 6000
                (Ok {| WKD.status := 200; WKD.statusText := "OK";
                       WKD.body := WKD.Chunk [x01] WKD.Done |}))
    (Some "alice@example.org") true
  = Throw (Error "WKD: Timeout").
Proof.
  exact (proj1 (proj2
    (lookup_timeout (rt := Examples.runtime) (pgp := Examples.openpgpjs)
       (km := Examples.keyModule) None
       (fun _ => WKD.Settles 6000
                   (Ok {| WKD.status := 200; WKD.statusText := "OK";
                          WKD.body := WKD.Chunk [x01] WKD.Done |}))
       "alice@example.org" "alice" "example.org"
       "https://example.org/.well-known/openpgpkey/hu/kei1q4tipxxu1yj79k9kfukdhfy631xe"
       true
       ltac:(discriminate) eq_refl eq_refl ltac:(vm_compute; reflexivity)
       eq_refl))).
Defined.

(** The same response one second after the request is used. *)
Example lookup_in_time :
  WKD.lookup (rt := Examples.runtime) (pgp := Examples.openpgpjs)
    (km := Examples.keyModule) (WKD.new None)
    (fun _ => WKD.Settles 1000
                (Ok {| WKD.status := 200; WKD.statusText := "OK";
                       WKD.body := WKD.Chunk [x01] WKD.Done |}))
    (Some "alice@example.org") true
  = Ok (WKD.OneKey (Examples.armorKey Examples.aliceNew)).
Proof. vm_compute. reflexivity. Qed.

(** A key whose primary identity has no email address: without the option
    for all user ids its entry carries that identity, with it none. *)
Lemma getKeyData_keeps_identity_without_email :
  map KeyringBase.users
      (KeyringBase.getKeyData (rt := Examples.runtime)
         (pgp := Examples.openpgpjs) (km := Examples.keyModule)
         mvelo.MAIN_KEYRING_ID [Examples.nameOnly] false)
  = [[{| mvelo.userId := "Carol"; mvelo.email := ""; mvelo.name := "Carol" |}]]
  /\ map KeyringBase.users
        (KeyringBase.getKeyData (rt := Examples.runtime)
           (pgp := Examples.openpgpjs) (km := Examples.keyModule)
           mvelo.MAIN_KEYRING_ID [Examples.nameOnly] true)
     = [[]].
Proof. vm_compute. split; reflexivity. Qed.

(** The key store of the examples: [aliceOld] verifies as invalid and
    [mallory] is pseudo-revoked for the keyring of the example. *)
Lemma getKeyData_spec_witness :
  map KeyringBase.key
      (KeyringBase.getKeyData (rt := Examples.runtime)
         (pgp := Examples.openpgpjs) (km := Examples.keyModule)
         "test.example|#|keyring"
         [Examples.aliceOld; Examples.mallory; Examples.aliceNew;
          Examples.nameOnly] false)
  = [Examples.aliceNew; Examples.nameOnly].
Proof.
  exact (proj1 (getKeyData_spec (rt := Examples.runtime)
                  (pgp := Examples.openpgpjs) (km := Examples.keyModule)
                  "test.example|#|keyring"
                  [Examples.aliceOld; Examples.mallory; Examples.aliceNew;
                   Examples.nameOnly] false)).
Defined.

(** An editor embedded in a container: the cancelled unlock is reported as
    an error to the editor and to the container. *)
Lemma unlock_cancelled_reported_without_popup :
  EditorController.run
    (EditorController.onEditorPlaintext (Examples.editorWorld Examples.cancelled)
       Examples.signedMail)
    Examples.embedded
  = (Ok tt, Examples.embedded,
     [Editor.UnlockKey
        {| Editor.key := "AAAAAAAAAAAAAAAAAAAAAAAAAAAAAAAAAAAAAAA2";
           Editor.reason := "PWD_DIALOG_REASON_SIGN";
           Editor.openPopup := true;
           Editor.noCache := false |};
      Editor.ConsoleLog
        (MveloError "Password dialog canceled." "PWD_DIALOG_CANCEL");
      Editor.Emit Editor.EditorPort "error-message"
        (Editor.ErrorData
           {| mvelo.message := "Password dialog canceled.";
              mvelo.code := "PWD_DIALOG_CANCEL" |});
      Editor.Emit Editor.EditorCont "error-message"
        (Editor.ErrorData
           {| mvelo.message := "Password dialog canceled.";
              mvelo.code := "PWD_DIALOG_CANCEL" |});
      Editor.Emit Editor.EditorPort "encrypt-failed" Editor.NoData;
      Editor.ClearTimeout]).
Proof. vm_compute. reflexivity. Qed.


Lemma unlock_cancelled_spec_witness :
  snd (EditorController.run
         (EditorController.onEditorPlaintext
            (Examples.editorWorld Examples.cancelled) Examples.signedMail)
         Examples.popup)
  = EditorController.signAsked (Examples.editorWorld Examples.cancelled)
      Examples.popup Examples.signedMail
      "AAAAAAAAAAAAAAAAAAAAAAAAAAAAAAAAAAAAAAA2"
      ++ [Editor.Emit Editor.Self "hide-pwd-dialog" Editor.NoData].
Proof.
  exact (proj1 (proj2
    (proj1 (proj2 (proj2
       (proj1 (proj2 (unlock_cancelled_spec
                        (Examples.editorWorld Examples.cancelled)
                        Examples.popup))
          Examples.signedMail "MIME Hello Bob"
          "AAAAAAAAAAAAAAAAAAAAAAAAAAAAAAAAAAAAAAA2"
          (MveloError "Password dialog canceled." "PWD_DIALOG_CANCEL")
          eq_refl eq_refl eq_refl eq_refl ltac:(discriminate)
          eq_refl eq_refl)))
       eq_refl))).
Defined.

Example onEditorPlaintext_cancelled_in_popup :
  EditorController.run
    (EditorController.onEditorPlaintext (Examples.editorWorld Examples.cancelled)
       Examples.signedMail)
    Examples.popup
  = (Ok tt, Examples.popup,
     [Editor.UnlockKey
        {| Editor.key := "AAAAAAAAAAAAAAAAAAAAAAAAAAAAAAAAAAAAAAA2";
           Editor.reason := "PWD_DIALOG_REASON_SIGN";
           Editor.openPopup := false;
           Editor.noCache := false |};
      Editor.Emit Editor.EditorPort "show-pwd-dialog"
        (Editor.IdData "pwd-dialog-1");
      Editor.Emit Editor.Self "hide-pwd-dialog" Editor.NoData]).
Proof. vm_compute. reflexivity. Qed.

(** A unlock that fails for another reason in the sign-only flow: the error
    is reported and the text to sign is asked for all the same. *)
Example onSignOnly_wrong_password :
  snd (EditorController.run
         (EditorController.onSignOnly (Examples.editorWorld Examples.wrongPassword)
            "AAAAAAAAAAAAAAAAAAAAAAAAAAAAAAAAAAAAAAA2")
         Examples.popup)
  = [Editor.UnlockKey
       {| Editor.key := "AAAAAAAAAAAAAAAAAAAAAAAAAAAAAAAAAAAAAAA2";
          Editor.reason := "PWD_DIALOG_REASON_SIGN";
          Editor.openPopup := false;
          Editor.noCache := false |};
     Editor.Emit Editor.Self "show-pwd-dialog" (Editor.IdData "pwd-dialog-1");
     Editor.Emit Editor.Self "error-message"
       (Editor.ErrorData
          {| mvelo.message := "Wrong password"; mvelo.code := "WRONG_PASSWORD" |});
     Editor.Emit Editor.Self "get-plaintext" (Editor.ActionData "sign" false)].
Proof. vm_compute. reflexivity. Qed.

(** A job that signs and encrypts with a key that unlocks. *)
Example onEditorPlaintext_signed :
  snd (EditorController.run
         (EditorController.onEditorPlaintext
            (Examples.editorWorld
               (Ok {| Editor.unlocked := "AAAAAAAAAAAAAAAAAAAAAAAAAAAAAAAAAAAAAAA2";
                      Editor.password := "secret" |}))
            Examples.signedMail)
         Examples.popup)
  = [Editor.UnlockKey
       {| Editor.key := "AAAAAAAAAAAAAAAAAAAAAAAAAAAAAAAAAAAAAAA2";
          Editor.reason := "PWD_DIALOG_REASON_SIGN";
          Editor.openPopup := false;
          Editor.noCache := false |};
     Editor.Emit Editor.EditorPort "show-pwd-dialog" (Editor.IdData "pwd-dialog-1");
     Editor.SetTimeout 800 Editor.EditorPort "encrypt-in-progress";
     Editor.Crypto
       (Editor.Encrypt "MIME Hello Bob"
          ["AAAAAAAAAAAAAAAAAAAAAAAAAAAAAAAAAAAAAAA2";
           "DDDDDDDDDDDDDDDDDDDDDDDDDDDDDDDDDDDDDDD1"]
          (Some "AAAAAAAAAAAAAAAAAAAAAAAAAAAAAAAAAAAAAAA2"));
     Editor.Emit Editor.EditorPort "encrypt-end" Editor.NoData;
     Editor.PopupClose;
     Editor.Resolve (Some "-----BEGIN PGP MESSAGE-----") [("Bob", "bob@example.org")];
     Editor.ClearTimeout].
Proof. vm_compute. reflexivity. Qed.



Example locate_no_source :
  AutoLocate.locate Examples.noSource Examples.queryAlice
  = ([AutoLocate.KeyserverLookup Examples.queryAlice;
      AutoLocate.ConsoleLog
        "Mailvelope Server: Did not find key (Errors are expected): Error: Network error";
      AutoLocate.DirectoryLookup (Some "alice@example.org") true;
      AutoLocate.ConsoleLog
        "WKD: Did not find key (Errors are expected): Error: WKD: Timeout"],
     Ok tt).
Proof. vm_compute. reflexivity. Qed.

(** ** The theorems at the examples *)

Lemma parseKeysForEMail_filters_witness :
  exists msg : string,
    WKD.parseKeysForEMail (rt := Examples.runtime) (pgp := Examples.openpgpjs)
      (km := Examples.keyModule) [x02] "alice@example.org" false
    = Throw (Error msg).
Proof.
  exact (proj1 (proj2 (proj2 (proj2
    (parseKeysForEMail_filters (rt := Examples.runtime)
       (pgp := Examples.openpgpjs) (km := Examples.keyModule)
       [x02] "alice@example.org" false))))
    eq_refl).
Defined.

Lemma parseKeysForEMail_onlyOne_best_witness :
  WKD.parseKeysForEMail (rt := Examples.runtime) (pgp := Examples.openpgpjs)
    (km := Examples.keyModule) [x01] "alice@example.org" true
  = Ok (WKD.OneKey (Examples.armorKey Examples.aliceNew)).
Proof.
  exact (proj1 (proj2
    (parseKeysForEMail_onlyOne_best (rt := Examples.runtime)
       (pgp := Examples.openpgpjs) (km := Examples.keyModule)
       [x01] "alice@example.org"))
    (Examples.key "AAAAAAAAAAAAAAAAAAAAAAAAAAAAAAAAAAAAAAA1" 1000
       [Examples.user "Alice <alice@example.org>" [[x00]]])
    Examples.aliceNew
    eq_refl eq_refl (or_introl eq_refl) eq_refl eq_refl).
Defined.

(** A body of one chunk of 65537 bytes. *)
Lemma sizeLimitResponse_spec_witness :
  WKD.sizeLimitResponse
    {| WKD.status := 200; WKD.statusText := "OK";
       WKD.body := WKD.Chunk (repeat x00 (Z.to_nat 65537)) WKD.Done |}
    (WKD.SIZE_LIMIT (WKD.new None) * 1024)
  = Throw (Error "WKD: Response longer then the max size").
Proof.
  exact (proj1 (proj2 (proj2
    (sizeLimitResponse_spec None
       {| WKD.status := 200; WKD.statusText := "OK";
          WKD.body := WKD.Chunk (repeat x00 (Z.to_nat 65537)) WKD.Done |})))
    [] (repeat x00 (Z.to_nat 65537)) WKD.Done eq_refl eq_refl
    ltac:(vm_compute; discriminate) ltac:(vm_compute; reflexivity)).
Defined.


Lemma onSignOnly_spec_witness :
  snd (EditorController.run
         (EditorController.onSignOnly (Examples.editorWorld Examples.wrongPassword)
            "AAAAAAAAAAAAAAAAAAAAAAAAAAAAAAAAAAAAAAA2")
         Examples.popup)
  = EditorController.signOnlyAsked (Examples.editorWorld Examples.wrongPassword)
      "AAAAAAAAAAAAAAAAAAAAAAAAAAAAAAAAAAAAAAA2"
      ++ [Editor.Emit Editor.Self "error-message"
            (Editor.ErrorData
               (Editor.mapError (Examples.editorWorld Examples.wrongPassword)
                  (MveloError "Wrong password" "WRONG_PASSWORD")));
          EditorController.signRequest].
Proof.
  exact (proj1 (proj2
    (onSignOnly_spec (Examples.editorWorld Examples.wrongPassword)
       Examples.popup "AAAAAAAAAAAAAAAAAAAAAAAAAAAAAAAAAAAAAAA2"))
    (MveloError "Wrong password" "WRONG_PASSWORD")
    eq_refl ltac:(discriminate)).
Defined.

(** * Further properties of the code *)

(** ** The Web Key Directory client *)

Section MoreWKD.

Context {rt : Runtime} {pgp : OpenPGP} {km : KeyModule}.

(** X3.  For an address without at sign the regular expression does not
    match, and destructuring its result fails: [buildWKDUrl] and [lookup]
    both end with the TypeError of the engine, not with the error for an
    address that cannot be parsed, and [lookup] does so whatever the
    network would answer. *)
Theorem lookup_no_at_sign (this : WKD.WKDLocate)
    (fetch : string -> WKD.promise WKD.Response) (email : string)
    (onlyOne : bool) :
  email <> "" ->
  RegExp.noAt email = true ->
  WKD.buildWKDUrl email = Throw nullNotIterable
  /\ WKD.lookup this fetch (Some email) onlyOne = Throw nullNotIterable.
Proof.
  intros He Hat. unfold WKD.buildWKDUrl, WKD.lookup.
  apply String.eqb_neq in He. rewrite He, (exec_noAt email Hat).
  split; reflexivity.
Qed.

(** X5.  A lookup whose request is answered before the timeout: with the
    status 200 and a body that ends within the size limit, the lookup gives
    what [parseKeysForEMail] makes of the bytes of the body, in the order
    they were read; with another status it fails with the error that names
    the status. *)
Theorem lookup_answered (this : WKD.WKDLocate)
    (fetch : string -> WKD.promise WKD.Response)
    (email localPart domain url : string) (onlyOne : bool)
    (after : Z) (response : WKD.Response) :
  email <> "" ->
  RegExp.exec email = Some (localPart, domain) ->
  WKD.checkBlacklist (WKD.blacklist this) domain = Ok tt ->
  WKD.buildWKDUrl email = Ok url ->
  fetch url = WKD.Settles after (Ok response) ->
  after < WKD.TIMEOUT this * 1000 ->
  (forall chunks : list (list byte),
     WKD.status response = 200 ->
     WKD.body response = WKD.prepend chunks WKD.Done ->
     WKD.byteLength chunks <= WKD.SIZE_LIMIT this * 1024 ->
     WKD.lookup this fetch (Some email) onlyOne
     = WKD.parseKeysForEMail (List.concat chunks) email onlyOne)
  /\ (WKD.status response <> 200 ->
      WKD.lookup this fetch (Some email) onlyOne
      = Throw (Error ("WKD: Invalid WKD Response "
                        ++ WKD.numberToString (WKD.status response) ++ ":"
                        ++ WKD.statusText response))).
Proof.
  intros He Hx Hb Hu Hf Hlt.
  rewrite (lookup_stages this fetch email localPart domain url onlyOne
             He Hx Hb Hu).
  rewrite Hf.
  assert (Ht : WKD.timeout (WKD.TIMEOUT this * 1000)
                 (WKD.Settles after (Ok response)) = Ok response).
  { unfold WKD.timeout, WKD.afterwards, WKD.atSettlement, WKD.schedule.
    destruct (Z.ltb_spec after (WKD.TIMEOUT this * 1000)); [reflexivity | lia]. }
  rewrite Ht. simpl bind. unfold WKD.sizeLimitResponse.
  split.
  - intros chunks Hs Hbody Hle. rewrite Hs, Hbody. simpl negb. cbv iota.
    rewrite pump_prepend by lia. reflexivity.
  - intros Hs. apply Z.eqb_neq in Hs. rewrite Hs. reflexivity.
Qed.

Lemma pump_limit_monotone (limit limit' : Z) :
  limit <= limit' ->
  forall (reader : WKD.stream) (total : Z) (results : list (list byte))
         (buf : list byte),
    WKD.pump limit reader total results = Ok buf ->
    WKD.pump limit' reader total results = Ok buf.
Proof.
  intros Hle. induction reader as [|value rest IH|e];
    intros total results buf H; simpl in *.
  - assumption.
  - destruct (Z.ltb_spec limit (total + Z.of_nat (List.length value)));
      [discriminate H|].
    destruct (Z.ltb_spec limit' (total + Z.of_nat (List.length value)));
      [lia|].
    apply IH. assumption.
  - discriminate H.
Qed.

(** X7.  A response that [sizeLimitResponse] accepts under a limit is
    accepted under every larger limit, with the same bytes. *)
Theorem sizeLimitResponse_limit_monotone (response : WKD.Response)
    (limit limit' : Z) (buf : list byte) :
  limit <= limit' ->
  WKD.sizeLimitResponse response limit = Ok buf ->
  WKD.sizeLimitResponse response limit' = Ok buf.
Proof.
  unfold WKD.sizeLimitResponse. intros Hle.
  destruct (negb (WKD.status response =? 200)); [discriminate|].
  apply pump_limit_monotone. assumption.
Qed.

(** X8.  When reading the body fails after chunks that stay within the
    limit, [sizeLimitResponse] fails with the error of the read, and none
    of the bytes read so far is returned. *)
Theorem sizeLimitResponse_read_error (response : WKD.Response) (limit : Z)
    (chunks : list (list byte)) (e : exn) :
  WKD.status response = 200 ->
  WKD.body response = WKD.prepend chunks (WKD.ReadError e) ->
  WKD.byteLength chunks <= limit ->
  WKD.sizeLimitResponse response limit = Throw e.
Proof.
  intros Hs Hb Hle. unfold WKD.sizeLimitResponse.
  rewrite Hs, Hb. simpl negb. cbv iota.
  rewrite pump_prepend by lia. reflexivity.
Qed.

(** X9.  A user attribute among the users of a key of the response makes
    [parseKeysForEMail] fail with a WKD error, whether one key is asked for
    or all, and whatever keys of the response match the address. *)
Theorem parseKeysForEMail_user_attribute (data : list byte) (email : string)
    (onlyOne : bool) (key : openpgp.Key) (user : openpgp.User) :
  openpgp.err (key_read data) = None ->
  In key (openpgp.keys (key_read data)) ->
  In user (openpgp.users key) ->
  openpgp.userId user = None ->
  exists text : string,
    WKD.parseKeysForEMail data email onlyOne
    = Throw (Error ("WKD: Error handling keys: '" ++ text ++ "'")).
Proof.
  intros He Hk Hu Hn. unfold WKD.parseKeysForEMail.
  rewrite He, selectKeys_eq.
  assert (Hf : WKD.onlyUserIds (openpgp.keys (key_read data)) = false).
  { apply not_true_is_false. intros Ht.
    unfold WKD.onlyUserIds in Ht. rewrite forallb_forall in Ht.
    specialize (Ht key Hk). rewrite forallb_forall in Ht.
    specialize (Ht user Hu). unfold WKD.hasUserId in Ht.
    rewrite Hn in Ht. discriminate Ht. }
  rewrite Hf. eexists. reflexivity.
Qed.

(** X10.  Asking for one key and asking for all keys succeed on the same
    responses, and the key returned when one is asked for is among the keys
    returned when all are asked for. *)
Theorem parseKeysForEMail_one_of_all (data : list byte) (email : string) :
  ((exists r, WKD.parseKeysForEMail data email true = Ok r) <->
   (exists r, WKD.parseKeysForEMail data email false = Ok r))
  /\ (forall armored : string,
        WKD.parseKeysForEMail data email true = Ok (WKD.OneKey armored) ->
        exists all : list string,
          WKD.parseKeysForEMail data email false = Ok (WKD.AllKeys all) /\
          In armored all).
Proof.
  unfold WKD.parseKeysForEMail. rewrite !selectKeys_eq.
  destruct (openpgp.err (key_read data)).
  { split; [split; intros (r & H); discriminate H | intros a H; discriminate H]. }
  destruct (WKD.onlyUserIds (openpgp.keys (key_read data))).
  2: { split; [split; intros (r & H); discriminate H | intros a H; discriminate H]. }
  destruct (WKD.survivors email (openpgp.keys (key_read data)))
    as [|k kept] eqn:Hs.
  { simpl. split; [split; intros (r & H); discriminate H
                  | intros a H; discriminate H]. }
  destruct (fold_left WKD.pick (k :: kept) None) as [c|] eqn:Hc.
  2: { apply pick_None in Hc. discriminate Hc. }
  split.
  - split; intros _; eexists; reflexivity.
  - intros a H. inversion H; subst.
    eexists. split; [reflexivity|].
    apply in_map. apply (fold_pick_None_best _ _ Hc).
Qed.

End MoreWKD.

(** ** Z-Base32 is lossless *)

Lemma bitsOfByte_inj (a b : byte) :
  ZBase32Spec.bitsOfByte a = ZBase32Spec.bitsOfByte b -> a = b.
Proof.
  intros H. unfold ZBase32Spec.bitsOfByte in H. simpl map in H.
  inversion H as [[H7 H6 H5 H4 H3 H2 H1 H0]]. clear H.
  assert (Hz : Z.of_N (Byte.to_N a) = Z.of_N (Byte.to_N b)).
  { apply Z.bits_inj'. intros n Hn.
    destruct (Z_lt_le_dec n 8) as [Hlt | Hge].
    - assert (Hc : n = 0 \/ n = 1 \/ n = 2 \/ n = 3 \/ n = 4 \/ n = 5
                   \/ n = 6 \/ n = 7) by lia.
      destruct Hc as [-> | [-> | [-> | [-> | [-> | [-> | [-> | ->]]]]]]];
        assumption.
    - rewrite !testbit_byte_high by assumption. reflexivity. }
  apply N2Z.inj in Hz.
  pose proof (Byte.of_to_N a) as Ha. pose proof (Byte.of_to_N b) as Hb.
  rewrite Hz in Ha. rewrite Ha in Hb. inversion Hb. reflexivity.
Qed.

Lemma app_inj_length {A : Type} :
  forall a b c d : list A,
    List.length a = List.length c -> a ++ b = c ++ d -> a = c /\ b = d.
Proof.
  induction a as [|x a IH]; intros b [|y c] d Hlen H; simpl in *;
    try discriminate Hlen.
  - split; [reflexivity | assumption].
  - inversion H; subst. destruct (IH b c d) as [-> ->]; [lia | assumption|].
    split; reflexivity.
Qed.

Lemma bitsOf_inj :
  forall a b : list byte,
    ZBase32Spec.bitsOf a = ZBase32Spec.bitsOf b -> a = b.
Proof.
  induction a as [|x a IH]; intros [|y b] H.
  - reflexivity.
  - discriminate H.
  - discriminate H.
  - rewrite !bitsOf_cons in H.
    apply app_inj_length in H; [|reflexivity].
    destruct H as [Hx Hrest].
    f_equal; [apply bitsOfByte_inj | apply IH]; assumption.
Qed.

(** The groups hold the bits, followed by the zero bits that fill up the
    last group. *)
Lemma groups_concat :
  forall (n : nat) (bits : list bool),
    (List.length bits <= n)%nat ->
    exists pad : nat,
      List.concat (ZBase32Spec.groups bits) = bits ++ repeat false pad.
Proof.
  induction n as [|n IH]; intros bits Hn.
  - destruct bits; [|simpl in Hn; lia]. exists 0%nat. reflexivity.
  - destruct bits as [|b0 [|b1 [|b2 [|b3 [|b4 rest]]]]].
    + exists 0%nat. reflexivity.
    + exists 4%nat. reflexivity.
    + exists 3%nat. reflexivity.
    + exists 2%nat. reflexivity.
    + exists 1%nat. reflexivity.
    + simpl in Hn. destruct (IH rest) as (pad & Hpad); [lia|].
      exists pad.
      change (ZBase32Spec.groups (b0 :: b1 :: b2 :: b3 :: b4 :: rest))
        with ([b0; b1; b2; b3; b4] :: ZBase32Spec.groups rest).
      simpl List.concat. rewrite Hpad. reflexivity.
Qed.

Lemma groups_inj (a b : list bool) :
  List.length a = List.length b ->
  ZBase32Spec.groups a = ZBase32Spec.groups b -> a = b.
Proof.
  intros Hlen H.
  destruct (groups_concat (List.length a) a (le_n _)) as (pa & Ha).
  destruct (groups_concat (List.length b) b (le_n _)) as (pb & Hb).
  rewrite H, Hb in Ha.
  apply app_inj_length in Ha; [|symmetry; assumption].
  symmetry. apply Ha.
Qed.

Lemma symbol_inj (g h : list bool) :
  List.length g = 5%nat -> List.length h = 5%nat ->
  ZBase32Spec.symbol g = ZBase32Spec.symbol h -> g = h.
Proof.
  intros Hg Hh.
  do 5 (destruct g as [|? g]; [discriminate Hg|]).
  destruct g; [|discriminate Hg].
  do 5 (destruct h as [|? h]; [discriminate Hh|]).
  destruct h; [|discriminate Hh].
  repeat match goal with b : bool |- _ => destruct b end;
    vm_compute; intros H; first [reflexivity | discriminate H].
Qed.

Lemma map_symbol_inj :
  forall gs hs : list (list bool),
    Forall (fun g => List.length g = 5%nat) gs ->
    Forall (fun g => List.length g = 5%nat) hs ->
    map ZBase32Spec.symbol gs = map ZBase32Spec.symbol hs -> gs = hs.
Proof.
  induction gs as [|g gs IH]; intros [|h hs] Hg Hh H; simpl in H;
    try discriminate H; [reflexivity|].
  inversion H. inversion Hg; subst. inversion Hh; subst.
  f_equal; [apply symbol_inj | apply IH]; assumption.
Qed.

Lemma encode_length (data : list byte) :
  String.length (ZBase32Spec.encode data)
  = ((8 * List.length data + 4) / 5)%nat.
Proof.
  unfold ZBase32Spec.encode.
  destruct (groups_shape (List.length (ZBase32Spec.bitsOf data))
              (ZBase32Spec.bitsOf data) (le_n _)) as [Hlen _].
  rewrite string_of_list_ascii_length, length_map, Hlen, bitsOf_length.
  reflexivity.
Qed.

(** X2.  [encodeZBase32] is lossless: two byte sequences with the same
    encoding are the same, whatever their lengths.  So two digests never
    share the hashed part of a Web Key Directory address. *)
Theorem encodeZBase32_injective (a b : list byte) :
  ZBase32.encodeZBase32 a = ZBase32.encodeZBase32 b -> a = b.
Proof.
  rewrite !encodeZBase32_correct. intros H.
  assert (Hlen : List.length a = List.length b).
  { pose proof (f_equal String.length H) as Hl.
    rewrite !encode_length in Hl.
    pose proof (Nat.div_mod_eq (8 * List.length a + 4) 5) as Ha.
    pose proof (Nat.div_mod_eq (8 * List.length b + 4) 5) as Hb.
    pose proof (Nat.mod_upper_bound (8 * List.length a + 4) 5) as Ha'.
    pose proof (Nat.mod_upper_bound (8 * List.length b + 4) 5) as Hb'.
    lia. }
  unfold ZBase32Spec.encode in H.
  apply (f_equal list_ascii_of_string) in H.
  rewrite !list_ascii_of_string_of_list_ascii in H.
  apply map_symbol_inj in H.
  - apply bitsOf_inj, groups_inj; [|assumption].
    rewrite !bitsOf_length. lia.
  - apply (groups_shape (List.length (ZBase32Spec.bitsOf a))). apply le_n.
  - apply (groups_shape (List.length (ZBase32Spec.bitsOf b))). apply le_n.
Qed.

(** ** Automatic key lookup *)

Section MoreLocate.

Context {rt : Runtime} {pgp : OpenPGP} {km : KeyModule}.

(** A promise that [timeout] resolves has resolved before the timer. *)
Lemma timeout_Ok {A : Type} (ms : Z) (p : WKD.promise A) (a : A) :
  WKD.timeout ms p = Ok a ->
  exists after : Z, p = WKD.Settles after (Ok a) /\ after < ms.
Proof.
  rewrite timeout_atSettlement. unfold WKD.atSettlement, WKD.schedule.
  destruct p as [after r|]; [|discriminate].
  destruct (Z.ltb_spec after ms) as [Hlt | Hge]; [|discriminate].
  simpl. intros ->. exists after. split; [reflexivity | assumption].
Qed.

(** A buffer is the concatenation of the chunks of a body that ends. *)
Lemma pump_Ok_body (limit : Z) :
  forall (reader : WKD.stream) (total : Z) (results : list (list byte))
         (buf : list byte),
    WKD.pump limit reader total results = Ok buf ->
    exists chunks : list (list byte),
      reader = WKD.prepend chunks WKD.Done /\
      buf = List.concat (results ++ chunks) /\
      (chunks <> [] -> total + WKD.byteLength chunks <= limit).
Proof.
  induction reader as [|value rest IH|e]; intros total results buf H;
    simpl in H.
  - exists []. simpl. rewrite app_nil_r.
    inversion H. repeat split. intros Hne. contradiction.
  - destruct (Z.ltb_spec limit (total + Z.of_nat (List.length value)));
      [discriminate H|].
    destruct (IH _ _ _ H) as (chunks & -> & -> & Hle).
    exists (value :: chunks). rewrite byteLength_cons, <- app_assoc.
    repeat split. intros _.
    destruct chunks as [|chunk chunks].
    + unfold WKD.byteLength. simpl. lia.
    + specialize (Hle ltac:(discriminate)). lia.
  - discriminate H.
Qed.

(** What a lookup for one key returns is the armored text of a key that
    survives the filtering, read from the body of the response that the
    request to the URL of the address gave in time. *)
Lemma lookup_one_key (this : WKD.WKDLocate)
    (fetch : string -> WKD.promise WKD.Response) (email : option string)
    (r : WKD.armoredKeys) :
  WKD.lookup this fetch email true = Ok r ->
  exists (address url : string) (after : Z) (response : WKD.Response)
         (chunks : list (list byte)) (key : openpgp.Key),
    email = Some address /\
    WKD.buildWKDUrl address = Ok url /\
    fetch url = WKD.Settles after (Ok response) /\
    after < WKD.TIMEOUT this * 1000 /\
    WKD.status response = 200 /\
    WKD.body response = WKD.prepend chunks WKD.Done /\
    In key (WKD.survivors address
              (openpgp.keys (key_read (List.concat chunks)))) /\
    r = WKD.OneKey (armor key).
Proof.
  unfold WKD.lookup.
  destruct email as [address|]; [|discriminate].
  destruct (address =? "")%string; [discriminate|].
  destruct (RegExp.exec address) as [[localPart domain]|]; [|discriminate].
  destruct (WKD.checkBlacklist (WKD.blacklist this) domain); [|discriminate].
  simpl bind.
  destruct (WKD.buildWKDUrl address) as [url|] eqn:Hurl; [|discriminate].
  simpl bind.
  destruct (WKD.timeout _ _) as [res|] eqn:Htimeout; [|discriminate].
  simpl bind.
  destruct (WKD.sizeLimitResponse _ _) as [data|] eqn:Hsize; [|discriminate].
  simpl bind.
  unfold WKD.parseKeysForEMail. rewrite selectKeys_eq.
  destruct (openpgp.err (key_read data)); [discriminate|].
  destruct (WKD.onlyUserIds _); [|discriminate].
  destruct (fold_left WKD.pick _ None) as [c|] eqn:Hc; [|discriminate].
  intros H. inversion H; subst.
  destruct (timeout_Ok _ _ _ Htimeout) as (after & Hfetch & Hafter).
  unfold WKD.sizeLimitResponse in Hsize.
  destruct (Z.eqb_spec (WKD.status res) 200) as [Hstatus | Hstatus];
    [|discriminate Hsize].
  simpl negb in Hsize. cbv iota in Hsize.
  destruct (pump_Ok_body _ _ _ _ _ Hsize) as (chunks & Hbody & -> & _).
  cbn [app] in Hc.
  exists address, url, after, res, chunks, c.
  repeat split; try assumption.
  apply (fold_pick_None_best _ _ Hc).
Qed.


End MoreLocate.

(** With both sources switched off [locate] does nothing: it asks
    neither the key server nor the directory, imports nothing and returns;
    and whenever it asks a source or imports, a source is switched on. *)
Theorem locate_disabled (w : AutoLocate.World) (options : AutoLocate.Options) :
  (AutoLocate.getEnabled w = false ->
   AutoLocate.locate w options = ([], Ok tt))
  /\ (existsb AutoLocate.isCall (fst (AutoLocate.locate w options)) = true ->
      AutoLocate.getEnabled w = true).
Proof.
  assert (H : AutoLocate.getEnabled w = false ->
              AutoLocate.locate w options = ([], Ok tt)).
  { unfold AutoLocate.getEnabled, AutoLocate.getWKDEnabled,
      AutoLocate.getKeyserverEnabled.
    intros H. apply orb_false_iff in H. destruct H as [Hw Hk].
    unfold AutoLocate.locate, AutoLocate.askKeyserver, AutoLocate.askDirectory.
    rewrite Hk, Hw. simpl. rewrite andb_false_r. reflexivity. }
  split; [exact H|].
  destruct (AutoLocate.getEnabled w); [reflexivity|].
  rewrite (H eq_refl). discriminate.
Qed.

(** ** The identities getKeyData lists *)

Section MoreKeyData.

Context {rt : Runtime} {pgp : OpenPGP} {km : KeyModule}.

Lemma keyStatus_eqb_eq (a b : openpgp.keyStatus) :
  openpgp.keyStatus_eqb a b = true <-> a = b.
Proof.
  destruct a, b; simpl; split; intros H; try reflexivity; discriminate H.
Qed.

Lemma collectUsers_sound (primaryKey : openpgp.PublicKey) :
  forall (keyUsers : list openpgp.User) (users : list mvelo.MappedUser)
         (u : mvelo.MappedUser),
    In u (KeyringBase.collectUsers primaryKey keyUsers users) ->
    In u users \/
    exists (keyUser : openpgp.User) (uid : openpgp.UserId),
      In keyUser keyUsers /\
      openpgp.userId keyUser = Some uid /\
      verifyUser keyUser primaryKey = openpgp.valid /\
      u = mapKeyUserIds (openpgp.userid uid).
Proof.
  induction keyUsers as [|keyUser rest IH]; intros users u Hin; simpl in Hin;
    [left; assumption|].
  assert (Hrest : In u (KeyringBase.collectUsers primaryKey rest users) ->
                  In u users \/
                  exists (keyUser0 : openpgp.User) (uid : openpgp.UserId),
                    In keyUser0 (keyUser :: rest) /\
                    openpgp.userId keyUser0 = Some uid /\
                    verifyUser keyUser0 primaryKey = openpgp.valid /\
                    u = mapKeyUserIds (openpgp.userid uid)).
  { intros H. destruct (IH _ _ H) as [H' | (k & uid & Hk & H')];
      [left; assumption | right; exists k, uid; split; [right|]; assumption]. }
  destruct (openpgp.userId keyUser) as [uid|] eqn:Huid; [|auto].
  destruct (openpgp.keyStatus_eqb _ _) eqn:Hv; [|auto].
  destruct (existsb _ users); [auto|].
  destruct (mvelo.email _ =? "")%string; [auto|].
  destruct (IH _ _ Hin) as [H' | (k & uid' & Hk & H')].
  - apply in_app_iff in H'. destruct H' as [H' | [<- | []]]; [left; assumption|].
    right. exists keyUser, uid. repeat split; [now left | assumption|].
    apply keyStatus_eqb_eq. assumption.
  - right. exists k, uid'. split; [right|]; assumption.
Qed.

Lemma collectUsers_NoDup (primaryKey : openpgp.PublicKey) :
  KeyringBase.keepsUserId ->
  forall (keyUsers : list openpgp.User) (users : list mvelo.MappedUser),
    NoDup (map mvelo.userId users) ->
    NoDup (map mvelo.userId
             (KeyringBase.collectUsers primaryKey keyUsers users)).
Proof.
  intros Hkeeps.
  induction keyUsers as [|keyUser rest IH]; intros users Hnd; simpl;
    [assumption|].
  destruct (openpgp.userId keyUser) as [uid|]; [|auto].
  destruct (openpgp.keyStatus_eqb _ _); [|auto].
  destruct (existsb _ users) eqn:Hex; [auto|].
  destruct (String.eqb_spec (mvelo.email (mapKeyUserIds (openpgp.userid uid))) "")
    as [He | He]; [auto|].
  apply IH. rewrite map_app. simpl.
  apply NoDup_app; [assumption | repeat constructor; intros [] |].
  intros x Hx [Hy | []]. subst x.
  rewrite (Hkeeps _ He) in Hx. apply in_map_iff in Hx.
  destruct Hx as (existing & Heq & Hin).
  assert (Ht : existsb (fun existingUser =>
                          (mvelo.userId existingUser =? openpgp.userid uid)%string)
                       users = true).
  { apply existsb_exists. exists existing. split; [assumption|].
    apply String.eqb_eq. assumption. }
  rewrite Ht in Hex. discriminate Hex.
Qed.

Lemma collectUsers_keeps (primaryKey : openpgp.PublicKey) :
  forall (keyUsers : list openpgp.User) (users : list mvelo.MappedUser)
         (u : mvelo.MappedUser),
    In u users -> In u (KeyringBase.collectUsers primaryKey keyUsers users).
Proof.
  induction keyUsers as [|keyUser rest IH]; intros users u Hin; simpl;
    [assumption|].
  destruct (openpgp.userId keyUser) as [uid|]; [|auto].
  destruct (openpgp.keyStatus_eqb _ _); [|auto].
  destruct (existsb _ users); [auto|].
  destruct (mvelo.email _ =? "")%string; [auto|].
  apply IH. apply in_app_iff. left. assumption.
Qed.

Lemma collectUsers_complete (primaryKey : openpgp.PublicKey) :
  KeyringBase.keepsUserId ->
  forall (keyUsers : list openpgp.User) (users : list mvelo.MappedUser),
    (forall u, In u users -> u = mapKeyUserIds (mvelo.userId u)) ->
    forall (keyUser : openpgp.User) (uid : openpgp.UserId),
      In keyUser keyUsers ->
      openpgp.userId keyUser = Some uid ->
      verifyUser keyUser primaryKey = openpgp.valid ->
      mvelo.email (mapKeyUserIds (openpgp.userid uid)) <> "" ->
      In (mapKeyUserIds (openpgp.userid uid))
         (KeyringBase.collectUsers primaryKey keyUsers users).
Proof.
  intros Hkeeps.
  induction keyUsers as [|k rest IH]; intros users Hcanon keyUser uid Hin Huid Hv He;
    [contradiction|].
  simpl.
  assert (Hnext : forall users',
            (forall u, In u users' -> u = mapKeyUserIds (mvelo.userId u)) ->
            (keyUser = k -> In (mapKeyUserIds (openpgp.userid uid)) users') ->
            In (mapKeyUserIds (openpgp.userid uid))
               (KeyringBase.collectUsers primaryKey rest users')).
  { intros users' Hc Hk. destruct Hin as [<- | Hin].
    - apply collectUsers_keeps, Hk. reflexivity.
    - apply (IH users' Hc keyUser uid Hin Huid Hv He). }
  destruct (openpgp.userId k) as [uid'|] eqn:Huid'.
  2: { apply Hnext; [assumption|]. intros ->. rewrite Huid in Huid'.
       discriminate Huid'. }
  destruct (openpgp.keyStatus_eqb _ _) eqn:Hvk.
  2: { apply Hnext; [assumption|]. intros ->. rewrite Hv in Hvk.
       discriminate Hvk. }
  destruct (existsb _ users) eqn:Hex.
  { apply Hnext; [assumption|]. intros ->.
    rewrite Huid in Huid'. inversion Huid'; subst uid'.
    apply existsb_exists in Hex. destruct Hex as (existing & Hin' & Heq).
    apply String.eqb_eq in Heq.
    rewrite <- Heq, <- (Hcanon _ Hin'). assumption. }
  destruct (String.eqb_spec (mvelo.email (mapKeyUserIds (openpgp.userid uid'))) "")
    as [He' | He'].
  { apply Hnext; [assumption|]. intros ->.
    rewrite Huid in Huid'. inversion Huid'; subst uid'. contradiction. }
  apply Hnext.
  - intros u Hu. apply in_app_iff in Hu. destruct Hu as [Hu | [<- | []]].
    + apply Hcanon. assumption.
    + rewrite (Hkeeps _ He'). reflexivity.
  - intros ->. rewrite Huid in Huid'. inversion Huid'; subst uid'.
    apply in_app_iff. right. now left.
Qed.

(** X12.  With the option for all user ids, every identity [getKeyData]
    lists for a key comes from a user id packet of that key whose self
    certification verifies, and it has an email address.  Where
    [mapKeyUserIds] does not change the user id strings it accepts, no user
    id string is listed twice and every verified user id packet with an
    email address is listed. *)
Theorem getKeyData_allUsers (id : string) (allKeys : list openpgp.Key)
    (d : KeyringBase.KeyData) :
  In d (KeyringBase.getKeyData id allKeys true) ->
  (forall u : mvelo.MappedUser,
     In u (KeyringBase.users d) ->
     mvelo.email u <> "" /\
     exists (keyUser : openpgp.User) (uid : openpgp.UserId),
       KeyringBase.verified (KeyringBase.key d) keyUser uid /\
       u = mapKeyUserIds (openpgp.userid uid))
  /\ (KeyringBase.keepsUserId ->
      NoDup (map mvelo.userId (KeyringBase.users d)) /\
      forall (keyUser : openpgp.User) (uid : openpgp.UserId),
        KeyringBase.verified (KeyringBase.key d) keyUser uid ->
        mvelo.email (mapKeyUserIds (openpgp.userid uid)) <> "" ->
        In (mapKeyUserIds (openpgp.userid uid)) (KeyringBase.users d)).
Proof.
  rewrite getKeyData_keys. intros Hd.
  apply in_map_iff in Hd. destruct Hd as (key & <- & _).
  simpl. unfold KeyringBase.verified. split.
  - intros u Hu. split.
    + revert u Hu. apply collectUsers_email. intros u [].
    + apply collectUsers_sound in Hu.
      destruct Hu as [[] | (keyUser & uid & Hin & Huid & Hv & ->)].
      exists keyUser, uid. repeat split; assumption.
  - intros Hkeeps. split.
    + apply collectUsers_NoDup; [assumption | constructor].
    + intros keyUser uid (Hin & Huid & Hv) He.
      apply (collectUsers_complete _ Hkeeps _ [] ltac:(intros u [])
               keyUser uid Hin Huid Hv He).
Qed.

End MoreKeyData.

(** ** The editor controller *)

(** *** Handlers that keep to the job *)

Lemma setEncryptTimer_same (c : Editor.Controller) :
  EditorController.setEncryptTimer (Editor.encryptTimer c) c = c.
Proof. destruct c. reflexivity. Qed.

Section Confined.

Variable allowed : Editor.action -> bool.

Lemma confined_unchanged {A} (handler : Editor.M A) :
  (forall m, snd (handler m) = m) -> EditorController.confined allowed handler.
Proof.
  intros H m. exists (Editor.encryptTimer (Editor.this m)), [].
  rewrite H, setEncryptTimer_same, app_nil_r. destruct m.
  split; reflexivity.
Qed.

Lemma confined_ret {A} (a : A) :
  EditorController.confined allowed (Editor.ret a).
Proof. apply confined_unchanged. reflexivity. Qed.

Lemma confined_throw {A} (e : exn) :
  EditorController.confined allowed (@Editor.throw A e).
Proof. apply confined_unchanged. reflexivity. Qed.

Lemma confined_get : EditorController.confined allowed Editor.get.
Proof. apply confined_unchanged. reflexivity. Qed.

Lemma confined_liftResult {A} (r : result exn A) :
  EditorController.confined allowed (Editor.liftResult r).
Proof. apply confined_unchanged. reflexivity. Qed.

Lemma confined_perform (a : Editor.action) :
  allowed a = true -> EditorController.confined allowed (Editor.perform a).
Proof.
  intros Ha m. exists (Editor.encryptTimer (Editor.this m)), [a].
  rewrite setEncryptTimer_same. simpl. rewrite Ha. split; reflexivity.
Qed.

Lemma confined_set_timer (timer : bool) :
  EditorController.confined allowed
    (Editor.set (EditorController.setEncryptTimer timer)).
Proof.
  intros m. exists timer, []. rewrite app_nil_r. split; reflexivity.
Qed.

Lemma confined_bind {A B} (c : Editor.M A) (k : A -> Editor.M B) :
  EditorController.confined allowed c ->
  (forall a, EditorController.confined allowed (k a)) ->
  EditorController.confined allowed (Editor.bindM c k).
Proof.
  intros Hc Hk m. unfold Editor.bindM.
  destruct (Hc m) as (t1 & l1 & H1 & Hl1).
  destruct (c m) as [[a | e] m1]; simpl in H1; subst m1.
  - destruct (Hk a {| Editor.this :=
                        EditorController.setEncryptTimer t1 (Editor.this m);
                      Editor.emitted := Editor.emitted m ++ l1 |})
      as (t2 & l2 & H2 & Hl2).
    exists t2, (l1 ++ l2). rewrite H2. simpl.
    rewrite app_assoc, forallb_app, Hl1, Hl2. split; reflexivity.
  - exists t1, l1. split; [reflexivity | assumption].
Qed.

Lemma confined_tryCatch {A} (c : Editor.M A) (handler : exn -> Editor.M A) :
  EditorController.confined allowed c ->
  (forall e, EditorController.confined allowed (handler e)) ->
  EditorController.confined allowed (Editor.tryCatch c handler).
Proof.
  intros Hc Hh m. unfold Editor.tryCatch.
  destruct (Hc m) as (t1 & l1 & H1 & Hl1).
  destruct (c m) as [[a | e] m1]; simpl in H1; subst m1.
  - exists t1, l1. split; [reflexivity | assumption].
  - destruct (Hh e {| Editor.this :=
                        EditorController.setEncryptTimer t1 (Editor.this m);
                      Editor.emitted := Editor.emitted m ++ l1 |})
      as (t2 & l2 & H2 & Hl2).
    exists t2, (l1 ++ l2). rewrite H2. simpl.
    rewrite app_assoc, forallb_app, Hl1, Hl2. split; reflexivity.
Qed.

Lemma confined_when (b : bool) (c : Editor.M unit) :
  EditorController.confined allowed c ->
  EditorController.confined allowed (Editor.when b c).
Proof.
  intros Hc. destruct b; [assumption | apply confined_ret].
Qed.

End Confined.

Ltac is_confined :=
  repeat first
    [ progress intros
    | apply confined_bind
    | apply confined_tryCatch
    | apply confined_when
    | apply confined_set_timer
    | apply confined_ret
    | apply confined_throw
    | apply confined_get
    | apply confined_liftResult
    | apply confined_perform; reflexivity
    | match goal with
      | |- EditorController.confined _ (if ?b then _ else _) => destruct b
      | |- EditorController.confined _ (match ?x with _ => _ end) => destruct x
      end ].

Lemma signAndEncrypt_confined (w : Editor.World) (options : Editor.Plaintext) :
  EditorController.confined EditorController.isJobAction
    (EditorController.signAndEncrypt w options).
Proof.
  unfold EditorController.signAndEncrypt, EditorController.signAndEncryptMessage,
    EditorController.encryptMessage, EditorController.signMessage,
    EditorController.model_signMessage, EditorController.model_encryptMessage,
    EditorController.unlockKey, EditorController.callUnlockKey.
  is_confined.
Qed.

Lemma isJobAction_not_settle (a : Editor.action) :
  EditorController.isJobAction a = true ->
  EditorController.isSettle a = false /\ EditorController.isHandover a = false.
Proof.
  destruct a as [to event data| | | | | | | | | |]; simpl;
    try (intros _; split; reflexivity); try discriminate.
  destruct to; try discriminate; intros H; split; try reflexivity.
  apply String.eqb_eq in H. subst event. reflexivity.
Qed.

Lemma job_actions_quiet (performed : list Editor.action) :
  forallb EditorController.isJobAction performed = true ->
  filter EditorController.isSettle performed = [] /\
  existsb EditorController.isHandover performed = false.
Proof.
  induction performed as [|a l IH]; simpl; [split; reflexivity|].
  intros H. apply andb_true_iff in H. destruct H as [Ha Hl].
  destruct (isJobAction_not_settle a Ha) as [-> ->].
  apply IH. assumption.
Qed.

(** What [signAndEncrypt] leaves, when run on a controller. *)
Lemma signAndEncrypt_run (w : Editor.World) (options : Editor.Plaintext)
    (c : Editor.Controller) :
  exists (r : result exn (option string)) (timer : bool)
         (performed : list Editor.action),
    EditorController.run (EditorController.signAndEncrypt w options) c
    = (r, EditorController.setEncryptTimer timer c, performed)
    /\ forallb EditorController.isJobAction performed = true.
Proof.
  unfold EditorController.run.
  destruct (signAndEncrypt_confined w options
              {| Editor.this := c; Editor.emitted := [] |})
    as (timer & performed & H & Hall).
  destruct (EditorController.signAndEncrypt w options _) as [r m].
  simpl in H. subst m. exists r, timer, performed.
  split; [reflexivity | assumption].
Qed.

(** X13.  [signAndEncrypt] keeps to the job: of the fields of the
    controller it changes the timer handle only, and all it does is to ask
    the password dialog, show it, trigger the synchronisation, start the
    timer of the progress indicator, call the crypto engine and report a
    MIME error to the container.  It never settles the promise of the
    caller, never closes the popup and never hands a result over. *)
Theorem signAndEncrypt_keeps_to_the_job (w : Editor.World)
    (options : Editor.Plaintext) (c : Editor.Controller) :
  let out := EditorController.run (EditorController.signAndEncrypt w options) c in
  (exists timer : bool,
     snd (fst out) = EditorController.setEncryptTimer timer c)
  /\ forallb EditorController.isJobAction (snd out) = true
  /\ filter EditorController.isSettle (snd out) = []
  /\ existsb EditorController.isHandover (snd out) = false
  /\ ~ In Editor.PopupClose (snd out).
Proof.
  intros out. subst out.
  destruct (signAndEncrypt_run w options c) as (r & timer & performed & -> & Hall).
  cbn [fst snd]. destruct (job_actions_quiet performed Hall) as [Hs Hh].
  repeat split; try assumption.
  - exists timer. reflexivity.
  - intros Hin. rewrite forallb_forall in Hall.
    specialize (Hall _ Hin). discriminate Hall.
Qed.

(** X14.  A job settles the promise of the caller at most once.  With the
    editor in a container the promise is not touched; otherwise, when the
    promise is there, the job settles it exactly once, except when the
    unlock was cancelled with the editor in its popup: then the dialog is
    hidden and the promise is left pending. *)
Theorem onEditorPlaintext_settles_once (w : Editor.World)
    (options : Editor.Plaintext) (c : Editor.Controller) :
  let out := EditorController.run (EditorController.onEditorPlaintext w options) c in
  let settled := filter EditorController.isSettle (snd out) in
  (List.length settled <= 1)%nat
  /\ (Editor.editorContPort c = true -> settled = [])
  /\ (Editor.editorContPort c = false -> Editor.encryptDone c = true ->
      List.length settled = 1%nat
      \/ (settled = [] /\ Editor.editorPopup c = true /\
          fst (fst out) = Ok tt /\
          In (Editor.Emit Editor.Self "hide-pwd-dialog" Editor.NoData)
             (snd out))).
Proof.
  intros out settled. subst settled out.
  rewrite onEditorPlaintext_cases.
  destruct (signAndEncrypt_run w options c) as (r & timer & performed & -> & Hall).
  destruct (job_actions_quiet performed Hall) as [Hs _].
  unfold EditorController.handOver, EditorController.reportError.
  destruct c as [kid popup cont done t sk mime reason buf].
  cbn [Editor.editorPopup Editor.editorContPort Editor.encryptDone
       EditorController.setEncryptTimer].
  destruct r as [armored | err];
    [|destruct (EditorController.isCancel err)];
    destruct popup, cont, done;
    cbn; rewrite ?filter_app, ?Hs; cbn;
    repeat apply conj; intros;
    try congruence; try lia;
    try (left; reflexivity);
    right; repeat split; apply in_app_iff; right; now left.
Qed.


(** X16.  When the MIME builder fails, by an exception or by giving
    [null], no key is unlocked and the crypto engine is not called: the job
    fails with the error MIME building failed, reported like any other
    error of a job.  In a container the exception of the builder is
    reported to the container first, so the container receives two error
    messages. *)
Theorem onEditorPlaintext_mime_failure (w : Editor.World)
    (options : Editor.Plaintext) (c : Editor.Controller) :
  Editor.action_ options = "encrypt" ->
  (forall e : exn,
     Editor.buildMail w options (Editor.pgpMIME c) = Throw e ->
     EditorController.run (EditorController.onEditorPlaintext w options) c
     = EditorController.reportError w c
         (if Editor.editorContPort c
          then [Editor.Emit Editor.EditorCont "error-message"
                  (Editor.ErrorData (Editor.mapError w e))]
          else [])
         (Error "MIME building failed."))
  /\ (Editor.buildMail w options (Editor.pgpMIME c) = Ok None ->
      EditorController.run (EditorController.onEditorPlaintext w options) c
      = EditorController.reportError w c [] (Error "MIME building failed.")).
Proof.
  intros Ha. split; [intros e Hb | intros Hb];
    rewrite onEditorPlaintext_cases;
    unfold EditorController.run at 1, EditorController.signAndEncrypt;
    rewrite Ha; cbn [String.eqb Ascii.eqb Bool.eqb andb];
    cbv [Editor.bindM Editor.tryCatch Editor.get Editor.liftResult
         Editor.perform Editor.when Editor.ret Editor.throw
         Editor.this Editor.emitted];
    rewrite Hb;
    destruct c as [kid popup cont done t sk mime reason buf];
    destruct popup, cont; reflexivity.
Qed.

(** X17.  A job whose action is neither encrypt nor sign is not refused:
    [signAndEncrypt] gives [undefined] without doing anything, and
    [onEditorPlaintext] hands that over like an armored message. *)
Theorem onEditorPlaintext_other_action (w : Editor.World)
    (options : Editor.Plaintext) (c : Editor.Controller) :
  Editor.action_ options <> "encrypt" ->
  Editor.action_ options <> "sign" ->
  EditorController.run (EditorController.signAndEncrypt w options) c
  = (Ok None, c, [])
  /\ EditorController.run (EditorController.onEditorPlaintext w options) c
     = EditorController.handOver w options c [] None.
Proof.
  intros He Hs.
  assert (H : EditorController.run
                (EditorController.signAndEncrypt w options) c
              = (Ok None, c, [])).
  { unfold EditorController.run, EditorController.signAndEncrypt.
    apply String.eqb_neq in He, Hs. rewrite He, Hs. reflexivity. }
  split; [exact H|].
  rewrite onEditorPlaintext_cases, H. reflexivity.
Qed.

(** X19.  A request to create a draft, for a keyring with a primary key:
    from then on the fingerprints to encrypt to are that key alone,
    whatever recipient keys the editor sends with the plaintext and
    whatever the buffer held before.  Without primary key the error is
    reported to the container, the plaintext is not asked for and the
    buffer stays as it was. *)
Theorem onEditorContainerCreateDraft_spec (w : Editor.World)
    (c : Editor.Controller) (keyringId : option string) :
  let out := EditorController.run
               (EditorController.onEditorContainerCreateDraft w keyringId) c in
  (forall primary : string,
     Editor.getPrimaryKeyFpr w keyringId = Some primary ->
     primary <> "" ->
     snd out = [Editor.Emit Editor.EditorPort "get-plaintext"
                  (Editor.ActionData "encrypt" true)]
     /\ forall keys : list Editor.KeyObject,
          EditorController.getPublicKeyFprs w (snd (fst out)) keys = [primary])
  /\ (truthy (Editor.getPrimaryKeyFpr w keyringId) = false ->
      snd out = [Editor.Emit Editor.EditorCont "error-message"
                   (Editor.ErrorData
                      {| mvelo.message := "No private key found for creating draft.";
                         mvelo.code := "NO_KEY_FOR_ENCRYPTION" |})]
      /\ Editor.keyFprBuffer (snd (fst out)) = Editor.keyFprBuffer c).
Proof.
  intros out. subst out.
  unfold EditorController.run, EditorController.onEditorContainerCreateDraft.
  cbv [Editor.bindM Editor.set Editor.perform Editor.this Editor.emitted].
  split.
  - intros primary Hp Hne. rewrite Hp.
    assert (Ht : truthy (Some primary) = true).
    { unfold truthy. apply String.eqb_neq in Hne. rewrite Hne. reflexivity. }
    rewrite Ht. split; reflexivity.
  - intros Ht. rewrite Ht. split; reflexivity.
Qed.

(** X20.  The buffer of fingerprints is set by the two messages of the
    container only, and nothing clears it: messages of the editor leave it
    as it is, and once it is set it stays set through every sequence of
    messages. *)
Theorem keyFprBuffer_never_cleared (w : Editor.World)
    (requests : list EditorController.request) (c : Editor.Controller) :
  (forallb (fun r => negb (EditorController.isContainerRequest r)) requests
   = true ->
   Editor.keyFprBuffer (EditorController.handleAll w c requests)
   = Editor.keyFprBuffer c)
  /\ (Editor.keyFprBuffer c <> None ->
      Editor.keyFprBuffer (EditorController.handleAll w c requests) <> None).
Proof.
  unfold EditorController.handleAll. split.
  - revert c. induction requests as [|r requests IH]; intros c H; simpl in *;
      [reflexivity|].
    apply andb_true_iff in H. destruct H as [Hr H].
    rewrite (IH _ H). unfold EditorController.handle.
    destruct r as [msg | keyringId | signKeyFpr | options];
      try discriminate Hr; cbn [EditorController.handler].
    + apply onSignOnly_keepsBuffer.
    + apply onEditorPlaintext_keepsBuffer.
  - revert c. induction requests as [|r requests IH]; intros c H; simpl;
      [assumption|].
    apply IH. unfold EditorController.handle.
    destruct r as [msg | keyringId | signKeyFpr | options];
      cbn [EditorController.handler].
    + unfold EditorController.onEditorContainerEncrypt.
      cbv [Editor.bindM Editor.set Editor.perform Editor.this Editor.emitted snd].
      destruct (existsb _ (EditorController.ce_recipients msg));
        [exact H | discriminate].
    + unfold EditorController.onEditorContainerCreateDraft.
      cbv [Editor.bindM Editor.set Editor.perform Editor.this Editor.emitted snd].
      destruct (Editor.getPrimaryKeyFpr w keyringId) as [p|]; simpl;
        [destruct (negb (p =? "")%string); [discriminate | exact H] | exact H].
    + rewrite onSignOnly_keepsBuffer. exact H.
    + rewrite onEditorPlaintext_keepsBuffer. exact H.
Qed.

Lemma fold_left_fprs_In (lookup : string -> option (list string)) (z : string) :
  forall (recipients : list string) (keyFprs : list string),
    In z (fold_left (fun keyFprs recipient =>
                       match lookup recipient with
                       | Some fprs => keyFprs ++ fprs
                       | None => keyFprs
                       end)
                    recipients keyFprs)
    <-> In z keyFprs \/
        exists (recipient : string) (fprs : list string),
          In recipient recipients /\ lookup recipient = Some fprs /\ In z fprs.
Proof.
  induction recipients as [|r recipients IH]; intros keyFprs; simpl.
  - split; [now left | intros [H | (r & fprs & [] & _)]; assumption].
  - rewrite IH. split.
    + intros [H | (r' & fprs & Hin & Hf & Hz)].
      * destruct (lookup r) as [fprs|] eqn:Hr; [|now left].
        apply in_app_iff in H. destruct H as [H | H]; [now left|].
        right. exists r, fprs. repeat split; [now left | assumption..].
      * right. exists r', fprs. repeat split; [now right | assumption..].
    + intros [H | (r' & fprs & [<- | Hin] & Hf & Hz)].
      * left. destruct (lookup r); [apply in_app_iff; now left | assumption].
      * left. rewrite Hf. apply in_app_iff. now right.
      * right. exists r', fprs. repeat split; assumption.
Qed.

(** X21.  When every recipient of a request of the container has a key,
    [onEditorContainerEncrypt] sets the buffer, has the keys synchronised
    and asks for the plaintext.  The buffer is strictly sorted and holds
    exactly the fingerprints found for the recipients, and the primary key
    of the keyring when the preference to add it is on. *)
Theorem onEditorContainerEncrypt_all_keys (w : Editor.World)
    (msg : EditorController.ContainerEncrypt) (c : Editor.Controller) :
  (forall recipient : string,
     In recipient (EditorController.ce_recipients msg) ->
     Editor.keyFprsForAddress w (EditorController.ce_keyringId msg) recipient
     <> None) ->
  exists buffer : list string,
    EditorController.run (EditorController.onEditorContainerEncrypt w msg) c
    = (Ok tt,
       EditorController.setKeyFprBuffer buffer
         (EditorController.setKeyringId (EditorController.ce_keyringId msg)
            (EditorController.setPgpMIME true c)),
       [Editor.SyncPublicKeys (EditorController.ce_keyringId msg) buffer;
        Editor.Emit Editor.EditorPort "get-plaintext"
          (Editor.ActionData "encrypt" false)])
    /\ StronglySorted Fpr.lt buffer
    /\ forall z : string,
         In z buffer <->
         (exists (recipient : string) (fprs : list string),
            In recipient (EditorController.ce_recipients msg) /\
            Editor.keyFprsForAddress w (EditorController.ce_keyringId msg)
              recipient = Some fprs /\
            In z fprs)
         \/ (Editor.auto_add_primary w = true /\
             Editor.getPrimaryKeyFpr w (EditorController.ce_keyringId msg)
             = Some z /\
             z <> "").
Proof.
  intros Hall.
  unfold EditorController.run, EditorController.onEditorContainerEncrypt.
  cbv [Editor.bindM Editor.set Editor.perform Editor.this Editor.emitted].
  assert (He : existsb
                 (fun recipient =>
                    match Editor.keyFprsForAddress w
                            (EditorController.ce_keyringId msg) recipient with
                    | Some _ => false
                    | None => true
                    end)
                 (EditorController.ce_recipients msg) = false).
  { apply not_true_is_false. intros H. apply existsb_exists in H.
    destruct H as (r & Hin & Hr). specialize (Hall r Hin).
    destruct (Editor.keyFprsForAddress w _ r); [discriminate Hr | contradiction]. }
  rewrite He. eexists. split; [reflexivity|]. split.
  - apply sortAndDeDup_StronglySorted.
  - intros z. rewrite sortAndDeDup_In.
    destruct (Editor.auto_add_primary w).
    + rewrite pushPrimary_In, fold_left_fprs_In. simpl. intuition.
    + rewrite fold_left_fprs_In. simpl. intuition discriminate.
Qed.

(** ** The queries of the keyring *)

(** X23.  [getKeysByFprs] gives all or nothing: it returns one entry for
    every fingerprint, in the order of the fingerprints, each the first key
    the key store has for it; and it fails when the key store has nothing
    for a fingerprint, with the error that names the first such
    fingerprint. *)
Theorem getKeysByFprs_all_or_nothing (keystore : KeyringBase.KeyStore)
    (keyFprs : list string) :
  (forall keys : list (option openpgp.Key),
     KeyringBase.getKeysByFprs keystore keyFprs = Ok keys ->
     (forall keyFpr, In keyFpr keyFprs ->
                     KeyringBase.getKeysForId keystore keyFpr false <> None) /\
     keys = map (fun keyFpr =>
                   match KeyringBase.getKeysForId keystore keyFpr false with
                   | Some keyArray => hd_error keyArray
                   | None => None
                   end)
                keyFprs)
  /\ (forall e : exn,
        KeyringBase.getKeysByFprs keystore keyFprs = Throw e ->
        exists (found : list string) (missing : string) (rest : list string),
          keyFprs = found ++ missing :: rest /\
          (forall keyFpr, In keyFpr found ->
                          KeyringBase.getKeysForId keystore keyFpr false <> None) /\
          KeyringBase.getKeysForId keystore missing false = None /\
          e = MveloError ("No key found for ID " ++ missing)
                         "NO_KEY_FOUND_FOR_ENCRYPTION").
Proof.
  induction keyFprs as [|keyFpr rest [IHok IHerr]]; simpl.
  - split.
    + intros keys H. inversion H. split; [intros k [] | reflexivity].
    + intros e H. discriminate H.
  - destruct (KeyringBase.getKeysForId keystore keyFpr false) as [keyArray|]
      eqn:Hk.
    + destruct (KeyringBase.getKeysByFprs keystore rest) as [keys'|e'];
        simpl bind; split.
      * intros keys H. inversion H; subst.
        destruct (IHok keys' eq_refl) as [Hall ->]. split; [|reflexivity].
        intros k [<- | Hin]; [rewrite Hk; discriminate | apply Hall, Hin].
      * intros e H. discriminate H.
      * intros keys H. discriminate H.
      * intros e H. inversion H; subst.
        destruct (IHerr e eq_refl) as (found & missing & rest' & -> & Hf & Hm & ->).
        exists (keyFpr :: found), missing, rest'. repeat split; try assumption.
        intros k [<- | Hin]; [rewrite Hk; discriminate | apply Hf, Hin].
    + split.
      * intros keys H. discriminate H.
      * intros e H. inversion H; subst.
        exists [], keyFpr, rest. repeat split; [intros k [] | assumption].
Qed.

Lemma firstPrivateKey_spec (keystore : KeyringBase.KeyStore) :
  forall (keyIds : list KeyringBase.keyIdValue),
    match KeyringBase.firstPrivateKey keystore keyIds with
    | Some key =>
        exists (before : list KeyringBase.keyIdValue)
               (keyId : KeyringBase.keyIdValue)
               (after : list KeyringBase.keyIdValue),
          keyIds = before ++ keyId :: after /\
          (forall b, In b before ->
                     KeyringBase.privateKeys_getForId keystore
                       (KeyringBase.keyIdHex b) true = None) /\
          KeyringBase.privateKeys_getForId keystore
            (KeyringBase.keyIdHex keyId) true = Some key
    | None =>
        forall keyId, In keyId keyIds ->
                      KeyringBase.privateKeys_getForId keystore
                        (KeyringBase.keyIdHex keyId) true = None
    end.
Proof.
  induction keyIds as [|keyId rest IH]; simpl; [intros k []|].
  destruct (KeyringBase.privateKeys_getForId keystore
              (KeyringBase.keyIdHex keyId) true) as [key|] eqn:Hk.
  - exists [], keyId, rest. repeat split; [intros b [] | assumption].
  - destruct (KeyringBase.firstPrivateKey keystore rest) as [key|].
    + destruct IH as (before & k & after & -> & Hb & Hfound).
      exists (keyId :: before), k, after. repeat split; [|assumption].
      intros b [<- | Hin]; [assumption | apply Hb, Hin].
    + intros k [<- | Hin]; [assumption | apply IH, Hin].
Qed.

(** X24.  On an array of key ids that [toArray] leaves as it is,
    [getPrivateKeyByIds] finds a key exactly when [hasPrivateKey] says
    there is one, and the key it returns is the private key of the first
    key id of the array that has one. *)
Theorem getPrivateKeyByIds_first
    (toArray : KeyringBase.keyIdsArgument -> list KeyringBase.keyIdValue)
    (keystore : KeyringBase.KeyStore) (keyIds : list KeyringBase.keyIdValue) :
  toArray (KeyringBase.KeyIdArray keyIds) = keyIds ->
  (KeyringBase.hasPrivateKey keystore (Some keyIds) = true <->
   KeyringBase.getPrivateKeyByIds toArray keystore
     (KeyringBase.KeyIdArray keyIds) <> None)
  /\ (forall key : openpgp.Key,
        KeyringBase.getPrivateKeyByIds toArray keystore
          (KeyringBase.KeyIdArray keyIds) = Some key ->
        exists (before : list KeyringBase.keyIdValue)
               (keyId : KeyringBase.keyIdValue)
               (after : list KeyringBase.keyIdValue),
          keyIds = before ++ keyId :: after /\
          (forall b, In b before ->
                     KeyringBase.privateKeys_getForId keystore
                       (KeyringBase.keyIdHex b) true = None) /\
          KeyringBase.privateKeys_getForId keystore
            (KeyringBase.keyIdHex keyId) true = Some key).
Proof.
  intros Harray. unfold KeyringBase.getPrivateKeyByIds. rewrite Harray.
  pose proof (firstPrivateKey_spec keystore keyIds) as Hspec.
  split.
  - unfold KeyringBase.hasPrivateKey. rewrite existsb_exists. split.
    + intros (keyId & Hin & Hk).
      destruct (KeyringBase.firstPrivateKey keystore keyIds); [discriminate|].
      rewrite (Hspec keyId Hin) in Hk. discriminate Hk.
    + intros Hne.
      destruct (KeyringBase.firstPrivateKey keystore keyIds) as [key|];
        [|contradiction].
      destruct Hspec as (before & keyId & after & -> & _ & Hk).
      exists keyId. split; [apply in_app_iff; right; now left|].
      rewrite Hk. reflexivity.
  - intros key Hk. rewrite Hk in Hspec. exact Hspec.
Qed.

Lemma property_assign {V : Type} (name name' : string) (value : V) :
  forall object : list (string * V),
    KeyringBase.property (KeyringBase.assign object name value) name'
    = if (name =? name')%string then Some value
      else KeyringBase.property object name'.
Proof.
  induction object as [|[n v] object IH]; simpl.
  - reflexivity.
  - destruct (String.eqb_spec n name) as [-> | Hn]; simpl.
    + destruct (name =? name')%string; reflexivity.
    + rewrite IH. destruct (String.eqb_spec n name') as [-> | Hn'];
        [|reflexivity].
      apply String.eqb_neq in Hn. rewrite String.eqb_sym in Hn.
      rewrite Hn. reflexivity.
Qed.

Lemma property_fold_assign {V : Type} (value : string -> V) (name : string) :
  forall (names : list string) (object : list (string * V)),
    KeyringBase.property
      (fold_left (fun result n => KeyringBase.assign result n (value n))
                 names object)
      name
    = if existsb (String.eqb name) names then Some (value name)
      else KeyringBase.property object name.
Proof.
  induction names as [|n names IH]; intros object; simpl; [reflexivity|].
  rewrite IH, property_assign.
  destruct (existsb (String.eqb name) names);
    [rewrite orb_true_r; reflexivity|].
  rewrite orb_false_r, (String.eqb_sym name n).
  destruct (String.eqb_spec n name) as [-> | _]; reflexivity.
Qed.

(** X25.  The object [getKeyByAddress] returns has a property for every
    address asked for and for no other.  The value for an address is
    [false] exactly when the key store has no key for it that passes the
    options, and never an empty array; unless the keys are sorted, it is
    the public keys for the address followed by the private ones, reduced,
    when valid keys are asked for, to the valid encryption keys. *)
Theorem getKeyByAddress_spec
    (isValidEncryptionKey : openpgp.Key -> string -> bool)
    (sortKeysByCreationDate :
       list openpgp.Key -> option string -> list openpgp.Key)
    (getDefaultKeyFpr : option string) (id : string)
    (keystore : KeyringBase.KeyStore) (emailArray : list string)
    (options : KeyringBase.AddressOptions) (email : string) :
  let result :=
    KeyringBase.getKeyByAddress isValidEncryptionKey sortKeysByCreationDate
      getDefaultKeyFpr id keystore emailArray options in
  let candidates :=
    (if KeyringBase.pub options
     then KeyringBase.publicKeys_getForAddress keystore email else [])
      ++ (if KeyringBase.priv options
          then KeyringBase.privateKeys_getForAddress keystore email else []) in
  let passing :=
    if KeyringBase.valid options
    then filter (fun key => isValidEncryptionKey key id) candidates
    else candidates in
  (~ In email emailArray -> KeyringBase.property result email = None)
  /\ (In email emailArray ->
      (passing = [] -> KeyringBase.property result email = Some None) /\
      (passing <> [] -> KeyringBase.sort options = false ->
       KeyringBase.property result email = Some (Some passing)) /\
      (passing <> [] -> KeyringBase.sort options = true ->
       KeyringBase.property result email
       = Some (Some (sortKeysByCreationDate passing getDefaultKeyFpr)))).
Proof.
  intros result candidates passing. subst result.
  unfold KeyringBase.getKeyByAddress. rewrite property_fold_assign.
  assert (Hk : KeyringBase.keysForAddress isValidEncryptionKey
                 sortKeysByCreationDate getDefaultKeyFpr id keystore
                 options email
               = if (List.length passing =? 0)%nat then None
                 else if KeyringBase.sort options
                      then Some (sortKeysByCreationDate passing getDefaultKeyFpr)
                      else Some passing).
  { unfold KeyringBase.keysForAddress. subst passing candidates. cbv zeta.
    destruct (KeyringBase.pub options), (KeyringBase.priv options);
      rewrite ?app_nil_r; reflexivity. }
  split.
  - intros Hn. destruct (existsb (String.eqb email) emailArray) eqn:He;
      [|reflexivity].
    apply existsb_exists in He. destruct He as (x & Hin & Hx).
    apply String.eqb_eq in Hx. subst x. contradiction.
  - intros Hin.
    assert (He : existsb (String.eqb email) emailArray = true).
    { apply existsb_exists. exists email. split; [assumption|].
      apply String.eqb_refl. }
    rewrite He, Hk.
    destruct passing as [|k passing']; simpl.
    + repeat split; intros; try reflexivity; contradiction.
    + split; [intros H; discriminate H|].
      split; intros _ H; rewrite H; reflexivity.
Qed.

(** ** The quotation of a decrypted message *)

Lemma replaceLineStarts_inside (line rest : EditorContent.text) :
  EditorContent.singleLine line = true ->
  EditorContent.replaceLineStarts false (line ++ rest)
  = line ++ EditorContent.replaceLineStarts false rest.
Proof.
  unfold EditorContent.singleLine.
  induction line as [|c line IH]; [reflexivity|].
  cbn [forallb app EditorContent.replaceLineStarts andb].
  intros H. apply andb_true_iff in H. destruct H as [Hc Hl].
  apply negb_true_iff in Hc. rewrite Hc, IH by assumption. reflexivity.
Qed.

Lemma replaceLineStarts_terminator (terminator : N) (rest : EditorContent.text) :
  EditorContent.isLineTerminator terminator = true ->
  EditorContent.replaceLineStarts false (terminator :: rest)
  = terminator :: EditorContent.replaceLineStarts true rest.
Proof.
  intros Ht. cbn [EditorContent.replaceLineStarts andb]. rewrite Ht.
  reflexivity.
Qed.

Lemma replaceLineStarts_line (line rest : EditorContent.text) :
  EditorContent.singleLine line = true ->
  line <> [] ->
  EditorContent.replaceLineStarts true (line ++ rest)
  = EditorContent.mark ++ line ++ EditorContent.replaceLineStarts false rest.
Proof.
  destruct line as [|c line]; [contradiction|].
  unfold EditorContent.singleLine.
  cbn [forallb app EditorContent.replaceLineStarts andb]. intros H _.
  apply andb_true_iff in H. destruct H as [Hc Hl].
  apply negb_true_iff in Hc. rewrite Hc.
  cbn [negb orb]. rewrite replaceLineStarts_inside by assumption.
  reflexivity.
Qed.

Lemma replaceLineStarts_lines :
  forall (lines : list (EditorContent.text * N)) (last : EditorContent.text),
    forallb EditorContent.isLine lines = true ->
    EditorContent.singleLine last = true ->
    EditorContent.replaceLineStarts true (EditorContent.joinLines lines last)
    = EditorContent.quoteLines lines last.
Proof.
  induction lines as [|[line terminator] lines IH]; intros last Hlines Hlast.
  - cbn [EditorContent.joinLines EditorContent.quoteLines].
    destruct last as [|c last]; [reflexivity|].
    rewrite <- (app_nil_r (c :: last)) at 1.
    rewrite replaceLineStarts_line by (assumption || discriminate).
    cbn [EditorContent.replaceLineStarts]. rewrite app_nil_r. reflexivity.
  - cbn [forallb] in Hlines. apply andb_true_iff in Hlines.
    destruct Hlines as [Hline Hrest].
    unfold EditorContent.isLine in Hline. cbn [fst snd] in Hline.
    apply andb_true_iff in Hline. destruct Hline as [Hline Ht].
    cbn [EditorContent.joinLines EditorContent.quoteLines].
    destruct line as [|c line].
    + cbn [app EditorContent.replaceLineStarts andb]. rewrite Ht.
      cbn [negb orb]. rewrite IH by assumption.
      destruct (terminator =? 10)%N; reflexivity.
    + rewrite replaceLineStarts_line by (assumption || discriminate).
      rewrite replaceLineStarts_terminator by assumption.
      rewrite IH by assumption. reflexivity.
Qed.

Lemma joinLines_exists :
  forall msg : EditorContent.text,
    exists (lines : list (EditorContent.text * N)) (last : EditorContent.text),
      msg = EditorContent.joinLines lines last /\
      forallb EditorContent.isLine lines = true /\
      EditorContent.singleLine last = true.
Proof.
  induction msg as [|c msg IH].
  - exists [], []. repeat split.
  - destruct IH as (lines & last & -> & Hlines & Hlast).
    destruct (EditorContent.isLineTerminator c) eqn:Hc.
    + exists (([], c) :: lines), last.
      split; [reflexivity|]. split; [|assumption].
      cbn [forallb]. rewrite Hlines, andb_true_r.
      unfold EditorContent.isLine, EditorContent.singleLine.
      cbn [fst snd forallb andb]. exact Hc.
    + destruct lines as [|[line terminator] lines].
      * exists [], (c :: last). repeat split.
        unfold EditorContent.singleLine in *. cbn [forallb].
        rewrite Hc, Hlast. reflexivity.
      * exists ((c :: line, terminator) :: lines), last.
        cbn [forallb] in Hlines.
        apply andb_true_iff in Hlines. destruct Hlines as [Hline Hrest].
        split; [reflexivity|]. split; [|assumption].
        cbn [forallb]. rewrite Hrest, andb_true_r.
        unfold EditorContent.isLine, EditorContent.singleLine in Hline |- *.
        cbn [fst snd forallb] in Hline |- *. rewrite Hc. exact Hline.
Qed.

(** X26.  The text [onMessage] sends to the editor when the quoted mail is
    to be indented: two line feeds, the header line if there is a header,
    the message with the mark of a quotation before every line, and the
    predefined text after two more line feeds if there is one.  A line
    ends with one of the four line terminators: the line feed, the
    carriage return, U+2028 or U+2029; an empty line has the mark only
    when it ends with a line feed, and the empty rest after the last line
    terminator has none.  Every message is made of such lines.  With none
    of the three options the message is sent as it is. *)
Theorem onMessage_quotes_every_line (options : EditorContent.Options) :
  (EditorContent.quotedMailIndent options = true ->
   forall (lines : list (EditorContent.text * N)) (last : EditorContent.text),
     forallb EditorContent.isLine lines = true ->
     EditorContent.singleLine last = true ->
     EditorContent.onMessage options (EditorContent.joinLines lines last)
     = EditorContent.LF ++ EditorContent.LF
         ++ match EditorContent.quotedMailHeader options with
            | Some (c :: header) =>
                EditorContent.mark ++ (c :: header) ++ EditorContent.LF
            | _ => []
            end
         ++ EditorContent.quoteLines lines last
         ++ match EditorContent.predefinedText options with
            | Some (c :: text) =>
                EditorContent.LF ++ EditorContent.LF ++ c :: text
            | _ => []
            end)
  /\ (forall msg : EditorContent.text,
        exists (lines : list (EditorContent.text * N))
               (last : EditorContent.text),
          msg = EditorContent.joinLines lines last /\
          forallb EditorContent.isLine lines = true /\
          EditorContent.singleLine last = true)
  /\ (EditorContent.quotedMailIndent options = false ->
      EditorContent.truthyText (EditorContent.quotedMailHeader options) = false ->
      EditorContent.truthyText (EditorContent.predefinedText options) = false ->
      forall msg : EditorContent.text,
        EditorContent.onMessage options msg = msg).
Proof.
  split; [|split].
  - intros Hi lines last Hlines Hlast.
    unfold EditorContent.onMessage. rewrite Hi.
    rewrite replaceLineStarts_lines by assumption.
    cbn [orb].
    destruct (EditorContent.quotedMailHeader options) as [[|c header]|];
      destruct (EditorContent.predefinedText options) as [[|d text]|];
      cbn [EditorContent.truthyText];
      rewrite <- ?app_assoc, ?app_nil_r; reflexivity.
  - apply joinLines_exists.
  - intros Hi Hh Hp msg. unfold EditorContent.onMessage.
    rewrite Hi, Hh. cbn [orb].
    destruct (EditorContent.quotedMailHeader options) as [header|];
      destruct (EditorContent.predefinedText options) as [text|];
      rewrite ?Hh, ?Hp; reflexivity.
Qed.

(** ** The decryption of a draft or of a quoted mail *)

Lemma unlockKey_confined (u : Editor.World)
    (options : EditorContent.UnlockOptions) :
  EditorController.confined EditorContent.isUnlockAction
    (EditorContent.unlockKey u options).
Proof.
  unfold EditorContent.unlockKey, EditorController.unlockKey,
    EditorController.callUnlockKey.
  is_confined.
Qed.

Lemma awaitDecryption_confined (u : Editor.World) :
  forall d : EditorContent.decryption,
    EditorController.confined EditorContent.isUnlockAction
      (EditorContent.awaitDecryption u d).
Proof.
  induction d as [outcome | options continue IH].
  - apply confined_liftResult.
  - intros m. cbn [EditorContent.awaitDecryption].
    destruct (unlockKey_confined u options m) as (t1 & l1 & H1 & Hl1).
    destruct (EditorContent.unlockKey u options m) as [result m1].
    cbn [snd] in H1. subst m1.
    destruct (IH result
                {| Editor.this :=
                     EditorController.setEncryptTimer t1 (Editor.this m);
                   Editor.emitted := Editor.emitted m ++ l1 |})
      as (t2 & l2 & H2 & Hl2).
    exists t2, (l1 ++ l2). rewrite H2. cbn [Editor.this Editor.emitted].
    rewrite app_assoc, forallb_app, Hl1, Hl2. split; reflexivity.
Qed.

(** The calls of the callback do nothing but unlock. *)
Lemma decrypt_unlocking (u : Editor.World) (w : EditorContent.World)
    (c : Editor.Controller) (options : EditorContent.Options)
    (armored : string) :
  forallb EditorContent.isUnlockAction
    (snd (EditorContent.decrypt u w c options armored)) = true.
Proof.
  unfold EditorContent.decrypt, EditorController.run.
  match goal with
  | |- context [EditorContent.awaitDecryption u ?d ?m] =>
      destruct (awaitDecryption_confined u d m) as (t & l & H & Hl);
      destruct (EditorContent.awaitDecryption u d m) as [r m']
  end.
  cbn [snd] in H. subst m'. cbn [snd Editor.emitted app]. exact Hl.
Qed.

Lemma callHandler_shows (options : EditorContent.Options) :
  forall parts : list EditorContent.part,
    forallb EditorContent.showsContent
      (flat_map (EditorContent.callHandler options) parts) = true.
Proof.
  induction parts as [|p parts IH]; simpl; [reflexivity|].
  rewrite forallb_app, IH, andb_true_r.
  destruct p as [msg | file]; simpl; [reflexivity|].
  unfold EditorContent.onAttachment.
  destruct (EditorContent.keepAttachments options); reflexivity.
Qed.

Lemma callHandler_attachments (options : EditorContent.Options) :
  forall parts : list EditorContent.part,
    EditorContent.attachments
      (flat_map (EditorContent.callHandler options) parts)
    = if EditorContent.keepAttachments options
      then EditorContent.files parts else [].
Proof.
  induction parts as [|p parts IH]; simpl.
  - destruct (EditorContent.keepAttachments options); reflexivity.
  - destruct p as [msg | file]; simpl; [exact IH|].
    unfold EditorContent.onAttachment.
    destruct (EditorContent.keepAttachments options); simpl;
      [rewrite IH; reflexivity | exact IH].
Qed.

Lemma attachments_app (a b : list EditorContent.action) :
  EditorContent.attachments (a ++ b)
  = EditorContent.attachments a ++ EditorContent.attachments b.
Proof.
  induction a as [|x a IH]; simpl; [reflexivity|].
  destruct x; simpl; rewrite ?IH; reflexivity.
Qed.

Lemma unlocking_quiet (unlocking : list Editor.action) :
  EditorContent.attachments (map EditorContent.Unlocking unlocking) = []
  /\ existsb EditorContent.showsContent
       (map EditorContent.Unlocking unlocking) = false
  /\ existsb EditorContent.isFinal
       (map EditorContent.Unlocking unlocking) = false.
Proof.
  induction unlocking as [|a l IH]; [repeat split | exact IH].
Qed.

Lemma decryptArmored_attachments (u : Editor.World) (w : EditorContent.World)
    (c : Editor.Controller) (options : EditorContent.Options)
    (armored : string) (decrypted : EditorContent.Decrypted) :
  fst (EditorContent.decrypt u w c options armored) = Ok decrypted ->
  EditorContent.checkDraft options (EditorContent.signatures decrypted)
  = Ok tt ->
  EditorContent.attachments
    (EditorContent.decryptArmored u w c options armored)
  = if EditorContent.keepAttachments options
    then EditorContent.files
           (fst (EditorContent.parseMessage w (EditorContent.data decrypted)))
    else [].
Proof.
  intros Hm Hc. unfold EditorContent.decryptArmored.
  destruct (EditorContent.decrypt u w c options armored)
    as [outcome unlocking].
  cbn [fst] in Hm. subst outcome. cbv zeta.
  change (EditorContent.checkDraft (EditorContent.setSelfSigned options))
    with (EditorContent.checkDraft options).
  rewrite Hc.
  destruct (EditorContent.parseMessage w (EditorContent.data decrypted))
    as [parts outcome].
  rewrite !attachments_app, callHandler_attachments. cbn [fst].
  rewrite (proj1 (unlocking_quiet unlocking)).
  change (EditorContent.keepAttachments (EditorContent.setSelfSigned options))
    with (EditorContent.keepAttachments options).
  destruct outcome; simpl; rewrite app_nil_r; reflexivity.
Qed.

(** X27.  What [decryptArmored] does, in order: first the calls of the
    callback that unlocks the key, which do nothing but ask the password
    dialog, show and hide it in the editor and trigger the
    synchronisation; then the messages that show a text or an attachment
    of the decrypted mail; and last the one message that ends the
    decryption for the editor, its end or its failure.  No message before
    the last one ends the decryption. *)
Theorem decryptArmored_ends_once (u : Editor.World) (w : EditorContent.World)
    (c : Editor.Controller) (options : EditorContent.Options)
    (armored : string) :
  exists (unlocking : list Editor.action)
         (shown : list EditorContent.action) (final : EditorContent.action),
    EditorContent.decryptArmored u w c options armored
    = map EditorContent.Unlocking unlocking ++ shown ++ [final]
    /\ unlocking = snd (EditorContent.decrypt u w c options armored)
    /\ forallb EditorContent.isUnlockAction unlocking = true
    /\ forallb EditorContent.showsContent shown = true
    /\ EditorContent.isFinal final = true
    /\ existsb EditorContent.isFinal
         (map EditorContent.Unlocking unlocking ++ shown) = false.
Proof.
  assert (Hq : forall shown,
            forallb EditorContent.showsContent shown = true ->
            existsb EditorContent.isFinal shown = false).
  { induction shown as [|a shown IH]; simpl; [reflexivity|].
    intros H. apply andb_true_iff in H. destruct H as [Ha Hs].
    rewrite (IH Hs). destruct a; try discriminate Ha; reflexivity. }
  pose proof (decrypt_unlocking u w c options armored) as Hu.
  unfold EditorContent.decryptArmored.
  destruct (EditorContent.decrypt u w c options armored)
    as [outcome unlocking].
  cbn [snd] in Hu. cbv zeta. exists unlocking.
  assert (Hall : forall shown final,
            forallb EditorContent.showsContent shown = true ->
            EditorContent.isFinal final = true ->
            unlocking = unlocking
            /\ forallb EditorContent.isUnlockAction unlocking = true
            /\ forallb EditorContent.showsContent shown = true
            /\ EditorContent.isFinal final = true
            /\ existsb EditorContent.isFinal
                 (map EditorContent.Unlocking unlocking ++ shown) = false).
  { intros shown final Hs Hf. repeat split; try assumption.
    rewrite existsb_app, (Hq shown Hs).
    rewrite (proj2 (proj2 (unlocking_quiet unlocking))). reflexivity. }
  destruct outcome as [d | e].
  - destruct (EditorContent.checkDraft _ _) as [[] | t].
    + destruct (EditorContent.parseMessage w (EditorContent.data d))
        as [parts outcome].
      pose proof (callHandler_shows (EditorContent.setSelfSigned options)
                    parts) as Hs.
      destruct outcome as [[] | e]; eexists; eexists;
        (split; [reflexivity|]); apply Hall; auto.
    + exists [], (EditorContent.DecryptFailed (EditorContent.mapError w t)).
      split; [reflexivity | apply Hall; reflexivity].
  - exists [], (EditorContent.DecryptFailed
                  (EditorContent.mapError w (EditorContent.Exception e))).
    split; [reflexivity | apply Hall; reflexivity].
Qed.

(** X28.  A draft is shown only when the first of its signatures is valid:
    when the decrypted draft has no signature, or its first signature is
    not valid, [decryptArmored] sends neither text nor attachment to the
    editor; after the unlocking of the key that the decryption asked for,
    all it does is to report the failure. *)
Theorem decryptArmored_draft_signature (u : Editor.World)
    (w : EditorContent.World) (c : Editor.Controller)
    (options : EditorContent.Options) (armored : string)
    (decrypted : EditorContent.Decrypted) :
  truthy (EditorContent.armoredDraft options) = true ->
  fst (EditorContent.decrypt u w c options armored) = Ok decrypted ->
  (forall (first : EditorContent.Signature)
          (others : list EditorContent.Signature),
     EditorContent.signatures decrypted = Some (first :: others) ->
     EditorContent.valid first <> Some true) ->
  existsb EditorContent.showsContent
    (EditorContent.decryptArmored u w c options armored) = false
  /\ exists error : mvelo.ErrorObject,
       EditorContent.decryptArmored u w c options armored
       = map EditorContent.Unlocking
           (snd (EditorContent.decrypt u w c options armored))
           ++ [EditorContent.DecryptFailed error].
Proof.
  intros Hd Hm Hs. unfold EditorContent.decryptArmored.
  destruct (EditorContent.decrypt u w c options armored)
    as [outcome unlocking].
  cbn [fst] in Hm. subst outcome. cbv zeta. cbn [snd].
  unfold EditorContent.checkDraft.
  cbn [EditorContent.armoredDraft EditorContent.setSelfSigned]. rewrite Hd.
  assert (Hfail : forall error,
            existsb EditorContent.showsContent
              (map EditorContent.Unlocking unlocking
                 ++ [EditorContent.DecryptFailed error]) = false
            /\ exists error' : mvelo.ErrorObject,
                 map EditorContent.Unlocking unlocking
                   ++ [EditorContent.DecryptFailed error]
                 = map EditorContent.Unlocking unlocking
                     ++ [EditorContent.DecryptFailed error']).
  { intros error. split; [|eexists; reflexivity].
    rewrite existsb_app, (proj1 (proj2 (unlocking_quiet unlocking))).
    reflexivity. }
  destruct (EditorContent.signatures decrypted) as [[|first others]|];
    try apply Hfail.
  specialize (Hs first others eq_refl).
  destruct (EditorContent.valid first) as [[|]|]; try apply Hfail.
  contradiction.
Qed.

Lemma onEditorOptions_kept (w : EditorContent.World) (editorPopup : bool)
    (keyringId : option string) (options : EditorContent.Options) :
  fst (EditorContent.onEditorOptions w editorPopup keyringId options)
  = if truthy (EditorContent.armoredDraft options)
    then EditorContent.setKeepAttachments options
    else options.
Proof.
  unfold EditorContent.onEditorOptions.
  destruct (truthy (EditorContent.armoredDraft options)),
    (truthy (EditorContent.quotedMail options)),
    (EditorContent.truthyText (EditorContent.predefinedText options));
    reflexivity.
Qed.

Lemma onEditorOptions_scheduled (w : EditorContent.World) (editorPopup : bool)
    (keyringId : option string) (options : EditorContent.Options) :
  EditorContent.scheduled
    (snd (EditorContent.onEditorOptions w editorPopup keyringId options))
  = if truthy (EditorContent.armoredDraft options)
    then [EditorContent.textOf (EditorContent.armoredDraft options)]
    else if truthy (EditorContent.quotedMail options)
         then [EditorContent.textOf (EditorContent.quotedMail options)]
         else [].
Proof.
  unfold EditorContent.onEditorOptions, EditorContent.scheduleDecrypt.
  destruct (truthy (EditorContent.armoredDraft options)),
    (truthy (EditorContent.quotedMail options)),
    (EditorContent.truthyText (EditorContent.predefinedText options));
    cbn [snd]; try destruct (_ && _); reflexivity.
Qed.

(** X29.  [onEditorOptions] schedules at most one decryption: of the
    draft if there is one, else of the quoted mail if there is one.  For a
    draft it switches the option to keep attachments on, so every file of
    a restored draft reaches the editor; the files of a quoted mail reach
    it only when that option is set. *)
Theorem onEditorOptions_attachments (u : Editor.World)
    (w : EditorContent.World) (c : Editor.Controller)
    (options : EditorContent.Options) (armored : string)
    (decrypted : EditorContent.Decrypted) :
  let kept :=
    fst (EditorContent.onEditorOptions w (Editor.editorPopup c)
           (Editor.keyringId c) options) in
  let actions :=
    snd (EditorContent.onEditorOptions w (Editor.editorPopup c)
           (Editor.keyringId c) options) in
  let sent := EditorContent.attachments
                (EditorContent.decryptArmored u w c kept armored) in
  fst (EditorContent.decrypt u w c kept armored) = Ok decrypted ->
  EditorContent.checkDraft options (EditorContent.signatures decrypted)
  = Ok tt ->
  EditorContent.scheduled actions
  = (if truthy (EditorContent.armoredDraft options)
     then [EditorContent.textOf (EditorContent.armoredDraft options)]
     else if truthy (EditorContent.quotedMail options)
          then [EditorContent.textOf (EditorContent.quotedMail options)]
          else [])
  /\ sent
     = (if truthy (EditorContent.armoredDraft options)
           || EditorContent.keepAttachments options
        then EditorContent.files
               (fst (EditorContent.parseMessage w
                       (EditorContent.data decrypted)))
        else []).
Proof.
  intros kept actions sent Hm Hc. subst kept actions sent.
  rewrite onEditorOptions_kept in *. rewrite onEditorOptions_scheduled.
  split; [reflexivity|].
  destruct (truthy (EditorContent.armoredDraft options)).
  - rewrite (decryptArmored_attachments u w c
               (EditorContent.setKeepAttachments options) armored decrypted
               Hm Hc).
    reflexivity.
  - rewrite (decryptArmored_attachments u w c options armored decrypted
               Hm Hc).
    reflexivity.
Qed.

(** X30.  [encryptText] asks the editor for the plaintext, and the job
    that follows settles the promise it returned exactly once, when the
    editor is neither in a container nor in a popup: it resolves it with
    the armored text or rejects it, a cancelled unlock included. *)
Theorem encryptText_settled (w : Editor.World) (c : Editor.Controller)
    (options : Editor.Plaintext) :
  let asked := EditorController.run EditorController.encryptText c in
  snd asked = [Editor.Emit Editor.EditorPort "get-plaintext"
                 (Editor.ActionData "encrypt" false)]
  /\ (Editor.editorContPort c = false ->
      Editor.editorPopup c = false ->
      List.length
        (filter EditorController.isSettle
           (snd (EditorController.run
                   (EditorController.onEditorPlaintext w options)
                   (snd (fst asked)))))
      = 1%nat).
Proof.
  intros asked. subst asked. split; [reflexivity|].
  intros Hc Hp.
  change (snd (fst (EditorController.run EditorController.encryptText c)))
    with (EditorController.setEncryptDone true c).
  rewrite onEditorPlaintext_cases.
  destruct (signAndEncrypt_run w options
              (EditorController.setEncryptDone true c))
    as (r & timer & performed & -> & Hall).
  destruct (job_actions_quiet performed Hall) as [Hs _].
  unfold EditorController.handOver, EditorController.reportError.
  destruct c as [kid popup cont done t sk mime reason buf].
  cbn in Hc, Hp. subst cont popup.
  destruct r as [armored | err];
    cbn; rewrite ?filter_app, ?Hs; reflexivity.
Qed.

(** X18.  A job that is to sign and encrypt when neither the editor names a
    signing key nor has the keyring a primary key: the job fails with the
    code NO_PRIMARY_KEY_FOUND, reported like any other error of a job, and
    neither the password dialog nor the crypto engine is called. *)
Theorem onEditorPlaintext_no_signing_key (w : Editor.World)
    (c : Editor.Controller) (options : Editor.Plaintext) (data : string) :
  Editor.action_ options = "encrypt" ->
  Editor.signMsg options = true ->
  Editor.buildMail w options (Editor.pgpMIME c) = Ok (Some data) ->
  truthy (Editor.signKeyFpr options) = false ->
  truthy (Editor.getPrimaryKeyFpr w (Editor.keyringId c)) = false ->
  EditorController.run (EditorController.onEditorPlaintext w options) c
  = EditorController.reportError w (EditorController.setEncryptTimer false c)
      [] (MveloError "No primary key found" "NO_PRIMARY_KEY_FOUND").
Proof.
  intros Ha Hs Hb H1 H2.
  rewrite onEditorPlaintext_cases.
  assert (H : EditorController.run
                (EditorController.signAndEncrypt w options) c
              = (Throw (MveloError "No primary key found" "NO_PRIMARY_KEY_FOUND"),
                 EditorController.setEncryptTimer false c, [])).
  { unfold EditorController.run, EditorController.signAndEncrypt.
    rewrite Ha. cbn [String.eqb Ascii.eqb Bool.eqb andb].
    cbv [Editor.bindM Editor.tryCatch Editor.get Editor.liftResult
         Editor.this Editor.emitted].
    rewrite Hb, Hs.
    cbv [EditorController.signAndEncryptMessage
         Editor.bindM Editor.set Editor.get Editor.throw Editor.ret
         Editor.this Editor.emitted].
    rewrite H1. cbn [Editor.keyringId EditorController.setEncryptTimer].
    rewrite H2. reflexivity. }
  rewrite H. cbn [EditorController.isCancel exn_code String.eqb Ascii.eqb
                  Bool.eqb andb].
  rewrite andb_false_r. reflexivity.
Qed.

(** ** These properties at the examples *)

(** An address without at sign. *)
Lemma lookup_no_at_sign_witness :
  WKD.buildWKDUrl (rt := Examples.runtime) "example.org" = Throw nullNotIterable
  /\ WKD.lookup (rt := Examples.runtime) (pgp := Examples.openpgpjs)
       (km := Examples.keyModule) (WKD.new None) (fun _ => WKD.Pending)
       (Some "example.org") true
     = Throw nullNotIterable.
Proof.
  exact (lookup_no_at_sign (rt := Examples.runtime) (pgp := Examples.openpgpjs)
           (km := Examples.keyModule) (WKD.new None) (fun _ => WKD.Pending)
           "example.org" true ltac:(discriminate) eq_refl).
Defined.

(** The blacklist holds the domain in other letters. *)
Lemma lookup_blacklisted_witness :
  WKD.lookup (rt := Examples.runtime) (pgp := Examples.openpgpjs)
    (km := Examples.keyModule) (WKD.new (Some ["Example.ORG"]))
    Examples.directory (Some "alice@example.org") true
  = Throw (Error "WKD: Skipping blacklisted domain.").
Proof.
  exact (lookup_blacklisted (rt := Examples.runtime) (pgp := Examples.openpgpjs)
           (km := Examples.keyModule) (WKD.new (Some ["Example.ORG"]))
           Examples.directory "alice@example.org" "alice" "example.org" true
           ltac:(discriminate) eq_refl
           (ex_intro _ "Example.ORG" (conj (or_introl eq_refl) eq_refl))).
Defined.

(** The directory answers for Alice's address after 120 ms. *)
Lemma lookup_answered_witness :
  WKD.lookup (rt := Examples.runtime) (pgp := Examples.openpgpjs)
    (km := Examples.keyModule) (WKD.new None) Examples.directory
    (Some "alice@example.org") false
  = WKD.parseKeysForEMail (rt := Examples.runtime) (pgp := Examples.openpgpjs)
      (km := Examples.keyModule) (List.concat [[x01]]) "alice@example.org" false.
Proof.
  exact (proj1
           (lookup_answered (rt := Examples.runtime) (pgp := Examples.openpgpjs)
              (km := Examples.keyModule) (WKD.new None) Examples.directory
              "alice@example.org" "alice" "example.org" Examples.aliceUrl false
              120 Examples.found
              ltac:(discriminate) eq_refl eq_refl
              ltac:(vm_compute; reflexivity) ltac:(vm_compute; reflexivity)
              ltac:(vm_compute; reflexivity))
           [[x01]] eq_refl eq_refl ltac:(vm_compute; discriminate)).
Defined.

Lemma timeout_in_time_witness :
  WKD.timeout 5000 (WKD.Settles 120 (Ok Examples.found)) = Ok Examples.found
  /\ WKD.timerOutstanding
       (WKD.atSettlement 5000 (WKD.Settles 120 (Ok Examples.found))) = true
  /\ WKD.timerOutstanding
       (WKD.afterwards 5000 (WKD.Settles 120 (Ok Examples.found))) = false.
Proof.
  exact (timeout_in_time 5000 120 (Ok Examples.found)
           ltac:(vm_compute; reflexivity)).
Defined.

(** One byte passes a limit of one byte, hence the limit of the client. *)
Lemma sizeLimitResponse_limit_monotone_witness :
  WKD.sizeLimitResponse Examples.found 65536 = Ok [x01].
Proof.
  exact (sizeLimitResponse_limit_monotone Examples.found 1 65536 [x01]
           ltac:(vm_compute; discriminate) eq_refl).
Defined.

Lemma sizeLimitResponse_read_error_witness :
  WKD.sizeLimitResponse Examples.brokenOff 65536
  = Throw (TypeError "network error").
Proof.
  exact (sizeLimitResponse_read_error Examples.brokenOff 65536 [[x01]]
           (TypeError "network error") eq_refl eq_refl
           ltac:(vm_compute; discriminate)).
Defined.

(** The key with the photo spoils the response, although Alice's later key
    matches. *)
Lemma parseKeysForEMail_user_attribute_witness :
  exists text : string,
    WKD.parseKeysForEMail (rt := Examples.runtime)
      (pgp := Examples.openpgpjsWithPhoto) (km := Examples.keyModule)
      [x03] "alice@example.org" false
    = Throw (Error ("WKD: Error handling keys: '" ++ text ++ "'")).
Proof.
  exact (parseKeysForEMail_user_attribute (rt := Examples.runtime)
           (pgp := Examples.openpgpjsWithPhoto) (km := Examples.keyModule)
           [x03] "alice@example.org" false Examples.withPhoto
           {| openpgp.userId := None; openpgp.selfCertifications := [[x01]] |}
           eq_refl (or_intror (or_introl eq_refl))
           (or_intror (or_introl eq_refl)) eq_refl).
Defined.


(** The identities listed for Alice's first key, of which none
    verifies, and for her later key. *)
Lemma getKeyData_allUsers_witness :
  NoDup (map mvelo.userId
           (KeyringBase.users
              (KeyringBase.keyDataOf (rt := Examples.runtime)
                 (pgp := Examples.openpgpjs) (km := Examples.keyModule)
                 true Examples.aliceNew))).
Proof.
  exact (proj1
           (proj2
              (getKeyData_allUsers (rt := Examples.runtime)
                 (pgp := Examples.openpgpjs) (km := Examples.keyModule)
                 "test.example|#|keyring"
                 [Examples.aliceNew; Examples.mallory]
                 (KeyringBase.keyDataOf (rt := Examples.runtime)
                    (pgp := Examples.openpgpjs) (km := Examples.keyModule)
                    true Examples.aliceNew)
                 (or_introl eq_refl))
              (fun userid _ => eq_refl))).
Defined.

(** The MIME builder fails in an editor embedded in a container. *)
Lemma onEditorPlaintext_mime_failure_witness :
  EditorController.run
    (EditorController.onEditorPlaintext Examples.brokenMime Examples.signedMail)
    (EditorController.new true)
  = EditorController.reportError Examples.brokenMime (EditorController.new true)
      (if Editor.editorContPort (EditorController.new true)
       then [Editor.Emit Editor.EditorCont "error-message"
               (Editor.ErrorData
                  (Editor.mapError Examples.brokenMime
                     (Error "Attachment too large")))]
       else [])
      (Error "MIME building failed.").
Proof.
  exact (proj1
           (onEditorPlaintext_mime_failure Examples.brokenMime
              Examples.signedMail (EditorController.new true) eq_refl)
           (Error "Attachment too large") eq_refl).
Defined.

Lemma onEditorPlaintext_other_action_witness :
  EditorController.run
    (EditorController.signAndEncrypt (Examples.editorWorld Examples.cancelled)
       Examples.otherAction)
    Examples.popup
  = (Ok None, Examples.popup, [])
  /\ EditorController.run
       (EditorController.onEditorPlaintext
          (Examples.editorWorld Examples.cancelled) Examples.otherAction)
       Examples.popup
     = EditorController.handOver (Examples.editorWorld Examples.cancelled)
         Examples.otherAction Examples.popup [] None.
Proof.
  exact (onEditorPlaintext_other_action
           (Examples.editorWorld Examples.cancelled) Examples.otherAction
           Examples.popup ltac:(discriminate) ltac:(discriminate)).
Defined.

(** A request of the container for Bob, who has a key. *)
Lemma onEditorContainerEncrypt_all_keys_witness :
  exists buffer : list string,
    EditorController.run
      (EditorController.onEditorContainerEncrypt
         (Examples.editorWorld Examples.cancelled)
         {| EditorController.ce_keyringId := Some "test.example|#|keyring";
            EditorController.ce_recipients := ["bob@example.org"] |})
      (EditorController.new true)
    = (Ok tt,
       EditorController.setKeyFprBuffer buffer
         (EditorController.setKeyringId
            (EditorController.ce_keyringId
               {| EditorController.ce_keyringId := Some "test.example|#|keyring";
                  EditorController.ce_recipients := ["bob@example.org"] |})
            (EditorController.setPgpMIME true (EditorController.new true))),
       [Editor.SyncPublicKeys
          (EditorController.ce_keyringId
             {| EditorController.ce_keyringId := Some "test.example|#|keyring";
                EditorController.ce_recipients := ["bob@example.org"] |})
          buffer;
        Editor.Emit Editor.EditorPort "get-plaintext"
          (Editor.ActionData "encrypt" false)])
    /\ StronglySorted Fpr.lt buffer
    /\ forall z : string,
         In z buffer <->
         (exists (recipient : string) (fprs : list string),
            In recipient
               (EditorController.ce_recipients
                  {| EditorController.ce_keyringId :=
                       Some "test.example|#|keyring";
                     EditorController.ce_recipients := ["bob@example.org"] |}) /\
            Editor.keyFprsForAddress (Examples.editorWorld Examples.cancelled)
              (EditorController.ce_keyringId
                 {| EditorController.ce_keyringId :=
                      Some "test.example|#|keyring";
                    EditorController.ce_recipients := ["bob@example.org"] |})
              recipient = Some fprs /\
            In z fprs)
         \/ (Editor.auto_add_primary (Examples.editorWorld Examples.cancelled)
             = true /\
             Editor.getPrimaryKeyFpr (Examples.editorWorld Examples.cancelled)
               (EditorController.ce_keyringId
                  {| EditorController.ce_keyringId :=
                       Some "test.example|#|keyring";
                     EditorController.ce_recipients := ["bob@example.org"] |})
             = Some z /\
             z <> "").
Proof.
  exact (onEditorContainerEncrypt_all_keys
           (Examples.editorWorld Examples.cancelled)
           {| EditorController.ce_keyringId := Some "test.example|#|keyring";
              EditorController.ce_recipients := ["bob@example.org"] |}
           (EditorController.new true)
           ltac:(intros recipient [<- | []]; discriminate)).
Defined.

(** A request of the container for Carol, who has no key. *)
Lemma onEditorContainerEncrypt_no_key_witness :
  EditorController.run
    (EditorController.onEditorContainerEncrypt
       (Examples.editorWorld Examples.cancelled)
       {| EditorController.ce_keyringId := Some "test.example|#|keyring";
          EditorController.ce_recipients :=
            ["bob@example.org"; "carol@example.org"] |})
    (EditorController.new true)
  = (Ok tt,
     EditorController.setKeyringId
       (EditorController.ce_keyringId
          {| EditorController.ce_keyringId := Some "test.example|#|keyring";
             EditorController.ce_recipients :=
               ["bob@example.org"; "carol@example.org"] |})
       (EditorController.setPgpMIME true (EditorController.new true)),
     [Editor.Emit Editor.EditorCont "error-message"
        (Editor.ErrorData
           {| mvelo.message := "No valid encryption key for recipient address";
              mvelo.code := "NO_KEY_FOR_RECIPIENT" |})]).
Proof.
  exact (onEditorContainerEncrypt_no_key
           (Examples.editorWorld Examples.cancelled)
           {| EditorController.ce_keyringId := Some "test.example|#|keyring";
              EditorController.ce_recipients :=
                ["bob@example.org"; "carol@example.org"] |}
           (EditorController.new true) "carol@example.org"
           (or_intror (or_introl eq_refl)) eq_refl).
Defined.

(** Neither the editor names a signing key nor has the keyring a primary
    key. *)
Lemma signAndEncryptMessage_no_key_witness :
  EditorController.run
    (EditorController.signAndEncryptMessage Examples.withoutPrimary
       "MIME Hello Bob" None ["DDDDDDDDDDDDDDDDDDDDDDDDDDDDDDDDDDDDDDD1"] false)
    Examples.popup
  = (Throw (MveloError "No primary key found" "NO_PRIMARY_KEY_FOUND"),
     EditorController.setEncryptTimer false Examples.popup, []).
Proof.
  exact (signAndEncryptMessage_no_key Examples.withoutPrimary Examples.popup
           "MIME Hello Bob" None ["DDDDDDDDDDDDDDDDDDDDDDDDDDDDDDDDDDDDDDD1"]
           false eq_refl eq_refl).
Defined.

(** The second of two key ids is the one of Alice's private key. *)
Lemma getPrivateKeyByIds_first_witness :
  (KeyringBase.hasPrivateKey Examples.keystore
     (Some [KeyringBase.HexString "0123456789ABCDEF";
            KeyringBase.KeyidObject "AAAAAAAAAAAAAAA2"]) = true <->
   KeyringBase.getPrivateKeyByIds Examples.toArray Examples.keystore
     (KeyringBase.KeyIdArray
        [KeyringBase.HexString "0123456789ABCDEF";
         KeyringBase.KeyidObject "AAAAAAAAAAAAAAA2"]) <> None)
  /\ (forall key : openpgp.Key,
        KeyringBase.getPrivateKeyByIds Examples.toArray Examples.keystore
          (KeyringBase.KeyIdArray
             [KeyringBase.HexString "0123456789ABCDEF";
              KeyringBase.KeyidObject "AAAAAAAAAAAAAAA2"]) = Some key ->
        exists (before : list KeyringBase.keyIdValue)
               (keyId : KeyringBase.keyIdValue)
               (after : list KeyringBase.keyIdValue),
          [KeyringBase.HexString "0123456789ABCDEF";
           KeyringBase.KeyidObject "AAAAAAAAAAAAAAA2"]
          = before ++ keyId :: after /\
          (forall b, In b before ->
                     KeyringBase.privateKeys_getForId Examples.keystore
                       (KeyringBase.keyIdHex b) true = None) /\
          KeyringBase.privateKeys_getForId Examples.keystore
            (KeyringBase.keyIdHex keyId) true = Some key).
Proof.
  exact (getPrivateKeyByIds_first Examples.toArray Examples.keystore
           [KeyringBase.HexString "0123456789ABCDEF";
            KeyringBase.KeyidObject "AAAAAAAAAAAAAAA2"]
           eq_refl).
Defined.

Example getPrivateKeyByIds_alice :
  KeyringBase.getPrivateKeyByIds Examples.toArray Examples.keystore
    (KeyringBase.KeyIdArray
       [KeyringBase.HexString "0123456789ABCDEF";
        KeyringBase.KeyidObject "AAAAAAAAAAAAAAA2"])
  = Some Examples.aliceNew.
Proof. vm_compute. reflexivity. Qed.

Example getKeysByFprs_missing :
  KeyringBase.getKeysByFprs Examples.keystore
    ["AAAAAAAAAAAAAAAAAAAAAAAAAAAAAAAAAAAAAAA2";
     "CCCCCCCCCCCCCCCCCCCCCCCCCCCCCCCCCCCCCCC1";
     "BBBBBBBBBBBBBBBBBBBBBBBBBBBBBBBBBBBBBBB1"]
  = Throw (MveloError "No key found for ID CCCCCCCCCCCCCCCCCCCCCCCCCCCCCCCCCCCCCCC1"
                      "NO_KEY_FOUND_FOR_ENCRYPTION").
Proof. vm_compute. reflexivity. Qed.

(** A mail of three lines, the second empty, that ends with a line
    feed. *)
Example onMessage_three_lines :
  EditorContent.onMessage
    Examples.answerOptions
    (EditorContent.joinLines
       [(EditorContent.ofString "Hello Bob,", 10%N); ([], 10%N);
        (EditorContent.ofString "see you.", 10%N)] [])
  = EditorContent.joinLines
      [([], 10%N); ([], 10%N);
       (EditorContent.ofString "> Alice wrote:", 10%N);
       (EditorContent.ofString "> Hello Bob,", 10%N);
       (EditorContent.ofString "> ", 10%N);
       (EditorContent.ofString "> see you.", 10%N)] [].
Proof. vm_compute. reflexivity. Qed.

(** A line starts after a carriage return, U+2028 and U+2029 too, and of
    the line terminators only a line feed at the start of a line has the
    mark before it. *)
Example replaceLineStarts_line_terminators :
  EditorContent.replaceLineStarts true
    (EditorContent.ofString "a" ++ [13%N; 10%N]
       ++ EditorContent.ofString "b" ++ [0x2028%N; 0x2029%N]
       ++ EditorContent.ofString "c")
  = EditorContent.ofString "> a" ++ [13%N]
      ++ EditorContent.mark ++ [10%N]
      ++ EditorContent.ofString "> b" ++ [0x2028%N; 0x2029%N]
      ++ EditorContent.ofString "> c".
Proof. vm_compute. reflexivity. Qed.

Example locate_from_directory :
  AutoLocate.locate
    (AutoLocate.withDirectory (rt := Examples.runtime)
       (pgp := Examples.openpgpjs) (km := Examples.keyModule)
       Examples.directoryOnly (WKD.new None) Examples.directory)
    Examples.queryAlice
  = ([AutoLocate.DirectoryLookup (Some "alice@example.org") true;
      AutoLocate.ConsoleLog
        ("Importing " ++ String "010" (Examples.armorKey Examples.aliceNew));
      AutoLocate.ImportKeys mvelo.MAIN_KEYRING_ID
        [{| AutoLocate.type := "public";
            AutoLocate.armored :=
              AutoLocate.armoredText (Examples.armorKey Examples.aliceNew) |}]],
     Ok tt).
Proof. vm_compute. reflexivity. Qed.

(** A draft whose signature does not verify is not shown. *)
Lemma decryptArmored_draft_signature_witness :
  existsb EditorContent.showsContent
    (EditorContent.decryptArmored (Examples.editorWorld Examples.unlockedAlice)
       (Examples.contentWorld (Some false)) Examples.popup
       Examples.draftOptions "-----BEGIN PGP MESSAGE----- (draft)") = false
  /\ exists error : mvelo.ErrorObject,
       EditorContent.decryptArmored (Examples.editorWorld Examples.unlockedAlice)
         (Examples.contentWorld (Some false)) Examples.popup
         Examples.draftOptions "-----BEGIN PGP MESSAGE----- (draft)"
       = map EditorContent.Unlocking
           (snd (EditorContent.decrypt
                   (Examples.editorWorld Examples.unlockedAlice)
                   (Examples.contentWorld (Some false)) Examples.popup
                   Examples.draftOptions "-----BEGIN PGP MESSAGE----- (draft)"))
           ++ [EditorContent.DecryptFailed error].
Proof.
  exact (decryptArmored_draft_signature
           (Examples.editorWorld Examples.unlockedAlice)
           (Examples.contentWorld (Some false)) Examples.popup
           Examples.draftOptions "-----BEGIN PGP MESSAGE----- (draft)"
           {| EditorContent.data :=
                "MIME of -----BEGIN PGP MESSAGE----- (draft)";
              EditorContent.signatures :=
                Some [{| EditorContent.valid := Some false |}] |}
           eq_refl ltac:(vm_compute; reflexivity)
           ltac:(intros first others H; inversion H; discriminate)).
Defined.

(** The draft with the invalid signature in an editor popup: the password
    dialog is shown and hidden in the editor, and the failure follows. *)
Example rejected_draft :
  EditorContent.decryptArmored (Examples.editorWorld Examples.unlockedAlice)
    (Examples.contentWorld (Some false)) Examples.popup
    Examples.draftOptions "-----BEGIN PGP MESSAGE----- (draft)"
  = [EditorContent.Unlocking
       (Editor.UnlockKey
          {| Editor.key := "AAAAAAAAAAAAAAAAAAAAAAAAAAAAAAAAAAAAAAA2";
             Editor.reason := "PWD_DIALOG_REASON_DECRYPT";
             Editor.openPopup := false;
             Editor.noCache := false |});
     EditorContent.Unlocking
       (Editor.Emit Editor.EditorPort "show-pwd-dialog"
          (Editor.IdData "pwd-dialog-1"));
     EditorContent.Unlocking Editor.TriggerSync;
     EditorContent.Unlocking
       (Editor.Emit Editor.EditorPort "hide-pwd-dialog" Editor.NoData);
     EditorContent.DecryptFailed
       {| mvelo.message :=
            "Restoring of the draft failed due to invalid signature.";
          mvelo.code := "INTERNAL_ERROR" |}].
Proof. vm_compute. reflexivity. Qed.

(** A cancelled password dialog: the decryption fails with the error of
    the dialog, and the dialog is not hidden in the editor. *)
Example cancelled_draft :
  EditorContent.decryptArmored (Examples.editorWorld Examples.cancelled)
    (Examples.contentWorld (Some true)) Examples.popup
    Examples.draftOptions "-----BEGIN PGP MESSAGE----- (draft)"
  = [EditorContent.Unlocking
       (Editor.UnlockKey
          {| Editor.key := "AAAAAAAAAAAAAAAAAAAAAAAAAAAAAAAAAAAAAAA2";
             Editor.reason := "PWD_DIALOG_REASON_DECRYPT";
             Editor.openPopup := false;
             Editor.noCache := false |});
     EditorContent.Unlocking
       (Editor.Emit Editor.EditorPort "show-pwd-dialog"
          (Editor.IdData "pwd-dialog-1"));
     EditorContent.DecryptFailed
       {| mvelo.message :=
            "Error: Password dialog canceled.";
          mvelo.code := "INTERNAL_ERROR" |}].
Proof. vm_compute. reflexivity. Qed.

(** A draft with a valid signature: its file reaches the editor although
    the options did not ask to keep attachments. *)
Lemma onEditorOptions_attachments_witness :
  EditorContent.scheduled
    (snd (EditorContent.onEditorOptions (Examples.contentWorld (Some true))
            (Editor.editorPopup (EditorController.new false))
            (Editor.keyringId (EditorController.new false))
            Examples.draftOptions))
  = (if truthy (EditorContent.armoredDraft Examples.draftOptions)
     then [EditorContent.textOf (EditorContent.armoredDraft Examples.draftOptions)]
     else if truthy (EditorContent.quotedMail Examples.draftOptions)
          then [EditorContent.textOf
                  (EditorContent.quotedMail Examples.draftOptions)]
          else [])
  /\ EditorContent.attachments
       (EditorContent.decryptArmored
          (Examples.editorWorld Examples.unlockedAlice)
          (Examples.contentWorld (Some true)) (EditorController.new false)
          (fst (EditorContent.onEditorOptions
                  (Examples.contentWorld (Some true))
                  (Editor.editorPopup (EditorController.new false))
                  (Editor.keyringId (EditorController.new false))
                  Examples.draftOptions))
          "-----BEGIN PGP MESSAGE----- (draft)")
     = (if truthy (EditorContent.armoredDraft Examples.draftOptions)
           || EditorContent.keepAttachments Examples.draftOptions
        then EditorContent.files
               (fst (EditorContent.parseMessage
                       (Examples.contentWorld (Some true))
                       (EditorContent.data
                          {| EditorContent.data :=
                               "MIME of -----BEGIN PGP MESSAGE----- (draft)";
                             EditorContent.signatures :=
                               Some [{| EditorContent.valid := Some true |}] |})))
        else []).
Proof.
  exact (onEditorOptions_attachments
           (Examples.editorWorld Examples.unlockedAlice)
           (Examples.contentWorld (Some true)) (EditorController.new false)
           Examples.draftOptions
           "-----BEGIN PGP MESSAGE----- (draft)"
           {| EditorContent.data :=
                "MIME of -----BEGIN PGP MESSAGE----- (draft)";
              EditorContent.signatures :=
                Some [{| EditorContent.valid := Some true |}] |}
           ltac:(vm_compute; reflexivity) eq_refl).
Defined.

(** The same draft in an editor that is no popup: the password dialog
    opens its own popup, and the text and the file follow. *)
Example restored_draft :
  EditorContent.decryptArmored (Examples.editorWorld Examples.unlockedAlice)
    (Examples.contentWorld (Some true)) (EditorController.new false)
    (fst (EditorContent.onEditorOptions (Examples.contentWorld (Some true))
            false None Examples.draftOptions))
    "-----BEGIN PGP MESSAGE----- (draft)"
  = [EditorContent.Unlocking
       (Editor.UnlockKey
          {| Editor.key := "AAAAAAAAAAAAAAAAAAAAAAAAAAAAAAAAAAAAAAA2";
             Editor.reason := "PWD_DIALOG_REASON_DECRYPT";
             Editor.openPopup := true;
             Editor.noCache := false |});
     EditorContent.Unlocking Editor.TriggerSync;
     EditorContent.SetText (EditorContent.ofString "Dear Bob");
     EditorContent.SetAttachment "plan.pdf";
     EditorContent.DecryptEnd].
Proof. vm_compute. reflexivity. Qed.

Lemma onEditorPlaintext_no_signing_key_witness :
  EditorController.run
    (EditorController.onEditorPlaintext Examples.withoutPrimary
       Examples.signedMail)
    Examples.popup
  = EditorController.reportError Examples.withoutPrimary
      (EditorController.setEncryptTimer false Examples.popup)
      [] (MveloError "No primary key found" "NO_PRIMARY_KEY_FOUND").
Proof.
  exact (onEditorPlaintext_no_signing_key Examples.withoutPrimary
           Examples.popup Examples.signedMail "MIME Hello Bob"
           eq_refl eq_refl eq_refl eq_refl eq_refl).
Defined.

Lemma encodeZBase32_injective_witness :
  Examples.SHA1.ofString "abc"
  = [xa9; x99; x3e; x36; x47; x06; x81; x6a; xba; x3e;
     x25; x71; x78; x50; xc2; x6c; x9c; xd0; xd8; x9d].
Proof.
  exact (encodeZBase32_injective
           (Examples.SHA1.ofString "abc")
           [xa9; x99; x3e; x36; x47; x06; x81; x6a; xba; x3e;
            x25; x71; x78; x50; xc2; x6c; x9c; xd0; xd8; x9d]
           ltac:(vm_compute; reflexivity)).
Defined.

(** The key returned for Alice when one key is asked for is among the two
    returned when all are asked for. *)
Lemma parseKeysForEMail_one_of_all_witness :
  exists all : list string,
    WKD.parseKeysForEMail (rt := Examples.runtime) (pgp := Examples.openpgpjs)
      (km := Examples.keyModule) [x01] "alice@example.org" false
    = Ok (WKD.AllKeys all)
    /\ In (Examples.armorKey Examples.aliceNew) all.
Proof.
  exact (proj2
           (parseKeysForEMail_one_of_all (rt := Examples.runtime)
              (pgp := Examples.openpgpjs) (km := Examples.keyModule)
              [x01] "alice@example.org")
           (Examples.armorKey Examples.aliceNew)
           ltac:(vm_compute; reflexivity)).
Defined.

(** A draft in the embedded editor, whose buffer held Bob's key and the
    sender's: after the request it is encrypted to the sender alone. *)
Lemma onEditorContainerCreateDraft_spec_witness :
  snd (EditorController.run
         (EditorController.onEditorContainerCreateDraft
            (Examples.editorWorld Examples.cancelled)
            (Some "test.example|#|keyring"))
         Examples.embedded)
  = [Editor.Emit Editor.EditorPort "get-plaintext"
       (Editor.ActionData "encrypt" true)]
  /\ forall keys : list Editor.KeyObject,
       EditorController.getPublicKeyFprs
         (Examples.editorWorld Examples.cancelled)
         (snd (fst (EditorController.run
                      (EditorController.onEditorContainerCreateDraft
                         (Examples.editorWorld Examples.cancelled)
                         (Some "test.example|#|keyring"))
                      Examples.embedded)))
         keys
       = ["AAAAAAAAAAAAAAAAAAAAAAAAAAAAAAAAAAAAAAA2"].
Proof.
  exact (proj1
           (onEditorContainerCreateDraft_spec
              (Examples.editorWorld Examples.cancelled) Examples.embedded
              (Some "test.example|#|keyring"))
           "AAAAAAAAAAAAAAAAAAAAAAAAAAAAAAAAAAAAAAA2" eq_refl
           ltac:(discriminate)).
Defined.

(** The buffer of the embedded editor survives a job and a sign-only
    request. *)
Lemma keyFprBuffer_never_cleared_witness :
  Editor.keyFprBuffer
    (EditorController.handleAll (Examples.editorWorld Examples.cancelled)
       Examples.embedded
       [EditorController.PlaintextRequest Examples.signedMail;
        EditorController.SignOnlyRequest
          "AAAAAAAAAAAAAAAAAAAAAAAAAAAAAAAAAAAAAAA2"])
  = Editor.keyFprBuffer Examples.embedded.
Proof.
  exact (proj1
           (keyFprBuffer_never_cleared
              (Examples.editorWorld Examples.cancelled)
              [EditorController.PlaintextRequest Examples.signedMail;
               EditorController.SignOnlyRequest
                 "AAAAAAAAAAAAAAAAAAAAAAAAAAAAAAAAAAAAAAA2"]
              Examples.embedded)
           eq_refl).
Defined.

(** The key store has keys for Alice's and Mallory's fingerprints. *)
Lemma getKeysByFprs_all_or_nothing_witness :
  (forall keyFpr,
     In keyFpr ["AAAAAAAAAAAAAAAAAAAAAAAAAAAAAAAAAAAAAAA2";
                "BBBBBBBBBBBBBBBBBBBBBBBBBBBBBBBBBBBBBBB1"] ->
     KeyringBase.getKeysForId Examples.keystore keyFpr false <> None)
  /\ [Some Examples.aliceNew; Some Examples.mallory]
     = map (fun keyFpr =>
              match KeyringBase.getKeysForId Examples.keystore keyFpr false with
              | Some keyArray => hd_error keyArray
              | None => None
              end)
           ["AAAAAAAAAAAAAAAAAAAAAAAAAAAAAAAAAAAAAAA2";
            "BBBBBBBBBBBBBBBBBBBBBBBBBBBBBBBBBBBBBBB1"].
Proof.
  exact (proj1
           (getKeysByFprs_all_or_nothing Examples.keystore
              ["AAAAAAAAAAAAAAAAAAAAAAAAAAAAAAAAAAAAAAA2";
               "BBBBBBBBBBBBBBBBBBBBBBBBBBBBBBBBBBBBBBB1"])
           [Some Examples.aliceNew; Some Examples.mallory]
           ltac:(vm_compute; reflexivity)).
Defined.

(** Bob's address, for which the key store has no key, is mapped to
    [false]. *)
Lemma getKeyByAddress_spec_witness :
  KeyringBase.property
    (KeyringBase.getKeyByAddress Examples.isValidEncryptionKey
       (fun keys _ => keys) None "test.example|#|keyring" Examples.keystore
       ["alice@example.org"; "bob@example.org"]
       {| KeyringBase.pub := true; KeyringBase.priv := true;
          KeyringBase.sort := false; KeyringBase.valid := true |})
    "bob@example.org"
  = Some None.
Proof.
  exact (proj1
           (proj2
              (getKeyByAddress_spec
                 Examples.isValidEncryptionKey
                 (fun keys _ => keys) None "test.example|#|keyring"
                 Examples.keystore ["alice@example.org"; "bob@example.org"]
                 {| KeyringBase.pub := true; KeyringBase.priv := true;
                    KeyringBase.sort := false; KeyringBase.valid := true |}
                 "bob@example.org")
              (or_intror (or_introl eq_refl)))
           eq_refl).
Defined.

(** An editor that is neither embedded nor in a popup: the promise of
    [encryptText] is rejected when the unlock is cancelled. *)
Lemma encryptText_settled_witness :
  List.length
    (filter EditorController.isSettle
       (snd (EditorController.run
               (EditorController.onEditorPlaintext
                  (Examples.editorWorld Examples.cancelled) Examples.signedMail)
               (snd (fst (EditorController.run EditorController.encryptText
                            (EditorController.new false)))))))
  = 1%nat.
Proof.
  exact (proj2
           (encryptText_settled (Examples.editorWorld Examples.cancelled)
              (EditorController.new false) Examples.signedMail)
           eq_refl eq_refl).
Defined.


(** A quoted mail of two lines. *)
Lemma onMessage_quotes_every_line_witness :
  EditorContent.onMessage
    Examples.answerOptions
    (EditorContent.joinLines
       [(EditorContent.ofString "Hello Bob,", 13%N); ([], 10%N);
        ([], 8232%N)]
       (EditorContent.ofString "see you."))
  = EditorContent.LF ++ EditorContent.LF
      ++ match EditorContent.quotedMailHeader Examples.answerOptions with
         | Some (c :: header) =>
             EditorContent.mark ++ (c :: header) ++ EditorContent.LF
         | _ => []
         end
      ++ EditorContent.quoteLines
           [(EditorContent.ofString "Hello Bob,", 13%N); ([], 10%N);
            ([], 8232%N)]
           (EditorContent.ofString "see you.")
      ++ match EditorContent.predefinedText Examples.answerOptions with
         | Some (c :: text) =>
             EditorContent.LF ++ EditorContent.LF ++ c :: text
         | _ => []
         end.
Proof.
  exact (proj1
           (onMessage_quotes_every_line
              Examples.answerOptions)
           eq_refl
           [(EditorContent.ofString "Hello Bob,", 13%N); ([], 10%N);
            ([], 8232%N)]
           (EditorContent.ofString "see you.")
           ltac:(vm_compute; reflexivity) ltac:(vm_compute; reflexivity)).
Defined.
